(** * PRD text-to-document pipeline ([utils.py], class [PDFGenerator])

    A shallow embedding of the text-processing part of [PDFGenerator]:
    title extraction, the sixteen-section extraction of
    [parse_and_add_content], the paragraph / bullet formatter, the
    functional-requirements table routine, [extract_sections],
    [extract_subsections] and the orchestration in [generate].

    Modelling conventions.
    - A Python [str] is a [list ascii]: a sequence of code points below 256.
      Within that range the whitespace class of [str.strip], [str.isspace]
      and of [\s] in a [str] pattern is 9-13, 28-32, 133 and 160, and [\d]
      is '0'-'9'.
    - The [re] module is embedded as a backtracking matcher in
      continuation-passing style over the fragment of the pattern language
      that the source uses; every pattern of the source is written out as a
      term of [regex].
    - The story (the list of flowables handed to reportlab) is a list of
      [flowable]; styles are names, lengths are tenths of an inch. *)

From Stdlib Require Import Ascii String List Bool Arith Lia.
From Stdlib Require Import Numbers.DecimalString Numbers.DecimalNat.
Import ListNotations.

Set Implicit Arguments.

Definition str := list ascii.

(** String literals of the source. *)
Definition lit (s : string) : str := list_ascii_of_string s.

Local Open Scope list_scope.

(** ** Characters *)

Definition NL : ascii := "010"%char.

Definition is_space (c : ascii) : bool :=
  let n := nat_of_ascii c in
  ((9 <=? n) && (n <=? 13)) || ((28 <=? n) && (n <=? 32))
  || (n =? 133) || (n =? 160).

Definition is_digit (c : ascii) : bool :=
  let n := nat_of_ascii c in (48 <=? n) && (n <=? 57).

Definition is_chr (a c : ascii) : bool := Ascii.eqb a c.

(** [.] under [re.DOTALL], and without it. *)
Definition dot_all (_ : ascii) : bool := true.
Definition dot (c : ascii) : bool := negb (is_chr NL c).

(** The bullet markers, [[\-\*]]. *)
Definition is_marker (c : ascii) : bool := is_chr "-"%char c || is_chr "*"%char c.

(** ** Python string methods *)

(** [s.startswith(p)] *)
Fixpoint startswith (p s : str) : bool :=
  match p, s with
  | [], _ => true
  | a :: p', c :: s' => Ascii.eqb a c && startswith p' s'
  | _ :: _, [] => false
  end.

(** [p in s] for strings *)
Fixpoint contains (p s : str) : bool :=
  startswith p s ||
  match s with
  | [] => false
  | _ :: s' => contains p s'
  end.

(** [s.lstrip()], [s.rstrip()], [s.strip()] *)
Fixpoint lstrip (s : str) : str :=
  match s with
  | c :: s' => if is_space c then lstrip s' else s
  | [] => []
  end.

Definition rstrip (s : str) : str := rev (lstrip (rev s)).

Definition strip (s : str) : str := rstrip (lstrip s).

(** [s.split(sep)] for a non-empty separator: the pieces between the
    leftmost non-overlapping occurrences of [sep].  [cur] is the piece being
    read (reversed), [skip] the characters of a separator still to pass. *)
Fixpoint split_from (sep : str) (skip : nat) (cur : str) (s : str) : list str :=
  match s with
  | [] => [rev cur]
  | c :: s' =>
      match skip with
      | S k => split_from sep k cur s'
      | O => if startswith sep s
             then rev cur :: split_from sep (length sep - 1) [] s'
             else split_from sep 0 (c :: cur) s'
      end
  end.

Definition split (sep s : str) : list str := split_from sep 0 [] s.

(** [s.split(sep, 1)]: at most one cut.  The result has one or two pieces. *)
Fixpoint split1_from (sep : str) (cur : str) (s : str) : list str :=
  match s with
  | [] => [rev cur]
  | c :: s' =>
      if startswith sep s then [rev cur; skipn (length sep) s]
      else split1_from sep (c :: cur) s'
  end.

Definition split1 (sep s : str) : list str := split1_from sep [] s.

(** [str(i)] for a natural number. *)
Definition str_of_nat (n : nat) : str :=
  lit (NilZero.string_of_uint (Nat.to_uint n)).

(** [int(s)] on a string of decimal digits (what [key=int] sees here). *)
Definition int_of_str (s : str) : nat :=
  fold_left (fun acc c => 10 * acc + (nat_of_ascii c - 48)) s 0.

(** ** Python dictionaries

    Insertion-ordered: assigning to an existing key keeps its place and
    replaces the value, a new key goes to the end. *)

Definition dict (V : Type) := list (str * V).

Fixpoint str_eqb (a b : str) : bool :=
  match a, b with
  | [], [] => true
  | x :: a', y :: b' => Ascii.eqb x y && str_eqb a' b'
  | _, _ => false
  end.

Fixpoint dict_set {V} (d : dict V) (k : str) (v : V) : dict V :=
  match d with
  | [] => [(k, v)]
  | (k', v') :: d' =>
      if str_eqb k' k then (k', v) :: d' else (k', v') :: dict_set d' k v
  end.

Fixpoint dict_get {V} (d : dict V) (k : str) : option V :=
  match d with
  | [] => None
  | (k', v') :: d' => if str_eqb k' k then Some v' else dict_get d' k
  end.

Definition dict_keys {V} (d : dict V) : list str := map fst d.

(** [sorted(keys, key=int)]: a stable insertion sort on the integer value. *)
Fixpoint insert_by_int (k : str) (l : list str) : list str :=
  match l with
  | [] => [k]
  | x :: l' =>
      if int_of_str x <=? int_of_str k then x :: insert_by_int k l'
      else k :: l
  end.

Definition sorted_by_int (l : list str) : list str :=
  fold_left (fun acc k => insert_by_int k acc) l [].

(** ** The [re] module

    A cursor is a position in the subject string: the text before it
    (nearest character first) and the text after it. *)

Record cursor := Cur { before : str; after : str }.

(** Captured groups, most recent first. *)
Definition groups := list (nat * str).

Fixpoint group_get (g : groups) (n : nat) : str :=
  match g with
  | [] => []
  | (n', v) :: g' => if n' =? n then v else group_get g' n
  end.

(** The text between two cursors of one subject string. *)
Definition between (c c' : cursor) : str :=
  firstn (length (after c) - length (after c')) (after c).

(** The patterns of the source quantify single characters only, so [Star]
    takes a character class; [x+] is [x x*] and [x?] is [(?:x|)]. *)
Inductive regex : Type :=
| Eps
| Chars (s : str)                      (* literal text, as after [re.escape] *)
| Cls (p : ascii -> bool)              (* one character of a class *)
| Star (greedy : bool) (p : ascii -> bool)
| Seq (r1 r2 : regex)
| Alt (r1 r2 : regex)
| Grp (n : nat) (r : regex)            (* capturing group number [n] *)
| Ahead (r : regex)                    (* [(?=r)] *)
| Bol                                  (* [^] under [re.MULTILINE] *)
| Eol                                  (* [$] without [re.MULTILINE] *)
| EndZ.                                (* [\Z] *)

Definition Plus (greedy : bool) (p : ascii -> bool) : regex :=
  Seq (Cls p) (Star greedy p).
Definition Opt (r : regex) : regex := Alt r Eps.

Definition cont := cursor -> groups -> option (cursor * groups).

Definition accept : cont := fun c g => Some (c, g).

(** [p*]: as many as possible first, giving back one at a time. *)
Fixpoint star_greedy (p : ascii -> bool) (k : cont) (b a : str) (g : groups)
  : option (cursor * groups) :=
  match a with
  | x :: a' =>
      if p x then
        match star_greedy p k (x :: b) a' g with
        | Some r => Some r
        | None => k (Cur b a) g
        end
      else k (Cur b a) g
  | [] => k (Cur b a) g
  end.

(** [p*?]: as few as possible first, taking one more at a time. *)
Fixpoint star_lazy (p : ascii -> bool) (k : cont) (b a : str) (g : groups)
  : option (cursor * groups) :=
  match k (Cur b a) g with
  | Some r => Some r
  | None =>
      match a with
      | x :: a' => if p x then star_lazy p k (x :: b) a' g else None
      | [] => None
      end
  end.

(** Literal text at the cursor. *)
Fixpoint eat (s : str) (b a : str) : option cursor :=
  match s, a with
  | [], _ => Some (Cur b a)
  | x :: s', y :: a' => if Ascii.eqb x y then eat s' (y :: b) a' else None
  | _ :: _, [] => None
  end.

Definition at_bol (c : cursor) : bool :=
  match before c with
  | [] => true
  | x :: _ => is_chr NL x
  end.

Definition at_eol (c : cursor) : bool :=
  match after c with
  | [] => true
  | [x] => is_chr NL x
  | _ => false
  end.

Definition at_end (c : cursor) : bool :=
  match after c with
  | [] => true
  | _ => false
  end.

Fixpoint exec (r : regex) (k : cont) (c : cursor) (g : groups)
  : option (cursor * groups) :=
  match r with
  | Eps => k c g
  | Chars s =>
      match eat s (before c) (after c) with
      | Some c' => k c' g
      | None => None
      end
  | Cls p =>
      match after c with
      | x :: a' => if p x then k (Cur (x :: before c) a') g else None
      | [] => None
      end
  | Star greedy p =>
      if greedy then star_greedy p k (before c) (after c) g
      else star_lazy p k (before c) (after c) g
  | Seq r1 r2 => exec r1 (exec r2 k) c g
  | Alt r1 r2 =>
      match exec r1 k c g with
      | Some res => Some res
      | None => exec r2 k c g
      end
  | Grp n r1 => exec r1 (fun c' g' => k c' ((n, between c c') :: g')) c g
  | Ahead r1 =>
      match exec r1 accept c g with
      | Some (_, g') => k c g'
      | None => None
      end
  | Bol => if at_bol c then k c g else None
  | Eol => if at_eol c then k c g else None
  | EndZ => if at_end c then k c g else None
  end.

(** A match object: where the match begins and ends, and its groups. *)
Record match_obj := Match { m_start : cursor; m_end : cursor; m_groups : groups }.

(** [m.group(n)].  In every pattern of the source each group takes part in
    every match. *)
Definition group (n : nat) (m : match_obj) : str :=
  match n with
  | O => between (m_start m) (m_end m)
  | _ => group_get (m_groups m) n
  end.

Definition match_at (r : regex) (c : cursor) : option match_obj :=
  match exec r accept c [] with
  | Some (e, g) => Some (Match c e g)
  | None => None
  end.

(** [re.match(r, s)]: at the start of the string only. *)
Definition re_match (r : regex) (s : str) : option match_obj :=
  match_at r (Cur [] s).

(** [re.search(r, s)]: the leftmost position with a match. *)
Fixpoint search_from (r : regex) (b a : str) : option match_obj :=
  match match_at r (Cur b a) with
  | Some m => Some m
  | None =>
      match a with
      | [] => None
      | x :: a' => search_from r (x :: b) a'
      end
  end.

Definition re_search (r : regex) (s : str) : option match_obj :=
  search_from r [] s.

(** [re.finditer(r, s)]: successive non-overlapping matches, left to right.
    After a match of [n] characters the scan resumes at its end ([skip]
    counts the characters still to pass); after an empty match it moves on
    by one character. *)
Fixpoint finditer_from (r : regex) (skip : nat) (b a : str) : list match_obj :=
  match a with
  | [] =>
      match skip with
      | O => match match_at r (Cur b []) with Some m => [m] | None => [] end
      | S _ => []
      end
  | x :: a' =>
      match skip with
      | S k => finditer_from r k (x :: b) a'
      | O =>
          match match_at r (Cur b a) with
          | Some m =>
              m :: finditer_from r (length (group 0 m) - 1) (x :: b) a'
          | None => finditer_from r 0 (x :: b) a'
          end
      end
  end.

Definition re_finditer (r : regex) (s : str) : list match_obj :=
  finditer_from r 0 [] s.

(** ** Flowables and the story

    [Paragraph(text, style)], [Spacer(w, h)] with [h] in tenths of an inch
    ([0.2 * inch] is 2, [inch] is 10), [ListFlowable] of
    [ListItem(Paragraph(text, bullet_style))] items given by their texts,
    [Table(rows)], [PageBreak()]. *)

Inductive style :=
| title_style | subtitle_style | heading_style | subheading_style
| normal_style | bullet_style | toc_style.

Inductive flowable :=
| Paragraph (text : str) (st : style)
| Spacer (width height : nat)
| ListFlowable (items : list str)
| Table (rows : list (list str))
| PageBreak.

Definition story := list flowable.

(** ** [PDFGenerator] *)

(** [create_cover_page]; [date_str] is [datetime.now().strftime(...)]. *)
Definition create_cover_page (date_str project_name : str) (st : story) : story :=
  let st := st ++ [Paragraph (lit "Product Requirements Document:") title_style] in
  let st := st ++ [Paragraph project_name subtitle_style] in
  let st := st ++ [Spacer 1 2] in
  let st := st ++ [Paragraph (lit "Generated on: " ++ date_str) normal_style] in
  st ++ [Spacer 1 10].

Definition toc_entries : list str :=
  [ lit "Introduction";
    lit "Goals and Objectives";
    lit "User Personas and Roles";
    lit "Functional Requirements";
    lit "Non-Functional Requirements";
    lit "User Interface (UI) / User Experience (UX) Considerations";
    lit "Data Requirements";
    lit "System Architecture & Technical Considerations";
    lit "Release Criteria & Success Metrics";
    lit "Timeline & Milestones";
    lit "Team Structure";
    lit "User Stories";
    lit "Cost Estimation";
    lit "Open Issues & Future Considerations";
    lit "Appendix";
    lit "Points Requiring Further Clarification" ].

(** [enumerate(l, start)] *)
Fixpoint enumerate {A} (l : list A) (start : nat) : list (nat * A) :=
  match l with
  | [] => []
  | x :: l' => (start, x) :: enumerate l' (S start)
  end.

Definition create_table_of_contents (st : story) : story :=
  let st := st ++ [Paragraph (lit "Table of Contents") subtitle_style] in
  let st := st ++ [Spacer 1 2] in
  fold_left
    (fun st ie =>
       st ++ [Paragraph (str_of_nat (fst ie) ++ lit ". " ++ snd ie) toc_style])
    (enumerate toc_entries 1) st.

(** [[^\n]] *)
Definition not_nl (c : ascii) : bool := negb (is_chr NL c).

(** [r"Product Requirements Document:?\s*([^\n]+)"] *)
Definition project_name_re : regex :=
  Seq (Chars (lit "Product Requirements Document"))
  (Seq (Opt (Chars (lit ":")))
  (Seq (Star true is_space)
       (Grp 1 (Plus true not_nl)))).

Definition extract_project_name (content : str) : str :=
  match re_search project_name_re content with
  | Some m => strip (group 1 m)
  | None => lit "Project Requirements Document"
  end.

Definition titles : dict str :=
  [ (lit "1", lit "Introduction");
    (lit "2", lit "Goals and Objectives");
    (lit "3", lit "User Personas and Roles");
    (lit "4", lit "Functional Requirements");
    (lit "5", lit "Non-Functional Requirements");
    (lit "6", lit "User Interface (UI) / User Experience (UX) Considerations");
    (lit "7", lit "Data Requirements");
    (lit "8", lit "System Architecture & Technical Considerations");
    (lit "9", lit "Release Criteria & Success Metrics");
    (lit "10", lit "Timeline & Milestones");
    (lit "11", lit "Team Structure");
    (lit "12", lit "User Stories");
    (lit "13", lit "Cost Estimation");
    (lit "14", lit "Open Issues & Future Considerations");
    (lit "15", lit "Appendix");
    (lit "16", lit "Points Requiring Further Clarification") ].

(** [titles.get(section_num, f"Section {section_num}")] *)
Definition get_default_section_title (section_num : str) : str :=
  match dict_get titles section_num with
  | Some t => t
  | None => lit "Section " ++ section_num
  end.

(** [(?={i+1}\.\s+|$)] *)
Definition next_marker (i : nat) : regex :=
  Ahead (Alt (Seq (Chars (str_of_nat (i + 1)))
                  (Seq (Chars (lit ".")) (Plus true is_space)))
             Eol).

(** [rf'{i}\.\s+{re.escape(section_title)}(.*?)(?={i+1}\.\s+|$)'], under
    [re.DOTALL] *)
Definition strict_pattern (i : nat) (section_title : str) : regex :=
  Seq (Chars (str_of_nat i))
  (Seq (Chars (lit "."))
  (Seq (Plus true is_space)
  (Seq (Chars section_title)
  (Seq (Grp 1 (Star false dot_all))
       (next_marker i))))).

(** [rf'{i}\.\s+(.*?)(?={i+1}\.\s+|$)'], under [re.DOTALL] *)
Definition simple_pattern (i : nat) : regex :=
  Seq (Chars (str_of_nat i))
  (Seq (Chars (lit "."))
  (Seq (Plus true is_space)
  (Seq (Grp 1 (Star false dot_all))
       (next_marker i)))).

(** [rf'{section_num}\.\s+(.*?)(?=\n|$)'], no flags *)
Definition title_pattern (section_num : str) : regex :=
  Seq (Chars section_num)
  (Seq (Chars (lit "."))
  (Seq (Plus true is_space)
  (Seq (Grp 1 (Star false dot))
       (Ahead (Alt (Chars [NL]) Eol))))).

(** [r'^\s*[\-\*]\s'], under [re.MULTILINE] *)
Definition bullet_re : regex :=
  Seq Bol (Seq (Star true is_space) (Seq (Cls is_marker) (Cls is_space))).

(** [range(a, b)] *)
Definition range (a b : nat) : list nat := seq a (b - a).

(** *** [add_content_with_formatting] *)

Record fmt_state := Fmt { f_story : story; f_items : list str; f_paragraphs : list str }.

(** One turn of the loop over [content.split('\n')]. *)
Definition fmt_line (s : fmt_state) (line : str) : fmt_state :=
  let line := strip line in
  match line with
  | [] => s                                         (* continue *)
  | _ =>
      if startswith (lit "-") line || startswith (lit "*") line then
        let s :=
          match f_paragraphs s with
          | [] => s
          | ps => Fmt (f_story s ++ map (fun p => Paragraph p normal_style) ps)
                      (f_items s) []
          end in
        let bullet_text := strip (tl line) in
        Fmt (f_story s) (f_items s ++ [bullet_text]) (f_paragraphs s)
      else
        let s :=
          match f_items s with
          | [] => s
          | its => Fmt (f_story s ++ [ListFlowable its]) [] (f_paragraphs s)
          end in
        Fmt (f_story s) (f_items s) (f_paragraphs s ++ [line])
  end.

Definition add_content_with_formatting (content : str) (st : story) : story :=
  match re_search bullet_re content with
  | Some _ =>
      let s := fold_left fmt_line (split [NL] content) (Fmt st [] []) in
      let st :=
        match f_items s with
        | [] => f_story s
        | its => f_story s ++ [ListFlowable its]
        end in
      match f_paragraphs s with
      | [] => st
      | ps => st ++ map (fun p => Paragraph p normal_style) ps
      end
  | None =>
      fold_left
        (fun st p =>
           match strip p with
           | [] => st
           | q => st ++ [Paragraph q normal_style]
           end)
        (split [NL; NL] content) st
  end.

(** *** [add_functional_requirements_table] *)

Definition header_row : list str :=
  [lit "ID"; lit "Requirement Description"; lit "Priority"; lit "Dependencies"].

Definition placeholder_row : list str :=
  [lit "FR01"; lit "Placeholder requirement"; lit "High"; lit "-"].

(** One turn of the loop over the lines; [rows] is the accumulator. *)
Definition table_line (rows : list (list str)) (line : str) : list (list str) :=
  let line := strip line in
  if startswith (lit "FR") line && contains (lit "|") line then
    let cells := map strip (split (lit "|") line) in
    if 4 <=? length cells then rows ++ [firstn 4 cells] else rows
  else if startswith (lit "ID") line && contains (lit "|") line then
    rows                                            (* continue *)
  else rows.

Definition table_rows (content : str) : list (list str) :=
  let rows := [header_row] in
  let rows := fold_left table_line (split [NL] content) rows in
  if length rows =? 1 then rows ++ [placeholder_row] else rows.

Definition add_functional_requirements_table (content : str) (st : story) : story :=
  st ++ [Table (table_rows content)].

(** *** [parse_and_add_content] *)

Definition no_content : str := lit "No content provided for this section.".

(** The value stored under [str(i)] by the first loop. *)
Definition section_text (content : str) (i : nat) : str :=
  let section_title := get_default_section_title (str_of_nat i) in
  match re_search (strict_pattern i section_title) content with
  | Some m => str_of_nat i ++ lit ". " ++ section_title ++ group 1 m
  | None =>
      match re_search (simple_pattern i) content with
      | Some m => group 0 m
      | None => str_of_nat i ++ lit ". " ++ section_title ++ [NL; NL] ++ no_content
      end
  end.

(** The first loop: [for i in range(1, 17)]. *)
Definition parse_sections (content : str) : dict str :=
  fold_left (fun sections i => dict_set sections (str_of_nat i) (section_text content i))
            (range 1 17) [].

(** The title shown for a section: group 1 of the title pattern, else the
    default title. *)
Definition section_heading (section_num section_content : str) : str :=
  match re_match (title_pattern section_num) section_content with
  | Some m => group 1 m
  | None => get_default_section_title section_num
  end.

(** The text handed to the formatter: what follows the first line,
    stripped; [None] when there is no second piece or it strips to nothing. *)
Definition section_body (section_content : str) : option str :=
  match split1 [NL] section_content with
  | [_; rest] =>
      match strip rest with
      | [] => None
      | content_text => Some content_text
      end
  | _ => None
  end.

(** One turn of the second loop. *)
Definition add_section (sections : dict str) (st : story) (section_num : str) : story :=
  match dict_get sections section_num with
  | None => st                                      (* KeyError: keys come from [sections] *)
  | Some section_content =>
      let section_title := section_heading section_num section_content in
      let st := st ++ [Paragraph (section_num ++ lit ". " ++ section_title) heading_style] in
      let st :=
        match section_body section_content with
        | Some content_text => add_content_with_formatting content_text st
        | None => st
        end in
      st ++ [Spacer 1 2]
  end.

Definition parse_and_add_content (content : str) (st : story) : story :=
  let sections := parse_sections content in
  fold_left (add_section sections) (sorted_by_int (dict_keys sections)) st.

(** *** [extract_sections] *)

Definition sec_head (num title_part : string) : regex :=
  Seq (Chars (lit num))
  (Seq (Chars (lit "."))
  (Seq (Plus true is_space)
       (Chars (lit title_part)))).

(** [(.*?)(?=N\.\s+Word|$)] *)
Definition sec_tail (num word : string) : regex :=
  Seq (Grp 1 (Star false dot_all))
      (Ahead (Alt (Seq (Chars (lit num))
                  (Seq (Chars (lit "."))
                  (Seq (Plus true is_space) (Chars (lit word)))))
                  Eol)).

Definition section_patterns : list (regex * str) :=
  [ (Seq (sec_head "1" "Introduction") (sec_tail "2" "Goals"), lit "1");
    (Seq (sec_head "2" "Goals and Objectives") (sec_tail "3" "User"), lit "2");
    (Seq (sec_head "3" "User Personas and Roles") (sec_tail "4" "Functional"), lit "3");
    (Seq (sec_head "4" "Functional Requirements") (sec_tail "5" "Non-Functional"), lit "4");
    (Seq (sec_head "5" "Non-Functional Requirements") (sec_tail "6" "User Interface"), lit "5");
    (Seq (sec_head "6" "User Interface")
         (Seq (Star false dot_all)
         (Seq (Chars (lit "Considerations")) (sec_tail "7" "Data"))), lit "6");
    (Seq (sec_head "7" "Data Requirements") (sec_tail "8" "System"), lit "7");
    (Seq (sec_head "8" "System Architecture") (sec_tail "9" "Release"), lit "8");
    (Seq (sec_head "9" "Release Criteria") (sec_tail "10" "Timeline"), lit "9");
    (Seq (sec_head "10" "Timeline") (sec_tail "11" "Team"), lit "10");
    (Seq (sec_head "11" "Team Structure") (sec_tail "12" "User Stories"), lit "11");
    (Seq (sec_head "12" "User Stories") (sec_tail "13" "Cost"), lit "12");
    (Seq (sec_head "13" "Cost Estimation") (sec_tail "14" "Open"), lit "13");
    (Seq (sec_head "14" "Open Issues") (sec_tail "15" "Appendix"), lit "14");
    (Seq (sec_head "15" "Appendix") (sec_tail "16" "Points"), lit "15");
    (Seq (sec_head "16" "Points Requiring")
         (Seq (Grp 1 (Star false dot_all)) Eol), lit "16") ].

Definition extract_sections (content : str) : dict str :=
  fold_left
    (fun sections ps =>
       let '(pattern, section_num) := ps in
       match re_search pattern content with
       | Some m => dict_set sections section_num (group 0 m)
       | None =>
           dict_set sections section_num
                    (section_num ++ lit ". " ++ get_default_section_title section_num)
       end)
    section_patterns [].

(** *** [extract_subsections] *)

(** [r'(\d+)\.(\d+)\s+(.*?)(?=\d+\.\d+|\Z)'], under [re.DOTALL] *)
Definition subsection_pattern : regex :=
  Seq (Grp 1 (Plus true is_digit))
  (Seq (Chars (lit "."))
  (Seq (Grp 2 (Plus true is_digit))
  (Seq (Plus true is_space)
  (Seq (Grp 3 (Star false dot_all))
       (Ahead (Alt (Seq (Plus true is_digit)
                   (Seq (Chars (lit ".")) (Plus true is_digit)))
                   EndZ)))))).

Definition extract_subsections (section_content : str) : dict str :=
  fold_left
    (fun subsections m =>
       let subsection_num := group 2 m in
       let subsection_content := group 0 m in
       dict_set subsections subsection_num subsection_content)
    (re_finditer subsection_pattern section_content) [].

(** *** [get_section_title], [get_subsection_title], [clean_section_content],
    [clean_subsection_content] *)

(** [r'\d+\.\s+'] *)
Definition section_marker : regex :=
  Seq (Plus true is_digit) (Seq (Chars (lit ".")) (Plus true is_space)).

(** [r'\d+\.\d+\s+'] *)
Definition subsection_marker : regex :=
  Seq (Plus true is_digit)
  (Seq (Chars (lit "."))
  (Seq (Plus true is_digit) (Plus true is_space))).

(** [(.*?)(?=\n|\Z)], no flags *)
Definition rest_of_line : regex :=
  Seq (Grp 1 (Star false dot)) (Ahead (Alt (Chars [NL]) EndZ)).

(** The tail [.*?\n] and a greedy group 1 of any characters, under
    [re.DOTALL] *)
Definition after_first_line : regex :=
  Seq (Star false dot_all) (Seq (Chars [NL]) (Grp 1 (Star true dot_all))).

(** [r'\d+\.\s+(.*?)(?=\n|\Z)'] *)
Definition section_title_re : regex := Seq section_marker rest_of_line.

(** [r'\d+\.\d+\s+(.*?)(?=\n|\Z)'] *)
Definition subsection_title_re : regex := Seq subsection_marker rest_of_line.

(** [r'\d+\.\s+.*?\n] and the greedy group 1, under [re.DOTALL] *)
Definition section_clean_re : regex := Seq section_marker after_first_line.

(** [r'\d+\.\d+\s+.*?\n] and the greedy group 1, under [re.DOTALL] *)
Definition subsection_clean_re : regex := Seq subsection_marker after_first_line.

Definition get_section_title (section_num content : str) : str :=
  match re_search section_title_re content with
  | Some m => strip (group 1 m)
  | None => get_default_section_title section_num
  end.

Definition get_subsection_title (subsection_num content : str) : str :=
  match re_search subsection_title_re content with
  | Some m => strip (group 1 m)
  | None => lit "Subsection " ++ subsection_num
  end.

(** The fallback of the two cleaning methods: everything after the first
    line, stripped. *)
Definition after_first_newline (content : str) : str :=
  match split1 [NL] content with
  | [_; rest] => strip rest
  | _ => []
  end.

Definition clean_section_content (content : str) : str :=
  match re_search section_clean_re content with
  | Some m => strip (group 1 m)
  | None => after_first_newline content
  end.

Definition clean_subsection_content (content : str) : str :=
  match re_search subsection_clean_re content with
  | Some m => strip (group 1 m)
  | None => after_first_newline content
  end.

(** *** [generate]

    The story as it stands when it is handed to [self.doc.build]. *)
Definition generate (date_str content : str) : story :=
  let st : story := [] in
  let project_name := extract_project_name content in
  let st := create_cover_page date_str project_name st in
  let st := create_table_of_contents st in
  let st := st ++ [PageBreak] in
  parse_and_add_content content st.

(** * Vocabulary of the properties *)

(** Assigning the entries of a list in turn, as a loop does. *)
Definition dict_assign {V} (d : dict V) (kvs : list (str * V)) : dict V :=
  fold_left (fun d kv => dict_set d (fst kv) (snd kv)) kvs d.

(** ** Title extraction *)


(** ** Rows of the requirements table *)

(** The cells of a line: split on the bar, each piece trimmed. *)
Definition cells (line : str) : list str :=
  map strip (split (lit "|") (strip line)).

(** A data row: trimmed, the line starts with FR, has a bar, and has at
    least four cells. *)
Definition is_data_row (line : str) : bool :=
  startswith (lit "FR") (strip line) && contains (lit "|") (strip line)
  && (4 <=? length (cells line)).

Definition data_rows (content : str) : list (list str) :=
  map (fun line => firstn 4 (cells line))
      (filter is_data_row (split [NL] content)).

(** ** Sample texts for subsections *)

Definition two_minor_ones : str :=
  lit "1.1 Purpose" ++ [NL] ++ lit "2.1 Other".

(** ** Lines, bullets and runs *)

(** A line that the loop treats as a bullet: trimmed, it starts with a
    marker.  No whitespace is asked for after the marker. *)
Definition is_bullet_line (line : str) : bool :=
  startswith (lit "-") line || startswith (lit "*") line.

(** The text of a bullet item: the marker dropped, the rest trimmed. *)
Definition bullet_text (line : str) : str := strip (tl line).

Definition nonblank (line : str) : bool :=
  match line with [] => false | _ => true end.

(** The lines the loop acts on: each line trimmed, blank ones left out. *)
Definition body_lines (content : str) : list str :=
  filter nonblank (map strip (split [NL] content)).

(** A trimmed line that begins with a marker followed by whitespace. *)
Definition bullet_marked (line : str) : bool :=
  match line with
  | m :: c :: _ => is_marker m && is_space c
  | _ => false
  end.

(** The blocks for a list of lines: every line that is not a bullet line
    gives one paragraph, every maximal run of bullet lines gives one list. *)
Inductive runs : list str -> list flowable -> Prop :=
| runs_nil : runs [] []
| runs_paragraph l ls bs :
    is_bullet_line l = false ->
    runs ls bs ->
    runs (l :: ls) (Paragraph l normal_style :: bs)
| runs_bullets its ls bs :
    its <> [] ->
    forallb is_bullet_line its = true ->
    match ls with [] => True | l :: _ => is_bullet_line l = false end ->
    runs ls bs ->
    runs (its ++ ls) (ListFlowable (map bullet_text its) :: bs).

(** The loop body on a trimmed, non-blank line. *)
Definition fmt_step (s : fmt_state) (line : str) : fmt_state :=
  if is_bullet_line line then
    Fmt (f_story s ++ map (fun p => Paragraph p normal_style) (f_paragraphs s))
        (f_items s ++ [bullet_text line]) []
  else
    Fmt (match f_items s with
         | [] => f_story s
         | its => f_story s ++ [ListFlowable its]
         end)
        [] (f_paragraphs s ++ [line]).

(** What is appended after the loop. *)
Definition fmt_finish (s : fmt_state) : story :=
  let st :=
    match f_items s with
    | [] => f_story s
    | its => f_story s ++ [ListFlowable its]
    end in
  match f_paragraphs s with
  | [] => st
  | ps => st ++ map (fun p => Paragraph p normal_style) ps
  end.

Definition mixed_example : str :=
  lit "Intro line" ++ [NL] ++ lit "- item one" ++ [NL]
  ++ lit "- item two" ++ [NL] ++ lit "More text".

Definition mixed_example_blocks : list flowable :=
  [ Paragraph (lit "Intro line") normal_style;
    ListFlowable [lit "item one"; lit "item two"];
    Paragraph (lit "More text") normal_style ].


(** The text up to the first line break. *)
Fixpoint first_line (y : str) : str :=
  match y with
  | [] => []
  | c :: y' => if Ascii.eqb NL c then [] else c :: first_line y'
  end.






(** ** Ordinals, titles, headers and the blocks of a build *)

Definition num (i : nat) : str := str_of_nat i.
Definition title (i : nat) : str := get_default_section_title (num i).
Definition header (i : nat) : str := num i ++ lit ". " ++ title i.

(** The blocks of one section: heading, formatted body, spacer. *)
Definition section_blocks (content : str) (i : nat) : story :=
  let section_content := section_text content i in
  Paragraph (num i ++ lit ". " ++ section_heading (num i) section_content)
            heading_style
  :: match section_body section_content with
     | Some content_text => add_content_with_formatting content_text []
     | None => []
     end
  ++ [Spacer 1 2].

Definition cover_blocks (date_str project_name : str) : story :=
  [ Paragraph (lit "Product Requirements Document:") title_style;
    Paragraph project_name subtitle_style;
    Spacer 1 2;
    Paragraph (lit "Generated on: " ++ date_str) normal_style;
    Spacer 1 10 ].

Definition toc_blocks : story :=
  Paragraph (lit "Table of Contents") subtitle_style
  :: Spacer 1 2
  :: map (fun i => Paragraph (header i) toc_style) (range 1 17).

Definition is_table (b : flowable) : bool :=
  match b with Table _ => true | _ => false end.

Definition fr_section_body : str :=
  lit "ID | Requirement | Priority | Deps" ++ [NL] ++ lit "FR01|Login|High|None".

Definition fr_document : str :=
  lit "4. Functional Requirements" ++ [NL] ++ fr_section_body ++ [NL]
  ++ lit "5. Non-Functional Requirements" ++ [NL] ++ lit "Fast.".

(** ** Markers and boundaries *)

Fixpoint drop_prefix (p s : str) : option str :=
  match p, s with
  | [], _ => Some s
  | a :: p', c :: s' => if Ascii.eqb a c then drop_prefix p' s' else None
  | _ :: _, [] => None
  end.

(** The loose marker of ordinal [n] begins the text: "n.", then a
    whitespace character. *)
Definition marker_at (n : nat) (s : str) : bool :=
  match drop_prefix (num n ++ lit ".") s with
  | Some (c :: _) => is_space c
  | _ => false
  end.

(** Where [$] matches: at the end of the text, or before a last line
    break. *)
Definition text_end (s : str) : bool :=
  match s with
  | [] => true
  | [c] => is_chr NL c
  | _ => false
  end.

(** Where the lazy capture of section [i] stops. *)
Definition boundary (i : nat) (s : str) : bool :=
  marker_at (i + 1) s || text_end s.

Definition early_marker_document : str :=
  lit "1. Introduction" ++ [NL] ++ lit "see 2. x" ++ [NL]
  ++ lit "2. Goals and Objectives" ++ [NL] ++ lit "G".

(** The pattern of section 16 in [extract_sections]. *)
Definition last_section_pattern : regex :=
  Seq (sec_head "16" "Points Requiring") (Seq (Grp 1 (Star false dot_all)) Eol).

Definition marker_17_document : str :=
  lit "16. Points Requiring Further Clarification" ++ [NL] ++ lit "see 17. x".

Definition final_newline_document : str :=
  lit "16. Points Requiring Further Clarification" ++ [NL] ++ lit "body" ++ [NL].

(** The loose marker of ordinal [n] begins nowhere in the text. *)
Fixpoint no_marker_in (n : nat) (s : str) : bool :=
  negb (marker_at n s) &&
  match s with
  | [] => true
  | _ :: s' => no_marker_in n s'
  end.

Definition plain_last_document : str :=
  lit "16. Points Requiring Further Clarification" ++ [NL] ++ lit "body".

(** ** Documents with the sixteen headers *)

(** A stray marker: a digit, a period and a whitespace character in a row. *)
Definition dds (x : str) : bool :=
  match x with
  | d :: dot :: c :: _ => is_digit d && is_chr "."%char dot && is_space c
  | _ => false
  end.

Fixpoint has_dds (s : str) : bool :=
  dds s ||
  match s with
  | [] => false
  | _ :: s' => has_dds s'
  end.

(** The sections [j], [j+1], ... ([n] of them): each header followed by
    its body. *)
Fixpoint sections_from (body : nat -> str) (j n : nat) : str :=
  match n with
  | O => []
  | S n' => header j ++ body j ++ sections_from body (S j) n'
  end.

(** A text with the sixteen headers in order: a preamble, then the
    sections. *)
Definition document (p : str) (body : nat -> str) : str :=
  p ++ sections_from body 1 16.

(** Two strings that differ at a place both of them have. *)
Fixpoint clash (a b : str) : bool :=
  match a, b with
  | x :: a', y :: b' => negb (Ascii.eqb x y) || clash a' b'
  | _, _ => false
  end.

Definition nonempty_opt (s : str) : option str :=
  match s with
  | [] => None
  | _ => Some s
  end.

Definition title_ok (i : nat) : bool :=
  match title i with t0 :: _ => negb (is_space t0) | [] => false end
  && forallb dot (title i)
  && forallb (fun c => negb (is_digit c)) (lit ". " ++ title i).

Definition num_ok (i : nat) : bool :=
  match num i with [] => false | _ => true end
  && forallb is_digit (num i).

(** The text begins like a match of the strict pattern of ordinal [i]. *)
Definition starts_header (i : nat) (a : str) : Prop :=
  exists ws tail,
    a = num i ++ lit "." ++ ws ++ title i ++ tail
    /\ ws <> [] /\ forallb is_space ws = true.

Definition same_line_bodies (j : nat) : str :=
  if j =? 1 then lit " overview" ++ [NL] ++ lit "Text" ++ [NL] else [NL].

Definition sample_preamble : str :=
  lit "Product Requirements Document: Acme Portal" ++ [NL].

Definition sample_bodies (j : nat) : str :=
  if j =? 4
  then [NL] ++ lit "FR01|Login|High|None" ++ [NL] ++ [NL]
  else [NL] ++ lit "Some text. More text." ++ [NL].

(** ** Vocabulary of the further properties *)

(** [c'] is a position of the same text as [c], at or after it. *)
Definition later (c c' : cursor) : Prop :=
  exists u, after c = u ++ after c' /\ before c' = rev u ++ before c.

Fixpoint no_groups (r : regex) : bool :=
  match r with
  | Grp _ _ => false
  | Seq r1 r2 | Alt r1 r2 => no_groups r1 && no_groups r2
  | Ahead r1 => no_groups r1
  | _ => true
  end.

(** Where a title can end: at the end of the text or before a line break. *)
Definition line_end (a : str) : bool :=
  match a with
  | [] => true
  | c :: _ => is_chr NL c
  end.

(** The two lookaheads of the source that end a title: [(?=\n|$)] and
    [(?=\n|\Z)]. *)
Definition ends_line (X : regex) : Prop :=
  forall b a g,
    exec (Ahead X) accept (Cur b a) g =
    if line_end a then Some (Cur b a, g) else None.

(** A block the formatter can append: a paragraph in the normal style
    whose text is not empty and is trimmed, or a list that is not empty and
    whose items are trimmed. *)
Definition formatted_block (b : flowable) : Prop :=
  match b with
  | Paragraph t st => st = normal_style /\ t <> [] /\ strip t = t
  | ListFlowable its => its <> [] /\ Forall (fun t => strip t = t) its
  | _ => False
  end.

Definition is_heading (b : flowable) : bool :=
  match b with
  | Paragraph _ heading_style => true
  | _ => false
  end.

Definition is_page_break (b : flowable) : bool :=
  match b with
  | PageBreak => true
  | _ => false
  end.

(** The text stored for one entry of [section_patterns]. *)
Definition extracted_section (content : str) (ps : regex * str) : str * str :=
  (snd ps,
   match re_search (fst ps) content with
   | Some m => group 0 m
   | None => snd ps ++ lit ". " ++ get_default_section_title (snd ps)
   end).

(** A pattern that must begin with a digit. *)
Definition digit_first (r : regex) : Prop :=
  forall (K : cont) (b a : str) (g : groups),
    match a with [] => True | c :: _ => is_digit c = false end ->
    exec r K (Cur b a) g = None.

Definition is_toc_line (b : flowable) : bool :=
  match b with
  | Paragraph _ toc_style => true
  | _ => false
  end.

(** * Properties *)

(** ** Running the model on a small input *)

Example title_acme :
  extract_project_name (lit "Product Requirements Document: Acme Portal
1. Introduction") = lit "Acme Portal".
Proof. vm_compute. reflexivity. Qed.

Ltac splits := repeat match goal with |- _ /\ _ => split end.

Ltac no_split Hu Hne :=
  let u1 := fresh "u1" in let u2 := fresh "u2" in
  intros u1 u2 Hu Hne; symmetry in Hu;
  apply app_eq_nil in Hu as [_ ->]; contradiction.

(** ** Strings *)

Lemma startswith_app (p s : str) : startswith p (p ++ s) = true.
Proof.
  induction p as [|a p IH]; simpl; [reflexivity|].
  now rewrite Ascii.eqb_refl, IH.
Qed.

Lemma startswith_inv (p s : str) :
  startswith p s = true -> exists t, s = p ++ t.
Proof.
  revert s; induction p as [|a p IH]; intros s H; simpl in *.
  - now exists s.
  - destruct s as [|c s]; [discriminate|].
    apply andb_prop in H as [Hc Hp].
    apply Ascii.eqb_eq in Hc; subst c.
    destruct (IH _ Hp) as [t ->]. now exists t.
Qed.

(** [contains p s] is Python's [p in s]: some suffix of [s] starts with [p]. *)
Lemma contains_false_app (p u v : str) :
  contains p (u ++ v) = false -> startswith p v = false.
Proof.
  induction u as [|c u IH]; simpl; intros H.
  - destruct v; simpl in H; apply orb_false_elim in H; tauto.
  - apply orb_false_elim in H as [_ H]. now apply IH.
Qed.




Lemma lstrip_nonspace (c : ascii) (s : str) :
  is_space c = false -> lstrip (c :: s) = c :: s.
Proof. intros H; simpl; now rewrite H. Qed.

Lemma between_app (b b' u v : str) : between (Cur b (u ++ v)) (Cur b' v) = u.
Proof.
  unfold between; simpl. rewrite length_app.
  replace (length u + length v - length v) with (length u) by lia.
  now rewrite firstn_app, Nat.sub_diag, firstn_all, app_nil_r.
Qed.

(** ** The matcher *)

Lemma eat_app (s b a : str) : eat s b (s ++ a) = Some (Cur (rev s ++ b) a).
Proof.
  revert b; induction s as [|x s IH]; intros b; simpl; [reflexivity|].
  rewrite Ascii.eqb_refl, IH. now rewrite <- app_assoc.
Qed.

Lemma eat_startswith (s b a : str) :
  startswith s a = false -> eat s b a = None.
Proof.
  revert b a; induction s as [|x s IH]; intros b a H; simpl in *; [discriminate|].
  destruct a as [|y a]; [reflexivity|].
  destruct (Ascii.eqb x y); [|reflexivity]. now apply IH.
Qed.

Lemma eat_some (s b a : str) (c : cursor) :
  eat s b a = Some c -> a = s ++ after c /\ before c = rev s ++ b.
Proof.
  revert b a; induction s as [|x s IH]; intros b a H; simpl in *.
  - injection H as <-. now split.
  - destruct a as [|y a]; [discriminate|].
    destruct (Ascii.eqb x y) eqn:E; [|discriminate].
    apply Ascii.eqb_eq in E; subst y.
    destruct (IH _ _ H) as [-> ->]. split; [reflexivity|].
    now rewrite <- app_assoc.
Qed.

(** A greedy star over a full run of class characters, when the continuation
    succeeds right after the run. *)
Lemma star_greedy_run (p : ascii -> bool) (k : cont) (u v b : str) (g : groups) r :
  forallb p u = true ->
  k (Cur (rev u ++ b) v) g = Some r ->
  match v with [] => True | x :: _ => p x = false end ->
  star_greedy p k b (u ++ v) g = Some r.
Proof.
  revert b; induction u as [|x u IH]; intros b Hu Hk Hv; simpl in *.
  - destruct v as [|y v]; simpl; [exact Hk|]. now rewrite Hv.
  - apply andb_prop in Hu as [Hx Hu]. rewrite Hx.
    rewrite (IH (x :: b)); auto. now rewrite <- app_assoc in Hk.
Qed.

(** A greedy star whose continuation fails wherever a class character is
    next can only stop at the end of the run. *)
Lemma star_greedy_stop (p : ascii -> bool) (k : cont) (u v b : str) (g : groups) :
  forallb p u = true ->
  match v with [] => True | x :: _ => p x = false end ->
  (forall b' x a' g', p x = true -> k (Cur b' (x :: a')) g' = None) ->
  star_greedy p k b (u ++ v) g = k (Cur (rev u ++ b) v) g.
Proof.
  revert b; induction u as [|x u IH]; intros b Hu Hv Hk; simpl in *.
  - destruct v as [|y v]; simpl; [reflexivity|]. now rewrite Hv.
  - apply andb_prop in Hu as [Hx Hu]. rewrite Hx.
    rewrite (IH (x :: b)); auto. rewrite <- app_assoc; simpl.
    destruct (k (Cur (rev u ++ x :: b) v) g) eqn:E; [reflexivity|].
    now apply Hk.
Qed.

(** A lazy star stops at the first split its continuation accepts. *)
Lemma star_lazy_first (p : ascii -> bool) (k : cont) (u v b : str) (g : groups) r :
  forallb p u = true ->
  k (Cur (rev u ++ b) v) g = Some r ->
  (forall u1 u2, u = u1 ++ u2 -> u2 <> [] -> k (Cur (rev u1 ++ b) (u2 ++ v)) g = None) ->
  star_lazy p k b (u ++ v) g = Some r.
Proof.
  revert b; induction u as [|x u IH]; intros b Hu Hk Hmin; simpl in *.
  - destruct v; simpl; now rewrite Hk.
  - apply andb_prop in Hu as [Hx Hu].
    pose proof (Hmin [] (x :: u) eq_refl ltac:(discriminate)) as H0.
    simpl in H0. rewrite H0, Hx.
    apply IH; auto.
    + now rewrite <- app_assoc in Hk.
    + intros u1 u2 -> Hne.
      specialize (Hmin (x :: u1) u2 eq_refl Hne). simpl in Hmin.
      now rewrite <- app_assoc in Hmin.
Qed.

(** Conversely, what a lazy star returns comes from such a first split. *)
Lemma star_lazy_inv (p : ascii -> bool) (k : cont) (a b : str) (g : groups) r :
  star_lazy p k b a g = Some r ->
  exists u v, a = u ++ v /\ forallb p u = true /\
    k (Cur (rev u ++ b) v) g = Some r /\
    (forall u1 u2, u = u1 ++ u2 -> u2 <> [] ->
       k (Cur (rev u1 ++ b) (u2 ++ v)) g = None).
Proof.
  revert b; induction a as [|x a IH]; intros b H; simpl in H.
  - destruct (k (Cur b []) g) eqn:E; [|discriminate].
    exists [], []. splits; simpl; auto; try congruence.
    no_split Hu Hne.
  - destruct (k (Cur b (x :: a)) g) eqn:E.
    + exists [], (x :: a). splits; simpl; auto; try congruence.
      no_split Hu Hne.
    + destruct (p x) eqn:Hx; [|discriminate].
      destruct (IH _ H) as (u & v & -> & Hu & Hk & Hmin).
      exists (x :: u), v. simpl. rewrite Hx, <- app_assoc. splits; auto.
      intros u1 u2 Hsplit Hne.
      destruct u1 as [|y u1]; simpl in *.
      * subst u2. exact E.
      * injection Hsplit as <- ->. rewrite <- app_assoc. now apply Hmin.
Qed.

(** [re.search] passes over the positions at which the pattern does not
    match. *)
Lemma search_from_skip (r : regex) (u v b : str) :
  (forall u1 u2, u = u1 ++ u2 -> u2 <> [] ->
     match_at r (Cur (rev u1 ++ b) (u2 ++ v)) = None) ->
  search_from r b (u ++ v) = search_from r (rev u ++ b) v.
Proof.
  revert b; induction u as [|x u IH]; intros b H; simpl; [reflexivity|].
  pose proof (H [] (x :: u) eq_refl ltac:(discriminate)) as H0.
  simpl in H0. rewrite H0.
  rewrite IH; [now rewrite <- app_assoc|].
  intros u1 u2 -> Hne. specialize (H (x :: u1) u2 eq_refl Hne).
  simpl in H. now rewrite <- app_assoc in H.
Qed.

Lemma search_from_here (r : regex) (b a : str) m :
  match_at r (Cur b a) = Some m -> search_from r b a = Some m.
Proof. intros H. destruct a; simpl; now rewrite H. Qed.

Lemma search_from_none (r : regex) (a b : str) :
  (forall u v, a = u ++ v -> match_at r (Cur (rev u ++ b) v) = None) ->
  search_from r b a = None.
Proof.
  revert b; induction a as [|x a IH]; intros b H; simpl.
  - pose proof (H [] [] eq_refl) as H0. simpl in H0. now rewrite H0.
  - pose proof (H [] (x :: a) eq_refl) as H0. simpl in H0. rewrite H0. apply IH.
    intros u v ->. specialize (H (x :: u) v eq_refl). simpl in H.
    now rewrite <- app_assoc in H.
Qed.

(** A successful search comes from a match at some position, with no match
    at any earlier one. *)
Lemma search_from_inv (r : regex) (a b : str) m :
  search_from r b a = Some m ->
  exists u v, a = u ++ v /\ match_at r (Cur (rev u ++ b) v) = Some m /\
    (forall u1 u2, u = u1 ++ u2 -> u2 <> [] ->
       match_at r (Cur (rev u1 ++ b) (u2 ++ v)) = None).
Proof.
  revert b; induction a as [|x a IH]; intros b H; simpl in H.
  - destruct (match_at r (Cur b [])) eqn:E; [|discriminate].
    exists [], []. splits; simpl; auto; try congruence.
    no_split Hu Hne.
  - destruct (match_at r (Cur b (x :: a))) eqn:E.
    + exists [], (x :: a). splits; simpl; auto; try congruence.
      no_split Hu Hne.
    + destruct (IH _ H) as (u & v & -> & Hm & Hmin).
      exists (x :: u), v. simpl. rewrite <- app_assoc. splits; auto.
      intros u1 u2 Hsplit Hne.
      destruct u1 as [|y u1]; simpl in *.
      * subst u2. exact E.
      * injection Hsplit as <- ->. rewrite <- app_assoc. now apply Hmin.
Qed.

Lemma exec_chars_app (s : str) (k : cont) (b a : str) (g : groups) :
  exec (Chars s) k (Cur b (s ++ a)) g = k (Cur (rev s ++ b) a) g.
Proof. simpl. now rewrite eat_app. Qed.

Lemma exec_chars_fail (s : str) (k : cont) (b a : str) (g : groups) :
  startswith s a = false -> exec (Chars s) k (Cur b a) g = None.
Proof. intros H. simpl. now rewrite eat_startswith. Qed.

Lemma exec_cls_ok (p : ascii -> bool) (k : cont) (b a : str) (x : ascii) (g : groups) :
  p x = true -> exec (Cls p) k (Cur b (x :: a)) g = k (Cur (x :: b) a) g.
Proof. intros H. simpl. now rewrite H. Qed.

Lemma exec_seq (r1 r2 : regex) (k : cont) (c : cursor) (g : groups) :
  exec (Seq r1 r2) k c g = exec r1 (exec r2 k) c g.
Proof. reflexivity. Qed.

Lemma exec_plus (gr : bool) (p : ascii -> bool) (k : cont) (c : cursor) (g : groups) :
  exec (Plus gr p) k c g = exec (Cls p) (exec (Star gr p) k) c g.
Proof. reflexivity. Qed.


Lemma exec_alt (r1 r2 : regex) (k : cont) (c : cursor) (g : groups) :
  exec (Alt r1 r2) k c g =
  match exec r1 k c g with Some res => Some res | None => exec r2 k c g end.
Proof. reflexivity. Qed.

Lemma exec_grp (n : nat) (r : regex) (k : cont) (c : cursor) (g : groups) :
  exec (Grp n r) k c g = exec r (fun c' g' => k c' ((n, between c c') :: g')) c g.
Proof. reflexivity. Qed.

Lemma exec_star (gr : bool) (p : ascii -> bool) (k : cont) (b a : str) (g : groups) :
  exec (Star gr p) k (Cur b a) g =
  if gr then star_greedy p k b a g else star_lazy p k b a g.
Proof. reflexivity. Qed.

Lemma exec_chars (s : str) (k : cont) (c : cursor) (g : groups) :
  exec (Chars s) k c g =
  match eat s (before c) (after c) with Some c' => k c' g | None => None end.
Proof. reflexivity. Qed.

Lemma exec_bol (k : cont) (c : cursor) (g : groups) :
  exec Bol k c g = if at_bol c then k c g else None.
Proof. reflexivity. Qed.

Lemma exec_eol (k : cont) (c : cursor) (g : groups) :
  exec Eol k c g = if at_eol c then k c g else None.
Proof. reflexivity. Qed.

Lemma exec_ahead (r : regex) (k : cont) (c : cursor) (g : groups) :
  exec (Ahead r) k c g =
  match exec r accept c g with Some (_, g') => k c g' | None => None end.
Proof. reflexivity. Qed.



(** ** Title extraction *)







(** ** The functional-requirements table *)

Lemma table_line_spec (rows : list (list str)) (line : str) :
  table_line rows line =
  rows ++ (if is_data_row line then [firstn 4 (cells line)] else []).
Proof.
  unfold table_line, is_data_row, cells.
  destruct (startswith (lit "FR") (strip line) && contains (lit "|") (strip line)).
  - cbn [andb]. destruct (4 <=? _); [reflexivity|now rewrite app_nil_r].
  - cbn [andb]. rewrite app_nil_r.
    now destruct (startswith (lit "ID") (strip line) && contains (lit "|") (strip line)).
Qed.

Lemma table_fold_spec (lines : list str) (rows : list (list str)) :
  fold_left table_line lines rows =
  rows ++ map (fun line => firstn 4 (cells line)) (filter is_data_row lines).
Proof.
  revert rows; induction lines as [|l lines IH]; intros rows; simpl.
  - now rewrite app_nil_r.
  - rewrite IH, table_line_spec.
    destruct (is_data_row l); simpl; [now rewrite <- app_assoc|].
    now rewrite app_nil_r.
Qed.

Lemma startswith_FR_not_ID (s : str) :
  startswith (lit "ID") s = true -> startswith (lit "FR") s = false.
Proof.
  intros H. destruct s as [|c s]; [discriminate|].
  change (lit "ID") with ("I"%char :: lit "D") in H.
  change (lit "FR") with ("F"%char :: lit "R").
  cbn [startswith] in *. apply andb_prop in H as [H _].
  apply Ascii.eqb_eq in H; subst c. reflexivity.
Qed.

(** C7: the routine appends one table; its row 0 is the header; the data
    rows are, in line order, the first four cells of exactly the lines that
    pass [is_data_row]; a trimmed line starting with ID adds nothing; the
    placeholder row is appended exactly when there is no data row. *)
Theorem add_functional_requirements_table_spec (content : str) (st : story) :
  add_functional_requirements_table content st = st ++ [Table (table_rows content)]
  /\ table_rows content =
       header_row :: match data_rows content with
                     | [] => [placeholder_row]
                     | rows => rows
                     end
  /\ nth_error (table_rows content) 0 = Some header_row
  /\ (forall rows line,
        startswith (lit "ID") (strip line) = true -> table_line rows line = rows).
Proof.
  assert (E : table_rows content =
              header_row :: match data_rows content with
                            | [] => [placeholder_row]
                            | rows => rows
                            end).
  { unfold table_rows. rewrite table_fold_spec. fold (data_rows content).
    destruct (data_rows content) as [|r rs]; reflexivity. }
  splits.
  - reflexivity.
  - exact E.
  - now rewrite E.
  - intros rows line H. rewrite table_line_spec. unfold is_data_row.
    rewrite (startswith_FR_not_ID _ H). cbn [andb]. apply app_nil_r.
Qed.

(** C7 on the two examples of the specification. *)
Lemma add_functional_requirements_table_spec_witness :
  table_line [header_row] (lit "ID | Requirement | Priority | Deps") = [header_row]
  /\ table_rows (lit "ID | Requirement | Priority | Deps" ++ [NL]
                 ++ lit "FR01|Login|High|None" ++ [NL]
                 ++ lit "FR02|Logout|Low|FR01")
     = [ header_row;
         [lit "FR01"; lit "Login"; lit "High"; lit "None"];
         [lit "FR02"; lit "Logout"; lit "Low"; lit "FR01"] ]
  /\ table_rows (lit "No rows here") = [header_row; placeholder_row].
Proof.
  splits.
  - apply (add_functional_requirements_table_spec [] []). vm_compute. reflexivity.
  - vm_compute. reflexivity.
  - vm_compute. reflexivity.
Defined.

(** ** Dictionaries *)

Lemma str_eqb_eq (a b : str) : str_eqb a b = true <-> a = b.
Proof.
  revert b; induction a as [|x a IH]; intros [|y b]; simpl; split; intros H;
    try discriminate; try reflexivity.
  - apply andb_prop in H as [Hx Ha]. apply Ascii.eqb_eq in Hx. apply IH in Ha.
    now subst.
  - injection H as -> ->. rewrite Ascii.eqb_refl. now apply IH.
Qed.

Lemma str_eqb_refl (a : str) : str_eqb a a = true.
Proof. now apply str_eqb_eq. Qed.

Lemma str_eqb_neq (a b : str) : str_eqb a b = false <-> a <> b.
Proof.
  split; intros H.
  - intros ->. now rewrite str_eqb_refl in H.
  - destruct (str_eqb a b) eqn:E; [|reflexivity].
    apply str_eqb_eq in E. contradiction.
Qed.

Lemma find_append {A} (f : A -> bool) (l1 l2 : list A) :
  find f (l1 ++ l2) = match find f l1 with Some x => Some x | None => find f l2 end.
Proof.
  induction l1 as [|x l1 IH]; simpl; [reflexivity|].
  now destruct (f x).
Qed.

Section Dict.
Variable V : Type.
Implicit Types (d : dict V) (k : str) (v : V).

Lemma dict_get_set d k v k' :
  dict_get (dict_set d k v) k' =
  if str_eqb k k' then Some v else dict_get d k'.
Proof.
  induction d as [|[k0 v0] d IH]; simpl.
  - reflexivity.
  - destruct (str_eqb k0 k) eqn:E0; simpl.
    + apply str_eqb_eq in E0; subst k0. now destruct (str_eqb k k').
    + rewrite IH. destruct (str_eqb k0 k') eqn:E1; [|reflexivity].
      apply str_eqb_eq in E1; subst k0.
      destruct (str_eqb k k') eqn:E2; [|reflexivity].
      apply str_eqb_eq in E2; subst k'. now rewrite str_eqb_refl in E0.
Qed.

Lemma dict_keys_set_in d k v :
  In k (dict_keys d) -> dict_keys (dict_set d k v) = dict_keys d.
Proof.
  induction d as [|[k0 v0] d IH]; simpl; [tauto|].
  intros H. destruct (str_eqb k0 k) eqn:E; simpl; [reflexivity|].
  apply str_eqb_neq in E. destruct H as [H|H]; [contradiction|].
  now rewrite IH.
Qed.

Lemma dict_keys_set_new d k v :
  ~ In k (dict_keys d) -> dict_keys (dict_set d k v) = dict_keys d ++ [k].
Proof.
  induction d as [|[k0 v0] d IH]; simpl; [reflexivity|].
  intros H. destruct (str_eqb k0 k) eqn:E; simpl.
  - apply str_eqb_eq in E. tauto.
  - rewrite IH; tauto.
Qed.

Lemma in_keys_dec d k : {In k (dict_keys d)} + {~ In k (dict_keys d)}.
Proof. apply in_dec. apply list_eq_dec, ascii_dec. Qed.

Lemma dict_set_NoDup d k v :
  NoDup (dict_keys d) -> NoDup (dict_keys (dict_set d k v)).
Proof.
  intros H. destruct (in_keys_dec d k) as [Hin|Hout].
  - now rewrite dict_keys_set_in.
  - rewrite dict_keys_set_new by assumption.
    apply NoDup_app; [exact H | constructor; [tauto|constructor] |].
    intros x Hx [<-|[]]. contradiction.
Qed.

Lemma dict_set_keeps d k v k' :
  In k' (dict_keys d) -> In k' (dict_keys (dict_set d k v)).
Proof.
  intros H. destruct (in_keys_dec d k) as [Hin|Hout].
  - now rewrite dict_keys_set_in.
  - rewrite dict_keys_set_new by assumption. apply in_or_app. now left.
Qed.

Lemma dict_set_has d k v : In k (dict_keys (dict_set d k v)).
Proof.
  destruct (in_keys_dec d k) as [Hin|Hout].
  - now rewrite dict_keys_set_in.
  - rewrite dict_keys_set_new by assumption. apply in_or_app. right. now left.
Qed.

Lemma dict_set_length d k v :
  length (dict_set d k v) =
  if in_keys_dec d k then length d else S (length d).
Proof.
  rewrite <- (length_map fst (dict_set d k v)). fold (dict_keys (dict_set d k v)).
  destruct (in_keys_dec d k) as [Hin|Hout].
  - rewrite dict_keys_set_in by assumption. apply length_map.
  - rewrite dict_keys_set_new by assumption.
    rewrite length_app. unfold dict_keys. rewrite length_map. simpl. lia.
Qed.

Lemma dict_assign_NoDup kvs d :
  NoDup (dict_keys d) -> NoDup (dict_keys (dict_assign d kvs)).
Proof.
  revert d; induction kvs as [|[k v] kvs IH]; intros d H; simpl; [exact H|].
  apply IH. now apply dict_set_NoDup.
Qed.

Lemma dict_assign_keeps kvs d k :
  In k (dict_keys d) -> In k (dict_keys (dict_assign d kvs)).
Proof.
  revert d; induction kvs as [|[k0 v0] kvs IH]; intros d H; simpl; [exact H|].
  apply IH. now apply dict_set_keeps.
Qed.

Lemma dict_assign_length kvs d :
  length (dict_assign d kvs) <= length d + length kvs.
Proof.
  revert d; induction kvs as [|[k v] kvs IH]; intros d; simpl; [lia|].
  specialize (IH (dict_set d k v)).
  rewrite dict_set_length in IH. destruct (in_keys_dec d k); lia.
Qed.

Lemma dict_assign_app kvs1 kvs2 d :
  dict_assign d (kvs1 ++ kvs2) = dict_assign (dict_assign d kvs1) kvs2.
Proof. apply fold_left_app. Qed.

(** A key assigned twice takes one place only. *)
Lemma dict_assign_repeat l1 l2 l3 k v1 v2 :
  length (dict_assign [] (l1 ++ (k, v1) :: l2 ++ (k, v2) :: l3))
  < length (l1 ++ (k, v1) :: l2 ++ (k, v2) :: l3).
Proof.
  rewrite dict_assign_app. simpl.
  change (fold_left _ (l2 ++ (k, v2) :: l3) ?d) with (dict_assign d (l2 ++ (k, v2) :: l3)).
  rewrite dict_assign_app. simpl.
  change (fold_left _ l3 ?d) with (dict_assign d l3).
  set (d1 := dict_set (dict_assign [] l1) k v1).
  set (d2 := dict_assign d1 l2).
  pose proof (dict_assign_length l3 (dict_set d2 k v2)) as H3.
  rewrite dict_set_length in H3.
  destruct (in_keys_dec d2 k) as [Hin|Hout].
  - pose proof (dict_assign_length l2 d1) as H2. fold d2 in H2.
    unfold d1 in H2. rewrite dict_set_length in H2.
    pose proof (dict_assign_length l1 []) as H1. simpl in H1.
    rewrite !length_app. simpl. rewrite length_app. simpl.
    destruct (in_keys_dec (dict_assign [] l1) k); lia.
  - exfalso. apply Hout. unfold d2. apply dict_assign_keeps.
    unfold d1. apply dict_set_has.
Qed.

(** Looking a key up after a loop of assignments gives the last value
    assigned to it. *)
Lemma dict_assign_get kvs d k :
  dict_get (dict_assign d kvs) k =
  match find (fun kv => str_eqb (fst kv) k) (rev kvs) with
  | Some kv => Some (snd kv)
  | None => dict_get d k
  end.
Proof.
  revert d; induction kvs as [|[k0 v0] kvs IH]; intros d; simpl; [reflexivity|].
  rewrite IH. rewrite find_append.
  destruct (find (fun kv => str_eqb (fst kv) k) (rev kvs)); [reflexivity|].
  simpl. rewrite dict_get_set. now destruct (str_eqb k0 k).
Qed.
End Dict.

(** ** Subsections *)

Lemma extract_subsections_assign (section_content : str) :
  extract_subsections section_content =
  dict_assign [] (map (fun m => (group 2 m, group 0 m))
                      (re_finditer subsection_pattern section_content)).
Proof.
  unfold extract_subsections, dict_assign.
  generalize (@nil (str * str)).
  induction (re_finditer subsection_pattern section_content) as [|m ms IH];
    intros d; simpl; [reflexivity|]. apply IH.
Qed.

(** C10: the result of [extract_subsections] is keyed by the minor ordinal
    (group 2) alone.  No key occurs twice; a lookup gives the whole text of
    the last match with that minor ordinal, whatever its major ordinal; and
    when two matches share a minor ordinal the mapping has fewer entries
    than the text has matches. *)
Theorem extract_subsections_keyed_by_minor (section_content : str) :
  NoDup (dict_keys (extract_subsections section_content))
  /\ length (extract_subsections section_content)
     <= length (re_finditer subsection_pattern section_content)
  /\ (forall k,
        dict_get (extract_subsections section_content) k =
        option_map (group 0)
          (find (fun m => str_eqb (group 2 m) k)
                (rev (re_finditer subsection_pattern section_content))))
  /\ (forall l1 m1 l2 m2 l3,
        re_finditer subsection_pattern section_content = l1 ++ m1 :: l2 ++ m2 :: l3 ->
        group 2 m1 = group 2 m2 ->
        length (extract_subsections section_content)
        < length (re_finditer subsection_pattern section_content)).
Proof.
  rewrite extract_subsections_assign.
  set (ms := re_finditer subsection_pattern section_content).
  splits.
  - apply dict_assign_NoDup. constructor.
  - pose proof (dict_assign_length (map (fun m => (group 2 m, group 0 m)) ms) []) as H.
    rewrite length_map in H. exact H.
  - intros k. rewrite dict_assign_get. rewrite <- map_rev.
    induction (rev ms) as [|m l IH]; [reflexivity|].
    cbn [map find fst]. destruct (str_eqb (group 2 m) k); [reflexivity|exact IH].
  - intros l1 m1 l2 m2 l3 -> Hk.
    rewrite <- (length_map (fun m => (group 2 m, group 0 m))
                  (l1 ++ m1 :: l2 ++ m2 :: l3)).
    rewrite map_app. cbn [map]. rewrite map_app. cbn [map]. rewrite Hk.
    apply dict_assign_repeat.
Qed.

(** C10 on a body with the markers 1.1 and 2.1: two matches, one entry,
    and it holds the text of the later one. *)
Lemma extract_subsections_keyed_by_minor_witness :
  length (extract_subsections two_minor_ones)
  < length (re_finditer subsection_pattern two_minor_ones)
  /\ extract_subsections two_minor_ones = [(lit "1", lit "2.1 Other")].
Proof.
  split.
  - eapply (proj2 (proj2 (proj2 (extract_subsections_keyed_by_minor two_minor_ones)))
              [] _ [] _ []).
    + vm_compute. reflexivity.
    + vm_compute. reflexivity.
  - vm_compute. reflexivity.
Defined.

(** ** The formatter *)

Lemma fmt_line_step (s : fmt_state) (line : str) :
  fmt_line s line = if nonblank (strip line) then fmt_step s (strip line) else s.
Proof.
  unfold fmt_line, fmt_step, is_bullet_line.
  destruct (strip line) as [|c l] eqn:E; [reflexivity|]. cbn [nonblank].
  destruct (startswith (lit "-") (c :: l) || startswith (lit "*") (c :: l)).
  - destruct s as [st its ps]; cbn [f_story f_items f_paragraphs].
    destruct ps; cbn [f_story f_items f_paragraphs map]; [|reflexivity].
    now rewrite app_nil_r.
  - destruct s as [st its ps]; cbn [f_story f_items f_paragraphs].
    destruct its; reflexivity.
Qed.

Lemma fmt_fold_lines (raw : list str) (s : fmt_state) :
  fold_left fmt_line raw s = fold_left fmt_step (filter nonblank (map strip raw)) s.
Proof.
  revert s; induction raw as [|l raw IH]; intros s; [reflexivity|].
  cbn [fold_left map filter]. rewrite fmt_line_step.
  destruct (nonblank (strip l)); cbn [fold_left]; apply IH.
Qed.

Lemma runs_paragraphs (pp ls : list str) (bs : list flowable) :
  forallb (fun l => negb (is_bullet_line l)) pp = true ->
  runs ls bs ->
  runs (pp ++ ls) (map (fun p => Paragraph p normal_style) pp ++ bs).
Proof.
  induction pp as [|p pp IH]; intros Hpp Hr; [exact Hr|].
  cbn [forallb] in Hpp. apply andb_prop in Hpp as [Hp Hpp].
  cbn [app map]. constructor; [now destruct (is_bullet_line p)|now apply IH].
Qed.

(** The loop invariant: with pending bullet lines [pl] or pending paragraph
    lines [pp] (never both), the loop and the final flushes append the
    blocks of a [runs] decomposition of the pending and remaining lines. *)
Lemma fmt_loop_runs (ls pl pp : list str) (st : story) :
  forallb is_bullet_line pl = true ->
  forallb (fun l => negb (is_bullet_line l)) pp = true ->
  pl = [] \/ pp = [] ->
  exists bs,
    fmt_finish (fold_left fmt_step ls (Fmt st (map bullet_text pl) pp)) = st ++ bs
    /\ runs (pl ++ pp ++ ls) bs.
Proof.
  revert pl pp st; induction ls as [|l ls IH]; intros pl pp st Hpl Hpp Hone.
  - cbn [fold_left]. unfold fmt_finish; cbn [f_story f_items f_paragraphs].
    rewrite app_nil_r.
    destruct Hone as [-> | ->].
    + exists (map (fun p => Paragraph p normal_style) pp). cbn [map app]. split.
      * destruct pp; [now rewrite app_nil_r|reflexivity].
      * pose proof (@runs_paragraphs pp [] [] Hpp runs_nil) as Hr.
        now rewrite !app_nil_r in Hr.
    + rewrite app_nil_r. destruct pl as [|p pl].
      * exists []. split; [now rewrite app_nil_r|constructor].
      * exists [ListFlowable (map bullet_text (p :: pl))]. split; [reflexivity|].
        pose proof (@runs_bullets (p :: pl) [] [] ltac:(discriminate) Hpl I runs_nil)
          as Hr.
        now rewrite app_nil_r in Hr.
  - cbn [fold_left]. unfold fmt_step at 2; cbn [f_story f_items f_paragraphs].
    destruct (is_bullet_line l) eqn:El.
    + destruct Hone as [-> | ->].
      * cbn [map app].
        destruct (IH [l] [] (st ++ map (fun p => Paragraph p normal_style) pp))
          as (bs & Hf & Hr); [cbn; now rewrite El| reflexivity | now right |].
        exists (map (fun p => Paragraph p normal_style) pp ++ bs). split.
        -- cbn [map app] in Hf. rewrite Hf. now rewrite app_assoc.
        -- apply runs_paragraphs; [exact Hpp|exact Hr].
      * cbn [map app]. rewrite app_nil_r.
        destruct (IH (pl ++ [l]) [] st) as (bs & Hf & Hr);
          [rewrite forallb_app; cbn; now rewrite Hpl, El | reflexivity | now right |].
        exists bs. split.
        -- rewrite map_app in Hf. exact Hf.
        -- cbn [app] in Hr. now rewrite <- app_assoc in Hr.
    + destruct Hone as [-> | ->].
      * cbn [map app].
        destruct (IH [] (pp ++ [l]) st) as (bs & Hf & Hr);
          [reflexivity | rewrite forallb_app; cbn; now rewrite Hpp, El | now left |].
        exists bs. split; [exact Hf|].
        cbn [app] in Hr. now rewrite <- app_assoc in Hr.
      * cbn [app]. destruct pl as [|p pl].
        -- cbn [map].
           destruct (IH [] [l] st) as (bs & Hf & Hr);
             [reflexivity | cbn; now rewrite El | now left |].
           exists bs. split; [exact Hf|exact Hr].
        -- destruct (IH [] [l] (st ++ [ListFlowable (map bullet_text (p :: pl))]))
             as (bs & Hf & Hr); [reflexivity | cbn; now rewrite El | now left |].
           exists (ListFlowable (map bullet_text (p :: pl)) :: bs). split.
           ++ cbn [map app] in Hf. cbn [map]. rewrite Hf.
              now rewrite <- app_assoc.
           ++ apply runs_bullets; [discriminate|exact Hpl|exact El|exact Hr].
Qed.

Lemma bullet_run_unique (its its' ls ls' : list str) :
  its ++ ls = its' ++ ls' ->
  forallb is_bullet_line its = true ->
  forallb is_bullet_line its' = true ->
  match ls with [] => True | l :: _ => is_bullet_line l = false end ->
  match ls' with [] => True | l :: _ => is_bullet_line l = false end ->
  its = its' /\ ls = ls'.
Proof.
  revert its'; induction its as [|x its IH]; intros [|y its'] E H H' Hl Hl'; cbn in *.
  - now split.
  - subst ls. apply andb_prop in H' as [Hy _]. congruence.
  - subst ls'. apply andb_prop in H as [Hx _]. congruence.
  - injection E as <- E. apply andb_prop in H as [_ H]. apply andb_prop in H' as [_ H'].
    destruct (IH its' E H H' Hl Hl') as [-> ->]. now split.
Qed.

(** [runs] determines the blocks. *)
Lemma runs_functional (ls : list str) (bs bs' : list flowable) :
  runs ls bs -> runs ls bs' -> bs = bs'.
Proof.
  intros H; revert bs'; induction H as [|l ls bs Hl H IH|its ls bs Hne Hits Hls H IH];
    intros bs' H'.
  - remember [] as all eqn:Eall.
    destruct H' as [|l0 ls0 bs0 Hl0 Hr0|its' ls' bs0 Hne' Hits' Hls' Hr'];
      [reflexivity|discriminate|].
    destruct its'; [contradiction|discriminate].
  - remember (l :: ls) as all eqn:Eall.
    destruct H' as [|l0 ls0 bs0 Hl0 Hr0|its' ls' bs0 Hne' Hits' Hls' Hr'].
    + discriminate.
    + injection Eall as -> ->. f_equal. now apply IH.
    + destruct its' as [|x its']; [contradiction|].
      cbn in Eall. injection Eall as -> _. cbn in Hits'.
      apply andb_prop in Hits' as [Hx _]. congruence.
  - remember (its ++ ls) as all eqn:Eall.
    destruct H' as [|l0 ls0 bs0 Hl0 Hr0|its' ls' bs0 Hne' Hits' Hls' Hr'].
    + destruct its; [contradiction|discriminate].
    + destruct its as [|x its]; [contradiction|].
      cbn in Eall. injection Eall as -> _. cbn in Hits.
      apply andb_prop in Hits as [Hx _]. congruence.
    + symmetry in Eall.
      destruct (bullet_run_unique _ _ _ _ Eall Hits Hits' Hls Hls') as [-> ->].
      f_equal. now apply IH.
Qed.

Lemma lstrip_spec (s : str) :
  exists ws, s = ws ++ lstrip s /\ forallb is_space ws = true.
Proof.
  induction s as [|c s (ws & E & H)]; [now exists []|].
  cbn [lstrip]. destruct (is_space c) eqn:Ec.
  - exists (c :: ws). cbn. rewrite Ec, H. split; [now f_equal|reflexivity].
  - now exists [].
Qed.

Lemma lstrip_head (s : str) :
  match lstrip s with [] => True | c :: _ => is_space c = false end.
Proof.
  induction s as [|c s IH]; [exact I|].
  cbn [lstrip]. destruct (is_space c) eqn:Ec; [exact IH|exact Ec].
Qed.

Lemma rstrip_spec (s : str) :
  exists ws, s = rstrip s ++ ws /\ forallb is_space ws = true.
Proof.
  unfold rstrip. destruct (lstrip_spec (rev s)) as (ws & E & H).
  exists (rev ws). split.
  - rewrite <- (rev_involutive s) at 1. rewrite E at 1. apply rev_app_distr.
  - rewrite forallb_forall in *. intros x Hx. apply H. now apply in_rev.
Qed.

Lemma strip_spec (s : str) :
  exists lead trail,
    s = lead ++ strip s ++ trail /\ forallb is_space lead = true
    /\ forallb is_space trail = true.
Proof.
  destruct (lstrip_spec s) as (lead & E & H).
  destruct (rstrip_spec (lstrip s)) as (trail & E' & H').
  exists lead, trail. unfold strip. splits; auto. now rewrite <- E'.
Qed.

Lemma is_marker_not_space (m : ascii) : is_marker m = true -> is_space m = false.
Proof.
  unfold is_marker, is_chr. intros H. apply orb_prop in H as [H|H];
    apply Ascii.eqb_eq in H; subst m; reflexivity.
Qed.

(** The lines of [s.split('\n')] lie in [s] after the start of the text or
    a line break, and before a line break or the end of the text. *)
Lemma split_NL_from_In (s cur l : str) :
  In l (split_from [NL] 0 cur s) ->
  exists u w, rev cur ++ s = u ++ l ++ w
    /\ (u = [] \/ exists u', u = u' ++ [NL])
    /\ (w = [] \/ exists w', w = NL :: w').
Proof.
  revert cur; induction s as [|c s IH]; intros cur H.
  - cbn in H. destruct H as [<-|[]]. exists [], []. splits; auto.
  - cbn [split_from startswith] in H. rewrite andb_true_r in H.
    destruct (Ascii.eqb NL c) eqn:Ec.
    + apply Ascii.eqb_eq in Ec; subst c. cbn [length Nat.sub] in H.
      destruct H as [<-|H].
      * exists [], (NL :: s). splits; auto. right. now exists s.
      * destruct (IH [] H) as (u & w & E & Hu & Hw). cbn in E. subst s.
        exists (rev cur ++ NL :: u), w. splits; auto.
        -- now rewrite <- app_assoc.
        -- right. destruct Hu as [->|(u' & ->)].
           ++ now exists (rev cur).
           ++ exists (rev cur ++ NL :: u'). now rewrite <- app_assoc.
    + destruct (IH (c :: cur) H) as (u & w & E & Hu & Hw).
      exists u, w. splits; auto. rewrite <- E. cbn. now rewrite <- app_assoc.
Qed.

Lemma split_NL_In (s l : str) :
  In l (split [NL] s) ->
  exists u w, s = u ++ l ++ w
    /\ (u = [] \/ exists u', u = u' ++ [NL])
    /\ (w = [] \/ exists w', w = NL :: w').
Proof. intros H. exact (split_NL_from_In s [] l H). Qed.

Lemma search_from_exists (r : regex) (u v b : str) m :
  match_at r (Cur (rev u ++ b) v) = Some m ->
  exists m', search_from r b (u ++ v) = Some m'.
Proof.
  revert b; induction u as [|x u IH]; intros b H.
  - exists m. now apply search_from_here.
  - cbn [app search_from].
    destruct (match_at r (Cur b (x :: u ++ v))) as [m0|]; [now exists m0|].
    apply IH. cbn in H. now rewrite <- app_assoc in H.
Qed.

Lemma bullet_re_match (b lead rest : str) (m c : ascii) :
  at_bol (Cur b (lead ++ m :: c :: rest)) = true ->
  forallb is_space lead = true ->
  is_marker m = true -> is_space c = true ->
  exists mo, match_at bullet_re (Cur b (lead ++ m :: c :: rest)) = Some mo.
Proof.
  intros Hb Hl Hm Hc. unfold match_at, bullet_re.
  rewrite exec_seq, exec_bol, Hb.
  rewrite exec_seq, exec_star.
  erewrite star_greedy_run; cycle 1.
  - exact Hl.
  - rewrite exec_seq, exec_cls_ok by exact Hm.
    rewrite exec_cls_ok by exact Hc. reflexivity.
  - now apply is_marker_not_space.
  - eexists; reflexivity.
Qed.

(** A line that, trimmed, begins with a marker and whitespace puts the
    formatter in its bullet mode. *)
Lemma bullet_mode_of_line (content l : str) :
  In l (split [NL] content) -> bullet_marked (strip l) = true ->
  exists mo, re_search bullet_re content = Some mo.
Proof.
  intros Hin Hmark.
  destruct (split_NL_In _ _ Hin) as (u & w & -> & Hu & _).
  destruct (strip_spec l) as (lead & trail & El & Hlead & _).
  destruct (strip l) as [|m [|c r]]; try discriminate.
  cbn in Hmark. apply andb_prop in Hmark as [Hm Hc].
  rewrite El. unfold re_search.
  destruct (@bullet_re_match (rev u ++ []) lead (r ++ trail ++ w) m c) as [mo Hmo]; auto.
  - unfold at_bol. cbn [before]. rewrite app_nil_r.
    destruct Hu as [->|(u' & ->)]; [reflexivity|].
    rewrite rev_app_distr. reflexivity.
  - apply search_from_exists with (m := mo).
    replace ((lead ++ (m :: c :: r) ++ trail) ++ w)
      with (lead ++ m :: c :: r ++ trail ++ w); [exact Hmo|].
    rewrite <- !app_assoc. reflexivity.
Qed.

Lemma add_content_mixed (content : str) (st : story) mo :
  re_search bullet_re content = Some mo ->
  exists bs, add_content_with_formatting content st = st ++ bs
    /\ runs (body_lines content) bs.
Proof.
  intros H. unfold add_content_with_formatting. rewrite H.
  change (exists bs,
    fmt_finish (fold_left fmt_line (split [NL] content) (Fmt st [] [])) = st ++ bs
    /\ runs (body_lines content) bs).
  rewrite fmt_fold_lines. fold (body_lines content).
  exact (@fmt_loop_runs (body_lines content) [] [] st eq_refl eq_refl (or_introl eq_refl)).
Qed.

Lemma add_content_plain (content : str) (st : story) :
  re_search bullet_re content = None ->
  add_content_with_formatting content st =
  st ++ map (fun p => Paragraph p normal_style)
            (filter nonblank (map strip (split [NL; NL] content))).
Proof.
  intros H. unfold add_content_with_formatting. rewrite H.
  generalize (split [NL; NL] content) as chunks. intros chunks; revert st.
  induction chunks as [|p chunks IH]; intros st; cbn [fold_left map filter].
  - now rewrite app_nil_r.
  - rewrite IH. destruct (strip p) as [|c q]; cbn [nonblank]; [reflexivity|].
    cbn [map]. now rewrite <- app_assoc.
Qed.

(** C3: when some line of the body, trimmed, begins with a marker followed
    by whitespace, the formatter appends exactly the blocks of the [runs]
    decomposition of the body's trimmed non-blank lines: in line order, one
    paragraph for each line that is not a bullet line (lines are never
    merged), one list for each maximal run of bullet lines, holding the
    item texts in order. *)
Theorem add_content_with_formatting_runs (content : str) (st : story) :
  (exists l, In l (split [NL] content) /\ bullet_marked (strip l) = true) ->
  exists bs,
    add_content_with_formatting content st = st ++ bs
    /\ runs (body_lines content) bs
    /\ (forall bs', runs (body_lines content) bs' -> bs' = bs).
Proof.
  intros (l & Hin & Hmark).
  destruct (bullet_mode_of_line _ _ Hin Hmark) as [mo Hmo].
  destruct (add_content_mixed content st Hmo) as (bs & E & Hr).
  exists bs. splits; auto.
  intros bs' Hr'. exact (runs_functional Hr' Hr).
Qed.

(** C3 on the body of the specification's example: the three blocks, and
    they are the [runs] decomposition of its four lines. *)
Lemma add_content_with_formatting_runs_witness :
  add_content_with_formatting mixed_example [] = mixed_example_blocks
  /\ runs (body_lines mixed_example) mixed_example_blocks.
Proof.
  assert (H : exists l, In l (split [NL] mixed_example)
                        /\ bullet_marked (strip l) = true).
  { exists (lit "- item one"). split; vm_compute; auto. }
  destruct (add_content_with_formatting_runs mixed_example [] H) as (bs & E & Hr & _).
  assert (Ebs : bs = mixed_example_blocks).
  { rewrite app_nil_l in E. rewrite <- E. vm_compute. reflexivity. }
  rewrite <- Ebs. split; [now rewrite E|exact Hr].
Defined.

(** *** The two marker tests *)

Lemma star_greedy_inv (p : ascii -> bool) (k : cont) (a b : str) (g : groups) r :
  star_greedy p k b a g = Some r ->
  exists u v, a = u ++ v /\ forallb p u = true /\ k (Cur (rev u ++ b) v) g = Some r.
Proof.
  revert b; induction a as [|x a IH]; intros b H; cbn [star_greedy] in H.
  - exists [], []. splits; auto.
  - destruct (p x) eqn:Hx.
    + destruct (star_greedy p k (x :: b) a g) eqn:E.
      * injection H as <-.
        destruct (IH _ E) as (u & v & -> & Hu & Hk).
        exists (x :: u), v. cbn. rewrite Hx, Hu, <- app_assoc. splits; auto.
      * exists [], (x :: a). splits; auto.
    + exists [], (x :: a). splits; auto.
Qed.

Lemma bullet_re_inv (b a : str) mo :
  match_at bullet_re (Cur b a) = Some mo ->
  at_bol (Cur b a) = true /\
  exists ws m c v, a = ws ++ m :: c :: v /\ forallb is_space ws = true
    /\ is_marker m = true /\ is_space c = true.
Proof.
  unfold match_at, bullet_re. rewrite exec_seq, exec_bol.
  destruct (at_bol (Cur b a)) eqn:Hb; [|discriminate].
  rewrite exec_seq, exec_star.
  destruct (star_greedy _ _ _ _ _) as [r|] eqn:E; [|discriminate].
  intros _. split; [reflexivity|].
  destruct (star_greedy_inv _ _ _ _ _ E) as (ws & v & -> & Hws & Hk).
  rewrite exec_seq in Hk. cbn [exec before after] in Hk.
  destruct v as [|m v]; [discriminate|].
  destruct (is_marker m) eqn:Hm; [|discriminate].
  destruct v as [|c v]; [discriminate|].
  destruct (is_space c) eqn:Hc; [|discriminate].
  exists ws, m, c, v. splits; auto.
Qed.





Lemma forallb_rev {A} (f : A -> bool) (l : list A) :
  forallb f l = true -> forallb f (rev l) = true.
Proof.
  rewrite !forallb_forall. intros H x Hx. apply H. now apply in_rev.
Qed.








(** ** The sixteen sections *)

Lemma range_1_17 : range 1 17 = [1; 2; 3; 4; 5; 6; 7; 8; 9; 10; 11; 12; 13; 14; 15; 16].
Proof. reflexivity. Qed.

Lemma in_range_1_17 (i : nat) : 1 <= i <= 16 <-> In i (range 1 17).
Proof. unfold range. rewrite in_seq. lia. Qed.

(** A property of the ordinals 1..16 that a computation decides. *)
Lemma sixteen_cases (P : nat -> Prop) :
  Forall P (range 1 17) -> forall i, 1 <= i <= 16 -> P i.
Proof.
  intros H i Hi. rewrite Forall_forall in H. apply H. now apply in_range_1_17.
Qed.

Lemma parse_sections_eq (content : str) :
  parse_sections content =
  map (fun i => (num i, section_text content i)) (range 1 17).
Proof.
  unfold parse_sections. rewrite range_1_17.
  cbv -[section_text]. reflexivity.
Qed.

Lemma parse_sections_keys (content : str) :
  dict_keys (parse_sections content) = map num (range 1 17).
Proof.
  rewrite parse_sections_eq. unfold dict_keys. rewrite map_map. reflexivity.
Qed.

Lemma parse_sections_get (content : str) (i : nat) :
  1 <= i <= 16 ->
  dict_get (parse_sections content) (num i) = Some (section_text content i).
Proof.
  revert i. apply sixteen_cases. rewrite parse_sections_eq, range_1_17.
  repeat constructor.
Qed.

Lemma sorted_keys (content : str) :
  sorted_by_int (dict_keys (parse_sections content)) = map num (range 1 17).
Proof. rewrite parse_sections_keys. vm_compute. reflexivity. Qed.

(** The formatter only appends, and what it appends does not depend on the
    story so far. *)
Lemma add_content_appends (content : str) (st : story) :
  add_content_with_formatting content st =
  st ++ add_content_with_formatting content [].
Proof.
  destruct (re_search bullet_re content) as [mo|] eqn:E.
  - destruct (add_content_mixed content st E) as (bs & -> & Hr).
    destruct (add_content_mixed content [] E) as (bs' & -> & Hr').
    now rewrite (runs_functional Hr Hr').
  - now rewrite (add_content_plain content st E), (add_content_plain content [] E).
Qed.

Lemma add_section_blocks (content : str) (st : story) (i : nat) :
  1 <= i <= 16 ->
  add_section (parse_sections content) st (num i) = st ++ section_blocks content i.
Proof.
  intros Hi. unfold add_section, section_blocks.
  rewrite (parse_sections_get content Hi).
  destruct (section_body (section_text content i)) as [t|].
  - rewrite add_content_appends. cbn [app]. now rewrite <- !app_assoc.
  - cbn [app]. now rewrite <- !app_assoc.
Qed.

Lemma parse_and_add_content_blocks (content : str) (st : story) :
  parse_and_add_content content st =
  st ++ concat (map (section_blocks content) (range 1 17)).
Proof.
  unfold parse_and_add_content. rewrite sorted_keys.
  assert (H : forall l st,
             Forall (fun i => 1 <= i <= 16) l ->
             fold_left (add_section (parse_sections content)) (map num l) st =
             st ++ concat (map (section_blocks content) l)).
  { induction l as [|i l IH]; intros st' Hl; cbn [map fold_left concat].
    - now rewrite app_nil_r.
    - inversion Hl as [|? ? Hi Hl']; subst.
      rewrite add_section_blocks by exact Hi. rewrite IH by exact Hl'.
      now rewrite <- app_assoc. }
  apply H. rewrite Forall_forall. intros i Hi. now apply in_range_1_17.
Qed.

Lemma create_table_of_contents_blocks (st : story) :
  create_table_of_contents st = st ++ toc_blocks.
Proof.
  unfold create_table_of_contents, toc_blocks.
  change (enumerate toc_entries 1)
    with (map (fun i => (i, title i)) (range 1 17)).
  rewrite range_1_17. cbn [map fold_left fst snd].
  rewrite <- !app_assoc. reflexivity.
Qed.

(** The story of a build, laid out. *)
Lemma generate_blocks (date_str content : str) :
  generate date_str content =
  cover_blocks date_str (extract_project_name content)
  ++ toc_blocks ++ [PageBreak]
  ++ concat (map (section_blocks content) (range 1 17)).
Proof.
  unfold generate. rewrite parse_and_add_content_blocks.
  rewrite create_table_of_contents_blocks.
  unfold create_cover_page, cover_blocks. cbn [app].
  now rewrite <- !app_assoc.
Qed.

Lemma runs_no_table (ls : list str) (bs : list flowable) :
  runs ls bs -> existsb is_table bs = false.
Proof. induction 1; cbn; auto. Qed.

Lemma add_content_no_table (content : str) :
  existsb is_table (add_content_with_formatting content []) = false.
Proof.
  destruct (re_search bullet_re content) as [mo|] eqn:E.
  - destruct (add_content_mixed content [] E) as (bs & -> & Hr).
    exact (runs_no_table Hr).
  - rewrite (add_content_plain content [] E). cbn [app].
    induction (filter nonblank (map strip (split [NL; NL] content))); cbn; auto.
Qed.

Lemma section_blocks_no_table (content : str) (i : nat) :
  existsb is_table (section_blocks content i) = false.
Proof.
  unfold section_blocks. cbn [existsb is_table orb].
  rewrite existsb_app. cbn [existsb is_table orb].
  destruct (section_body (section_text content i)) as [t|].
  - now rewrite add_content_no_table.
  - reflexivity.
Qed.

(** C4, a document whose section 4 holds a table row: the story of the build
    has no table; section 4 is a heading, one paragraph with the two lines
    of text, and a spacer; the table routine, had it been called on this
    body, would have given a table with the row. *)
Lemma generate_section_4_is_a_paragraph :
  existsb is_table (generate (lit "January 01, 2025") fr_document) = false
  /\ section_blocks fr_document 4 =
     [ Paragraph (lit "4. Functional Requirements") heading_style;
       Paragraph fr_section_body normal_style;
       Spacer 1 2 ]
  /\ add_functional_requirements_table fr_section_body [] =
     [ Table [ header_row; [lit "FR01"; lit "Login"; lit "High"; lit "None"] ] ].
Proof. splits; vm_compute; reflexivity. Qed.

(** C4 (amended): a build never calls the table routine.  Its story is the
    cover, the table of contents, a page break and, for each ordinal 1..16
    in order, the section's blocks; the blocks of every section, section 4
    included, are the heading, the output of the paragraph / bullet
    formatter on the body, and a spacer; no block of the story is a table. *)
Theorem generate_no_table (date_str content : str) :
  generate date_str content =
    cover_blocks date_str (extract_project_name content)
    ++ toc_blocks ++ [PageBreak]
    ++ concat (map (section_blocks content) (range 1 17))
  /\ section_blocks content 4 =
       Paragraph (lit "4. " ++ section_heading (lit "4") (section_text content 4))
                 heading_style
       :: match section_body (section_text content 4) with
          | Some content_text => add_content_with_formatting content_text []
          | None => []
          end
       ++ [Spacer 1 2]
  /\ existsb is_table (generate date_str content) = false.
Proof.
  splits.
  - apply generate_blocks.
  - reflexivity.
  - rewrite generate_blocks. rewrite !existsb_app.
    assert (H : forall l, existsb is_table (concat (map (section_blocks content) l)) = false).
    { induction l as [|i l IH]; cbn [map concat]; [reflexivity|].
      now rewrite existsb_app, section_blocks_no_table, IH. }
    rewrite H. reflexivity.
Qed.

Ltac sixteen :=
  apply sixteen_cases; rewrite range_1_17;
  repeat (apply Forall_cons; [vm_compute; try reflexivity|]); apply Forall_nil.

Lemma placeholder_heading (i : nat) :
  1 <= i <= 16 ->
  section_heading (num i) (header i ++ [NL; NL] ++ no_content) = title i.
Proof. revert i. sixteen. Qed.

Lemma placeholder_body (i : nat) :
  1 <= i <= 16 ->
  section_body (header i ++ [NL; NL] ++ no_content) = Some no_content.
Proof. revert i. sixteen. Qed.

Lemma exec_two_chars_fail (a b : str) (r : regex) (k : cont) (bf v : str) (g : groups) :
  startswith (a ++ b) v = false ->
  exec (Seq (Chars a) (Seq (Chars b) r)) k (Cur bf v) g = None.
Proof.
  intros H. rewrite exec_seq, exec_chars. cbn [before after].
  destruct (eat a bf v) as [c|] eqn:E; [|reflexivity].
  apply eat_some in E as [-> _]. rewrite exec_seq.
  destruct c as [b' v']. cbn [after] in *. apply exec_chars_fail.
  destruct (startswith b v') eqn:Eb; [|reflexivity].
  apply startswith_inv in Eb as [t ->].
  now rewrite app_assoc, startswith_app in H.
Qed.

(** An ordinal whose "i." does not occur in the text has neither a strict
    nor a loose match. *)
Lemma no_marker_no_match (content : str) (i : nat) :
  contains (num i ++ lit ".") content = false ->
  re_search (strict_pattern i (title i)) content = None
  /\ re_search (simple_pattern i) content = None.
Proof.
  intros H. split; unfold re_search; apply search_from_none; intros u v ->;
    unfold match_at, strict_pattern, simple_pattern; fold (num i);
    rewrite exec_two_chars_fail; auto; now apply contains_false_app with (u := u).
Qed.

(** C1: the first loop stores a text under each of the sixteen keys "1" to
    "16" and under no other key; and for an ordinal with neither a strict
    nor a loose match the stored text is the placeholder, whose heading is
    the default title and whose body is "No content provided for this
    section.". *)
Theorem parse_sections_sixteen (content : str) :
  dict_keys (parse_sections content) = map num (range 1 17)
  /\ length (parse_sections content) = 16
  /\ (forall i, 1 <= i <= 16 ->
        re_search (strict_pattern i (title i)) content = None ->
        re_search (simple_pattern i) content = None ->
        dict_get (parse_sections content) (num i)
          = Some (header i ++ [NL; NL] ++ no_content)
        /\ section_heading (num i) (section_text content i) = title i
        /\ section_body (section_text content i) = Some no_content).
Proof.
  splits.
  - apply parse_sections_keys.
  - rewrite parse_sections_eq. reflexivity.
  - intros i Hi Hstrict Hloose.
    assert (E : section_text content i = header i ++ [NL; NL] ++ no_content).
    { unfold section_text. fold (num i) (title i). rewrite Hstrict, Hloose.
      unfold header. now rewrite <- !app_assoc. }
    rewrite parse_sections_get by exact Hi. rewrite E. splits.
    + reflexivity.
    + now apply placeholder_heading.
    + now apply placeholder_body.
Qed.

(** C1 on a text without any section: section 3 is the placeholder. *)
Lemma parse_sections_sixteen_witness :
  dict_get (parse_sections (lit "Just some text.")) (lit "3")
    = Some (lit "3. User Personas and Roles" ++ [NL; NL]
            ++ lit "No content provided for this section.")
  /\ section_heading (lit "3") (section_text (lit "Just some text.") 3)
     = lit "User Personas and Roles"
  /\ section_body (section_text (lit "Just some text.") 3)
     = Some (lit "No content provided for this section.").
Proof.
  apply (proj2 (proj2 (parse_sections_sixteen (lit "Just some text."))) 3).
  - lia.
  - vm_compute. reflexivity.
  - vm_compute. reflexivity.
Defined.

(** ** Where a section's capture ends *)

Lemma eat_drop (p b s : str) :
  eat p b s = option_map (fun r => Cur (rev p ++ b) r) (drop_prefix p s).
Proof.
  revert b s; induction p as [|a p IH]; intros b s; [reflexivity|].
  destruct s as [|c s]; [reflexivity|]. cbn [eat drop_prefix].
  destruct (Ascii.eqb a c) eqn:E; [|reflexivity].
  apply Ascii.eqb_eq in E; subst c. rewrite IH. cbn [rev].
  now rewrite <- app_assoc.
Qed.

Lemma drop_prefix_app (p s : str) : drop_prefix p (p ++ s) = Some s.
Proof.
  induction p as [|a p IH]; [reflexivity|].
  cbn [app drop_prefix]. now rewrite Ascii.eqb_refl.
Qed.

Lemma drop_prefix_some (p s r : str) : drop_prefix p s = Some r -> s = p ++ r.
Proof.
  revert s; induction p as [|a p IH]; intros s H.
  - cbn in H. now injection H as ->.
  - destruct s as [|c s]; [discriminate|]. cbn [drop_prefix] in H.
    destruct (Ascii.eqb a c) eqn:E; [|discriminate].
    apply Ascii.eqb_eq in E; subst c. now rewrite (IH _ H).
Qed.

Lemma marker_at_intro (n : nat) (c : ascii) (r : str) :
  is_space c = true -> marker_at n (num n ++ lit "." ++ c :: r) = true.
Proof.
  intros H. unfold marker_at. rewrite app_assoc, drop_prefix_app. exact H.
Qed.

Lemma marker_at_inv (n : nat) (s : str) :
  marker_at n s = true ->
  exists c r, s = num n ++ lit "." ++ c :: r /\ is_space c = true.
Proof.
  unfold marker_at. destruct (drop_prefix (num n ++ lit ".") s) as [[|c r]|] eqn:E;
    try discriminate.
  intros Hc. exists c, r. split; [|exact Hc].
  rewrite (drop_prefix_some _ _ E). now rewrite <- app_assoc.
Qed.

Lemma star_greedy_accept (p : ascii -> bool) (a b : str) (g : groups) :
  exists c, star_greedy p accept b a g = Some (c, g).
Proof.
  revert b; induction a as [|x a IH]; intros b; cbn [star_greedy].
  - now eexists.
  - destruct (p x); [|now eexists].
    destruct (IH (x :: b)) as [c ->]. now eexists.
Qed.

(** The loose marker as the pattern reads it. *)
Lemma marker_exec (n : nat) (b a : str) (g : groups) :
  (marker_at n a = true ->
   exists c, exec (Seq (Chars (num n)) (Seq (Chars (lit ".")) (Plus true is_space)))
                  accept (Cur b a) g = Some (c, g))
  /\ (marker_at n a = false ->
      exec (Seq (Chars (num n)) (Seq (Chars (lit ".")) (Plus true is_space)))
           accept (Cur b a) g = None).
Proof.
  split.
  - intros H. apply marker_at_inv in H as (c & r & -> & Hc).
    rewrite exec_seq, exec_chars_app, exec_seq, exec_chars_app, exec_plus.
    rewrite exec_cls_ok by exact Hc. rewrite exec_star.
    apply star_greedy_accept.
  - intros H. rewrite exec_seq, exec_chars. cbn [before after].
    rewrite eat_drop. destruct (drop_prefix (num n) a) as [a1|] eqn:E1; [|reflexivity].
    cbn [option_map]. rewrite exec_seq, exec_chars. cbn [before after].
    rewrite eat_drop. destruct (drop_prefix (lit ".") a1) as [a2|] eqn:E2; [|reflexivity].
    cbn [option_map]. rewrite exec_plus.
    apply drop_prefix_some in E1, E2. subst a a1.
    unfold marker_at in H. rewrite app_assoc, drop_prefix_app in H.
    destruct a2 as [|c a2]; [reflexivity|]. cbn [exec after]. now rewrite H.
Qed.

Lemma next_marker_exec (i : nat) (k : cont) (b a : str) (g : groups) :
  exec (next_marker i) k (Cur b a) g =
  if boundary i a then k (Cur b a) g else None.
Proof.
  unfold next_marker, boundary. fold (num (i + 1)).
  rewrite exec_ahead, exec_alt.
  destruct (marker_exec (i + 1) b a g) as [Hyes Hno].
  destruct (marker_at (i + 1) a).
  - destruct (Hyes eq_refl) as [c ->]. reflexivity.
  - rewrite (Hno eq_refl). rewrite exec_eol. cbn [orb].
    change (at_eol (Cur b a)) with (text_end a).
    now destruct (text_end a).
Qed.

Lemma exec_chars_inv (s : str) (k : cont) (b a : str) (g : groups) r :
  exec (Chars s) k (Cur b a) g = Some r ->
  exists a', a = s ++ a' /\ k (Cur (rev s ++ b) a') g = Some r.
Proof.
  rewrite exec_chars. cbn [before after].
  destruct (eat s b a) as [[b' a']|] eqn:E; [|discriminate].
  apply eat_some in E as [-> E]. cbn [before after] in *. subst b'.
  intros H. now exists a'.
Qed.

Lemma exec_plus_greedy_inv (p : ascii -> bool) (k : cont) (b a : str) (g : groups) r :
  exec (Plus true p) k (Cur b a) g = Some r ->
  exists u v, a = u ++ v /\ u <> [] /\ forallb p u = true
    /\ k (Cur (rev u ++ b) v) g = Some r.
Proof.
  rewrite exec_plus. cbn [exec before after].
  destruct a as [|x a]; [discriminate|].
  destruct (p x) eqn:Hx; [|discriminate].
  intros H. apply star_greedy_inv in H as (u & v & -> & Hu & Hk).
  exists (x :: u), v. cbn [forallb rev app]. rewrite Hx, Hu, <- app_assoc.
  splits; auto. discriminate.
Qed.

Lemma forallb_dot_all (u : str) : forallb dot_all u = true.
Proof. induction u; cbn; auto. Qed.

(** The lazy capture and its lookahead: the capture is the shortest text
    after which the boundary holds. *)
Lemma capture_fwd (i : nat) (b cap rest : str) (g : groups) :
  boundary i rest = true ->
  (forall u v, cap = u ++ v -> v <> [] -> boundary i (v ++ rest) = false) ->
  exec (Seq (Grp 1 (Star false dot_all)) (next_marker i)) accept
       (Cur b (cap ++ rest)) g
  = Some (Cur (rev cap ++ b) rest, (1, cap) :: g).
Proof.
  intros Hb Hmin. rewrite exec_seq, exec_grp, exec_star.
  apply star_lazy_first.
  - apply forallb_dot_all.
  - rewrite next_marker_exec, Hb. unfold accept. now rewrite between_app.
  - intros u1 u2 E Hne. rewrite next_marker_exec.
    now rewrite (Hmin u1 u2 E Hne).
Qed.

Lemma capture_inv (i : nat) (b a : str) (g : groups) r :
  exec (Seq (Grp 1 (Star false dot_all)) (next_marker i)) accept (Cur b a) g
  = Some r ->
  exists cap rest,
    a = cap ++ rest /\ boundary i rest = true
    /\ (forall u v, cap = u ++ v -> v <> [] -> boundary i (v ++ rest) = false)
    /\ r = (Cur (rev cap ++ b) rest, (1, cap) :: g).
Proof.
  rewrite exec_seq, exec_grp, exec_star. intros H.
  apply star_lazy_inv in H as (cap & rest & -> & _ & Hk & Hmin).
  rewrite next_marker_exec in Hk.
  destruct (boundary i rest) eqn:Hb; [|discriminate].
  exists cap, rest. splits; auto.
  - intros u v E Hne. specialize (Hmin u v E Hne).
    rewrite next_marker_exec in Hmin.
    now destruct (boundary i (v ++ rest)).
  - unfold accept in Hk. rewrite between_app in Hk. now injection Hk.
Qed.

(** What a match of the strict pattern looks like. *)
Lemma strict_match_inv (i : nat) (ttl b a : str) m :
  match_at (strict_pattern i ttl) (Cur b a) = Some m ->
  exists ws cap rest,
    a = num i ++ lit "." ++ ws ++ ttl ++ cap ++ rest
    /\ ws <> [] /\ forallb is_space ws = true
    /\ boundary i rest = true
    /\ (forall u v, cap = u ++ v -> v <> [] -> boundary i (v ++ rest) = false)
    /\ group 1 m = cap
    /\ group 0 m = num i ++ lit "." ++ ws ++ ttl ++ cap.
Proof.
  unfold match_at, strict_pattern. fold (num i).
  destruct (exec _ accept (Cur b a) []) as [[e g]|] eqn:E; [|discriminate].
  intros H; injection H as <-.
  rewrite exec_seq in E. apply exec_chars_inv in E as (a1 & -> & E).
  rewrite exec_seq in E. apply exec_chars_inv in E as (a2 & -> & E).
  rewrite exec_seq in E.
  apply exec_plus_greedy_inv in E as (ws & a3 & -> & Hne & Hws & E).
  rewrite exec_seq in E. apply exec_chars_inv in E as (a4 & -> & E).
  apply capture_inv in E as (cap & rest & -> & Hb & Hmin & Er).
  injection Er as -> ->.
  exists ws, cap, rest. splits; auto.
  unfold group. cbn [m_start m_end].
  replace (num i ++ lit "." ++ ws ++ ttl ++ cap ++ rest)
    with ((num i ++ lit "." ++ ws ++ ttl ++ cap) ++ rest)
    by now rewrite <- !app_assoc.
  apply between_app.
Qed.

(** The match at a header followed by its capture. *)
Lemma strict_match_fwd (i : nat) (ttl ws cap rest b : str) :
  ws <> [] -> forallb is_space ws = true ->
  match ttl with [] => False | t0 :: _ => is_space t0 = false end ->
  boundary i rest = true ->
  (forall u v, cap = u ++ v -> v <> [] -> boundary i (v ++ rest) = false) ->
  exists m,
    match_at (strict_pattern i ttl)
             (Cur b (num i ++ lit "." ++ ws ++ ttl ++ cap ++ rest)) = Some m
    /\ group 1 m = cap.
Proof.
  intros Hne Hws Httl Hb Hmin. unfold match_at, strict_pattern. fold (num i).
  rewrite exec_seq, exec_chars_app, exec_seq, exec_chars_app, exec_seq, exec_plus.
  destruct ws as [|w ws]; [contradiction|].
  cbn [forallb] in Hws. apply andb_prop in Hws as [Hw Hws].
  cbn [app]. rewrite exec_cls_ok by exact Hw. rewrite exec_star.
  rewrite star_greedy_stop; [| exact Hws | |].
  - rewrite exec_seq, exec_chars_app, capture_fwd by assumption.
    eexists. split; reflexivity.
  - destruct ttl as [|t0 ttl]; [contradiction|exact Httl].
  - intros b' x a' g' Hx. rewrite exec_seq. apply exec_chars_fail.
    destruct ttl as [|t0 ttl]; [contradiction|]. cbn [startswith].
    destruct (Ascii.eqb t0 x) eqn:E; [|reflexivity].
    apply Ascii.eqb_eq in E; subst x. congruence.
Qed.

(** C6, a text in which "2. " occurs in the body of section 1: the strict
    capture of section 1 ends at offset 20, before "2. x", while the strict
    pattern of ordinal 2 (ordinal, period, whitespace, title) first begins
    at offset 25. *)
Lemma strict_capture_stops_at_loose_marker :
  exists m m2,
    re_search (strict_pattern 1 (title 1)) early_marker_document = Some m
    /\ re_search (sec_head "2" "Goals and Objectives") early_marker_document = Some m2
    /\ group 1 m = NL :: lit "see "
    /\ length (before (m_end m)) = 20
    /\ length (before (m_start m2)) = 25.
Proof.
  eexists. eexists. split; [vm_compute; reflexivity|].
  split; [vm_compute; reflexivity|]. splits; reflexivity.
Qed.

(** C6 (amended): for an ordinal i in 1..15 on whose strict pattern the text
    has a match, the leftmost match is "i.", whitespace, the default title,
    and then the capture, which ends at the first place after the title
    where the loose marker of i+1 begins ("i+1.", then a whitespace
    character, whatever follows) or where the text ends (at its end or
    before a last line break). *)
Theorem strict_capture_extent (content : str) (i : nat) m :
  1 <= i <= 15 ->
  re_search (strict_pattern i (title i)) content = Some m ->
  exists pre ws rest,
    content = pre ++ num i ++ lit "." ++ ws ++ title i ++ group 1 m ++ rest
    /\ ws <> [] /\ forallb is_space ws = true
    /\ (marker_at (i + 1) rest = true \/ text_end rest = true)
    /\ (forall u v, group 1 m = u ++ v -> v <> [] ->
          marker_at (i + 1) (v ++ rest) = false /\ text_end (v ++ rest) = false).
Proof.
  intros _ H. unfold re_search in H.
  apply search_from_inv in H as (pre & a & -> & Hm & _).
  apply strict_match_inv in Hm as (ws & cap & rest & -> & Hne & Hws & Hb & Hmin & Hg & _).
  exists pre, ws, rest. rewrite Hg. splits; auto.
  - unfold boundary in Hb. now apply orb_prop in Hb.
  - intros u v E Hv. specialize (Hmin u v E Hv). unfold boundary in Hmin.
    now apply orb_false_elim in Hmin.
Qed.

(** C6 on the text above: the capture of section 1 is the line break and
    "see ", and what follows it begins with the loose marker "2. ". *)
Lemma strict_capture_extent_witness :
  exists m pre ws rest,
    re_search (strict_pattern 1 (title 1)) early_marker_document = Some m
    /\ early_marker_document
       = pre ++ num 1 ++ lit "." ++ ws ++ title 1 ++ group 1 m ++ rest
    /\ ws <> [] /\ forallb is_space ws = true
    /\ (marker_at 2 rest = true \/ text_end rest = true)
    /\ (forall u v, group 1 m = u ++ v -> v <> [] ->
          marker_at 2 (v ++ rest) = false /\ text_end (v ++ rest) = false).
Proof.
  destruct (re_search (strict_pattern 1 (title 1)) early_marker_document)
    as [m|] eqn:E; [|vm_compute in E; discriminate].
  destruct (@strict_capture_extent early_marker_document 1 m ltac:(lia) E)
    as (pre & ws & rest & H).
  exists m, pre, ws, rest. split; [reflexivity|exact H].
Defined.

(** ** The last section *)

Lemma text_end_inv (s : str) : text_end s = true -> s = [] \/ s = [NL].
Proof.
  destruct s as [|c [|d s]]; cbn [text_end]; intros H; try discriminate;
    [now left|].
  right. unfold is_chr in H. apply Ascii.eqb_eq in H. now subst c.
Qed.

(** What a match of the loose pattern looks like. *)
Lemma simple_match_inv (i : nat) (b a : str) m :
  match_at (simple_pattern i) (Cur b a) = Some m ->
  exists ws cap rest,
    a = num i ++ lit "." ++ ws ++ cap ++ rest
    /\ ws <> [] /\ forallb is_space ws = true
    /\ boundary i rest = true
    /\ group 1 m = cap
    /\ group 0 m = num i ++ lit "." ++ ws ++ cap.
Proof.
  unfold match_at, simple_pattern. fold (num i).
  destruct (exec _ accept (Cur b a) []) as [[e g]|] eqn:E; [|discriminate].
  intros H; injection H as <-.
  rewrite exec_seq in E. apply exec_chars_inv in E as (a1 & -> & E).
  rewrite exec_seq in E. apply exec_chars_inv in E as (a2 & -> & E).
  rewrite exec_seq in E.
  apply exec_plus_greedy_inv in E as (ws & a3 & -> & Hne & Hws & E).
  apply capture_inv in E as (cap & rest & -> & Hb & Hmin & Er).
  injection Er as -> ->.
  exists ws, cap, rest. splits; auto.
  unfold group. cbn [m_start m_end].
  replace (num i ++ lit "." ++ ws ++ cap ++ rest)
    with ((num i ++ lit "." ++ ws ++ cap) ++ rest)
    by now rewrite <- !app_assoc.
  apply between_app.
Qed.

Lemma last_section_pattern_listed :
  nth_error section_patterns 15 = Some (last_section_pattern, lit "16").
Proof. reflexivity. Qed.

Lemma last_section_match_inv (b a : str) m :
  match_at last_section_pattern (Cur b a) = Some m ->
  exists rest, a = group 0 m ++ rest /\ text_end rest = true.
Proof.
  unfold match_at, last_section_pattern, sec_head.
  destruct (exec _ accept (Cur b a) []) as [[e g]|] eqn:E; [|discriminate].
  intros H; injection H as <-.
  rewrite !exec_seq in E. apply exec_chars_inv in E as (a1 & -> & E).
  apply exec_chars_inv in E as (a2 & -> & E).
  apply exec_plus_greedy_inv in E as (ws & a3 & -> & Hne & Hws & E).
  apply exec_chars_inv in E as (a4 & -> & E).
  rewrite exec_seq, exec_grp, exec_star in E.
  apply star_lazy_inv in E as (cap & rest & -> & _ & Hk & _).
  rewrite exec_eol in Hk. change (at_eol (Cur ?x rest)) with (text_end rest) in Hk.
  destruct (text_end rest) eqn:Hend; [|discriminate].
  unfold accept in Hk. injection Hk as <- <-.
  exists rest. split; [|exact Hend].
  unfold group. cbn [m_start m_end].
  replace (lit "16" ++ lit "." ++ ws ++ lit "Points Requiring" ++ cap ++ rest)
    with ((lit "16" ++ lit "." ++ ws ++ lit "Points Requiring" ++ cap) ++ rest)
    by now rewrite <- !app_assoc.
  now rewrite between_app.
Qed.

Lemma extract_sections_get_16 (content : str) m :
  re_search last_section_pattern content = Some m ->
  dict_get (extract_sections content) (lit "16") = Some (group 0 m).
Proof.
  intros H. unfold extract_sections.
  change section_patterns
    with (firstn 15 section_patterns ++ [(last_section_pattern, lit "16")]).
  rewrite fold_left_app. cbn [fold_left]. rewrite H.
  now rewrite dict_get_set, str_eqb_refl.
Qed.

(** C8, two texts.  In the first the capture of section 16 in
    [parse_and_add_content] stops before "17. x": ordinal 17 is a successor
    boundary there.  In the second, which ends with a line break, the match
    of section 16 in [extract_sections] and the capture in
    [parse_and_add_content] both stop before that last line break. *)
Lemma last_capture_stops_before_end :
  (exists m,
     re_search (strict_pattern 16 (title 16)) marker_17_document = Some m
     /\ marker_17_document = group 0 m ++ lit "17. x")
  /\ (exists m,
        re_search last_section_pattern final_newline_document = Some m
        /\ final_newline_document = group 0 m ++ [NL])
  /\ (exists m,
        re_search (strict_pattern 16 (title 16)) final_newline_document = Some m
        /\ final_newline_document = group 0 m ++ [NL]).
Proof.
  splits; eexists; (split; [vm_compute; reflexivity|reflexivity]).
Qed.

(** C8 (amended): when the text has no loose marker of ordinal 17 ("17.",
    then a whitespace character), a match of section 16 in
    [parse_and_add_content], strict or loose, runs to the end of the text or
    to just before its last character when that is a line break; a match
    of section 16 in [extract_sections], whose pattern has no successor
    boundary, does so in every text, and is what is stored under "16". *)
Theorem last_section_capture (content : str) :
  (forall m,
     re_search (strict_pattern 16 (title 16)) content = Some m ->
     (forall u v, content = u ++ v -> marker_at 17 v = false) ->
     exists pre rest,
       content = pre ++ group 0 m ++ rest /\ (rest = [] \/ rest = [NL]))
  /\ (forall m,
        re_search (simple_pattern 16) content = Some m ->
        (forall u v, content = u ++ v -> marker_at 17 v = false) ->
        exists pre rest,
          content = pre ++ group 0 m ++ rest /\ (rest = [] \/ rest = [NL]))
  /\ (forall m,
        re_search last_section_pattern content = Some m ->
        dict_get (extract_sections content) (lit "16") = Some (group 0 m)
        /\ exists pre rest,
             content = pre ++ group 0 m ++ rest /\ (rest = [] \/ rest = [NL])).
Proof.
  splits.
  - intros m H Hno. unfold re_search in H.
    apply search_from_inv in H as (pre & a & -> & Hm & _).
    apply strict_match_inv in Hm as (ws & cap & rest & -> & _ & _ & Hb & _ & _ & Hg).
    exists pre, rest. rewrite Hg. split; [now rewrite <- !app_assoc|].
    apply text_end_inv. unfold boundary in Hb. change (16 + 1) with 17 in Hb.
    rewrite (Hno (pre ++ num 16 ++ lit "." ++ ws ++ title 16 ++ cap) rest) in Hb;
      [exact Hb|now rewrite <- !app_assoc].
  - intros m H Hno. unfold re_search in H.
    apply search_from_inv in H as (pre & a & -> & Hm & _).
    apply simple_match_inv in Hm as (ws & cap & rest & -> & _ & _ & Hb & _ & Hg).
    exists pre, rest. rewrite Hg. split; [now rewrite <- !app_assoc|].
    apply text_end_inv. unfold boundary in Hb. change (16 + 1) with 17 in Hb.
    rewrite (Hno (pre ++ num 16 ++ lit "." ++ ws ++ cap) rest) in Hb;
      [exact Hb|now rewrite <- !app_assoc].
  - intros m H. split; [now apply extract_sections_get_16|].
    unfold re_search in H.
    apply search_from_inv in H as (pre & a & -> & Hm & _).
    apply last_section_match_inv in Hm as (rest & -> & Hend).
    exists pre, rest. split; [reflexivity|now apply text_end_inv].
Qed.

Lemma no_marker_in_spec (n : nat) (s : str) :
  no_marker_in n s = true -> forall u v, s = u ++ v -> marker_at n v = false.
Proof.
  intros H u; revert s H; induction u as [|x u IH]; intros s H v ->.
  - destruct v; cbn [app no_marker_in] in H; apply andb_prop in H as [H _];
      now destruct (marker_at n _).
  - cbn [app no_marker_in] in H. apply andb_prop in H as [_ H].
    now apply (IH _ H).
Qed.

(** C8 on a text that ends with section 16 and has no marker of ordinal
    17: the match runs to the end of the text. *)
Lemma last_section_capture_witness :
  exists m pre rest,
    re_search (strict_pattern 16 (title 16)) plain_last_document = Some m
    /\ plain_last_document = pre ++ group 0 m ++ rest
    /\ (rest = [] \/ rest = [NL]).
Proof.
  destruct (re_search (strict_pattern 16 (title 16)) plain_last_document)
    as [m|] eqn:E; [|vm_compute in E; discriminate].
  destruct (proj1 (last_section_capture plain_last_document) m E)
    as (pre & rest & H).
  - apply no_marker_in_spec. vm_compute. reflexivity.
  - exists m, pre, rest. split; [reflexivity|exact H].
Defined.

(** ** Well-formed documents *)

Lemma digit_not_space (c : ascii) : is_digit c = true -> is_space c = false.
Proof.
  destruct c as [b0 b1 b2 b3 b4 b5 b6 b7].
  destruct b0, b1, b2, b3, b4, b5, b6, b7; intros H; try reflexivity;
    discriminate H.
Qed.

Lemma digit_not_dot (c : ascii) : is_digit c = true -> Ascii.eqb "."%char c = false.
Proof.
  intros H. destruct (Ascii.eqb "." c) eqn:E; [|reflexivity].
  apply Ascii.eqb_eq in E; subst c. discriminate H.
Qed.

Lemma clash_startswith (a b z : str) :
  clash a b = true -> startswith a (b ++ z) = false.
Proof.
  revert b; induction a as [|x a IH]; intros [|y b] H; try discriminate.
  cbn [clash] in H. cbn [app startswith].
  destruct (Ascii.eqb x y); [|reflexivity]. cbn [negb orb] in H.
  cbn [andb]. now apply IH.
Qed.

(** Two runs of digits, each followed by a period: the runs agree. *)
Lemma digit_run (ds ds' a a' : str) :
  forallb is_digit ds = true -> forallb is_digit ds' = true ->
  ds ++ "."%char :: a = ds' ++ "."%char :: a' ->
  ds = ds' /\ a = a'.
Proof.
  revert ds'; induction ds as [|d ds IH]; intros [|d' ds'] H H' E;
    cbn [app forallb] in *.
  - injection E as ->. now split.
  - injection E as <- _. apply andb_prop in H' as [H' _]. discriminate H'.
  - injection E as -> _. apply andb_prop in H as [H _]. discriminate H.
  - injection E as -> E. apply andb_prop in H as [_ H].
    apply andb_prop in H' as [_ H'].
    destruct (IH ds' H H' E) as [-> ->]. now split.
Qed.

Lemma has_dds_intro (a b : str) (d c : ascii) :
  is_digit d = true -> is_space c = true ->
  has_dds (a ++ d :: "."%char :: c :: b) = true.
Proof.
  intros Hd Hc. induction a as [|x a IH]; cbn [app has_dds].
  - cbn [dds]. now rewrite Hd, Hc.
  - rewrite IH. apply orb_true_r.
Qed.

Lemma has_dds_suffix (u v : str) : has_dds (u ++ v) = false -> has_dds v = false.
Proof.
  induction u as [|x u IH]; [auto|]. cbn [app has_dds]. intros H.
  apply orb_false_elim in H as [_ H]. now apply IH.
Qed.

(** A run of digits, a period and a whitespace character make a stray
    marker. *)
Lemma marker_form_dds (a ds r : str) (c : ascii) :
  ds <> [] -> forallb is_digit ds = true -> is_space c = true ->
  has_dds (a ++ ds ++ "."%char :: c :: r) = true.
Proof.
  intros Hne Hds Hc.
  destruct (exists_last Hne) as (ds0 & d & ->).
  rewrite forallb_app in Hds. apply andb_prop in Hds as [_ Hd].
  cbn [forallb] in Hd. rewrite andb_true_r in Hd.
  rewrite <- app_assoc. cbn [app]. rewrite app_assoc.
  now apply has_dds_intro.
Qed.

(** A marker that begins in a text free of stray markers, right before a
    run of digits and a period, takes its first digits from the text and
    the others from the run. *)
Lemma clean_cross (u1 u2 ds dk r rest_t : str) (c : ascii) :
  has_dds (u1 ++ u2) = false -> u2 <> [] ->
  ds <> [] -> forallb is_digit ds = true -> is_space c = true ->
  dk <> [] -> forallb is_digit dk = true ->
  u2 ++ dk ++ "."%char :: rest_t = ds ++ "."%char :: c :: r ->
  ds = u2 ++ dk /\ rest_t = c :: r.
Proof.
  intros Hclean Hu2 Hds Hdig Hc Hdk Hdigk E.
  assert (Hin : forall l, u2 = ds ++ "."%char :: c :: l -> False).
  { intros l ->. rewrite (@marker_form_dds u1 ds l c Hds Hdig Hc) in Hclean. discriminate. }
  assert (E' : (u2 ++ dk) ++ "."%char :: rest_t = ds ++ "."%char :: c :: r)
    by now rewrite <- app_assoc.
  apply app_eq_app in E' as [l [[E1 E2] | [E1 E2]]].
  - destruct l as [|x l].
    + rewrite app_nil_r in E1. cbn [app] in E2. injection E2 as <-. now split.
    + exfalso. cbn [app] in E2. injection E2 as <- E2.
      destruct l as [|y l].
      * cbn [app] in E2. injection E2 as -> _. discriminate Hc.
      * cbn [app] in E2. injection E2 as <- _.
        change (ds ++ "."%char :: c :: l) with (ds ++ "."%char :: [c] ++ l) in E1.
        apply app_eq_app in E1 as [k [[E3 E4] | [E3 E4]]].
        -- destruct k as [|z k].
           ++ cbn [app] in E4. subst dk. cbn [forallb] in Hdigk.
              apply andb_prop in Hdigk as [Hd _].
              apply digit_not_dot in Hd. discriminate Hd.
           ++ cbn [app] in E4. injection E4 as <- E4.
              destruct k as [|z k].
              ** cbn [app] in E4. subst dk. cbn [forallb] in Hdigk.
                 apply andb_prop in Hdigk as [Hd _].
                 apply digit_not_space in Hd. congruence.
              ** cbn [app] in E4. injection E4 as <- E4.
                 apply (Hin k). exact E3.
        -- subst dk. rewrite forallb_app in Hdigk.
           apply andb_prop in Hdigk as [_ Hd]. cbn [forallb] in Hd.
           apply andb_prop in Hd as [Hd _]. discriminate Hd.
  - destruct l as [|x l].
    + rewrite app_nil_r in E1. cbn [app] in E2. injection E2 as ->. now split.
    + exfalso. cbn [app] in E2. injection E2 as <- _.
      subst ds. rewrite forallb_app in Hdig. apply andb_prop in Hdig as [_ Hd].
      cbn [forallb] in Hd. apply andb_prop in Hd as [Hd _]. discriminate Hd.
Qed.

(** *** Facts about the sixteen titles and ordinals, by computation *)

Lemma titles_ok (i : nat) : 1 <= i <= 16 -> title_ok i = true.
Proof. revert i. sixteen. Qed.

Lemma nums_ok (i : nat) : 1 <= i <= 17 -> num_ok i = true.
Proof.
  intros H. assert (Hin : In i (seq 1 17)) by (apply in_seq; lia).
  clear H. revert i Hin. apply Forall_forall.
  repeat (apply Forall_cons; [vm_compute; reflexivity|]). apply Forall_nil.
Qed.

Lemma titles_clash (i k : nat) :
  1 <= i <= 16 -> 1 <= k <= 16 -> i <> k -> clash (title i) (title k) = true.
Proof.
  intros Hi Hk Hne.
  assert (H : forallb (fun i => forallb (fun k => (i =? k) || clash (title i) (title k))
                                        (range 1 17)) (range 1 17) = true)
    by (vm_compute; reflexivity).
  rewrite forallb_forall in H. specialize (H i (proj1 (in_range_1_17 i) Hi)).
  rewrite forallb_forall in H. specialize (H k (proj1 (in_range_1_17 k) Hk)).
  apply orb_prop in H as [H|H]; [|exact H].
  apply Nat.eqb_eq in H. contradiction.
Qed.

Lemma title_head (i : nat) :
  1 <= i <= 16 -> exists t0 t, title i = t0 :: t /\ is_space t0 = false.
Proof.
  intros Hi. pose proof (titles_ok Hi) as H. unfold title_ok in H.
  apply andb_prop in H as [H _]. apply andb_prop in H as [H _].
  destruct (title i) as [|t0 t]; [discriminate|].
  exists t0, t. split; [reflexivity|]. now destruct (is_space t0).
Qed.

Lemma title_no_NL (i : nat) : 1 <= i <= 16 -> forallb dot (title i) = true.
Proof.
  intros Hi. pose proof (titles_ok Hi) as H. unfold title_ok in H.
  apply andb_prop in H as [H _]. now apply andb_prop in H as [_ H].
Qed.

Lemma header_tail_no_digit (i : nat) :
  1 <= i <= 16 ->
  forallb (fun c => negb (is_digit c)) (lit ". " ++ title i) = true.
Proof.
  intros Hi. pose proof (titles_ok Hi) as H. unfold title_ok in H.
  now apply andb_prop in H as [_ H].
Qed.

Lemma num_digits (i : nat) :
  1 <= i <= 17 -> num i <> [] /\ forallb is_digit (num i) = true.
Proof.
  intros Hi. pose proof (nums_ok Hi) as H. unfold num_ok in H.
  apply andb_prop in H as [H1 H2]. split; [|exact H2].
  intros E. rewrite E in H1. discriminate.
Qed.

Lemma num_no_NL (i : nat) : 1 <= i <= 17 -> forallb dot (num i) = true.
Proof.
  intros Hi. destruct (num_digits Hi) as [_ H].
  rewrite forallb_forall in *. intros c Hc. specialize (H c Hc).
  unfold dot, is_chr. destruct (Ascii.eqb NL c) eqn:E; [|reflexivity].
  apply Ascii.eqb_eq in E; subst c. discriminate H.
Qed.

Lemma header_no_NL (i : nat) : 1 <= i <= 16 -> forallb dot (header i) = true.
Proof.
  intros Hi. unfold header. rewrite !forallb_app.
  rewrite num_no_NL by lia. rewrite title_no_NL by exact Hi. reflexivity.
Qed.

(** *** The heading and the body of a header followed by its capture *)

Lemma header_eq (i : nat) :
  header i = num i ++ lit "." ++ [" "%char] ++ title i.
Proof. reflexivity. Qed.

Lemma heading_of_header (i : nat) (cap : str) :
  1 <= i <= 16 -> (cap = [] \/ exists r, cap = NL :: r) ->
  section_heading (num i) (header i ++ cap) = title i.
Proof.
  intros Hi Hcap. destruct (title_head Hi) as (t0 & t & Et & Ht0).
  pose proof (title_no_NL Hi) as Hdot.
  unfold section_heading, re_match, match_at, title_pattern.
  rewrite header_eq, <- !app_assoc.
  rewrite exec_seq, exec_chars_app, exec_seq, exec_chars_app, exec_seq, exec_plus.
  cbn [app]. rewrite exec_cls_ok by reflexivity. rewrite exec_star.
  assert (Hlook : forall b' g',
             exec (Ahead (Alt (Chars [NL]) Eol)) accept (Cur b' cap) g'
             = Some (Cur b' cap, g')).
  { intros b' g'. rewrite exec_ahead, exec_alt.
    destruct Hcap as [->|(r & ->)].
    - rewrite exec_chars_fail by reflexivity. rewrite exec_eol. reflexivity.
    - change (NL :: r) with ([NL] ++ r). rewrite exec_chars_app. reflexivity. }
  match goal with |- context [star_greedy ?p ?k ?b ?a ?g] =>
    assert (Hk : exists e, star_greedy p k b a g = Some (e, [(1, title i)]))
  end.
  { eexists. apply (@star_greedy_run is_space _ [] (title i ++ cap)); [reflexivity| |].
    - rewrite exec_seq, exec_grp, exec_star. apply star_lazy_first.
      + exact Hdot.
      + rewrite Hlook, between_app. reflexivity.
      + intros u1 u2 E Hne. rewrite exec_ahead, exec_alt.
        destruct u2 as [|x u2]; [contradiction|].
        assert (Hx : Ascii.eqb NL x = false).
        { rewrite E, forallb_app in Hdot. apply andb_prop in Hdot as [_ Hdot].
          cbn [forallb] in Hdot. apply andb_prop in Hdot as [Hx _].
          unfold dot, is_chr in Hx. now destruct (Ascii.eqb NL x). }
        rewrite exec_chars_fail by (cbn [app startswith]; now rewrite Hx).
        rewrite exec_eol. unfold at_eol. cbn [after app].
        destruct (u2 ++ cap); [|reflexivity].
        unfold is_chr. now rewrite Hx.
    - rewrite Et. cbn [app]. exact Ht0. }
  destruct Hk as [e ->]. reflexivity.
Qed.

Lemma split1_header (hdr cur : str) :
  forallb dot hdr = true ->
  split1_from [NL] cur hdr = [rev cur ++ hdr]
  /\ forall r, split1_from [NL] cur (hdr ++ NL :: r) = [rev cur ++ hdr; r].
Proof.
  revert cur; induction hdr as [|x hdr IH]; intros cur H.
  - split; [cbn; now rewrite app_nil_r|]. intros r. cbn. now rewrite app_nil_r.
  - cbn [forallb] in H. apply andb_prop in H as [Hx H].
    assert (Ex : Ascii.eqb NL x = false)
      by (unfold dot, is_chr in Hx; now destruct (Ascii.eqb NL x)).
    destruct (IH (x :: cur) H) as [IH1 IH2]. split.
    + cbn [split1_from startswith]. rewrite Ex. cbn [andb].
      rewrite IH1. cbn [rev]. now rewrite <- app_assoc.
    + intros r. cbn [app split1_from startswith]. rewrite Ex. cbn [andb].
      rewrite IH2. cbn [rev]. now rewrite <- app_assoc.
Qed.

Lemma body_of_header (i : nat) (cap : str) :
  1 <= i <= 16 ->
  (cap = [] -> section_body (header i ++ cap) = None)
  /\ (forall r, cap = NL :: r ->
        section_body (header i ++ cap) = nonempty_opt (strip r)).
Proof.
  intros Hi. destruct (@split1_header (header i) [] (header_no_NL Hi)) as [H1 H2].
  split.
  - intros ->. unfold section_body, split1. rewrite app_nil_r, H1. reflexivity.
  - intros r ->. unfold section_body, split1. rewrite H2. cbn [rev app].
    now destruct (strip r).
Qed.

Lemma strip_cons_NL (r : str) : strip (NL :: r) = strip r.
Proof. reflexivity. Qed.

Lemma lstrip_app_cases (r s : str) :
  lstrip (r ++ s) = match lstrip r with [] => lstrip s | _ => lstrip r ++ s end.
Proof.
  induction r as [|c r IH]; cbn [app lstrip].
  - reflexivity.
  - destruct (is_space c); [exact IH|reflexivity].
Qed.

Lemma strip_app_NL (r : str) : strip (r ++ [NL]) = strip r.
Proof.
  unfold strip. rewrite lstrip_app_cases.
  destruct (lstrip r) as [|c l]; [reflexivity|].
  unfold rstrip. now rewrite rev_app_distr.
Qed.

(** Where the capture of the last section ends in a text [s]. *)
Lemma last_split (s : str) :
  exists cap rest,
    s = cap ++ rest /\ (rest = [] \/ rest = [NL]) /\ text_end rest = true
    /\ (forall u v, cap = u ++ v -> v <> [] -> text_end (v ++ rest) = false).
Proof.
  destruct (rev s) as [|x t] eqn:E.
  - apply (f_equal (@rev ascii)) in E. rewrite rev_involutive in E. subst s.
    exists [], []. splits; auto.
    intros u v Huv Hv. symmetry in Huv. apply app_eq_nil in Huv as [_ ->].
    contradiction.
  - apply (f_equal (@rev ascii)) in E. rewrite rev_involutive in E. cbn in E.
    subst s. destruct (Ascii.eqb NL x) eqn:Ex.
    + apply Ascii.eqb_eq in Ex; subst x.
      exists (rev t), [NL]. splits; auto.
      intros u v _ Hv. destruct v as [|y v]; [contradiction|].
      cbn [app text_end]. now destruct v.
    + exists (rev t ++ [x]), []. rewrite app_nil_r. splits; auto.
      intros u v Huv Hv. rewrite app_nil_r.
      destruct v as [|y [|z v]]; [contradiction| |reflexivity].
      apply app_inj_tail in Huv as [_ ->].
      cbn [text_end]. unfold is_chr. exact Ex.
Qed.

(** *** No header of section [i] before its own *)

Lemma match_starts_header (i : nat) (b a : str) :
  ~ starts_header i a -> match_at (strict_pattern i (title i)) (Cur b a) = None.
Proof.
  intros H. destruct (match_at _ _) as [m|] eqn:E; [|reflexivity].
  exfalso. apply H.
  apply strict_match_inv in E as (ws & cap & rest & -> & Hne & Hws & _).
  exists ws, (cap ++ rest). splits; auto.
Qed.

(** After the space of a header comes its own title, not another one. *)
Lemma header_then_title (i k : nat) (ws Z tail : str) :
  1 <= i <= 16 -> 1 <= k <= 16 -> i <> k ->
  ws <> [] -> forallb is_space ws = true ->
  " "%char :: title k ++ Z = ws ++ title i ++ tail -> False.
Proof.
  intros Hi Hk Hik Hne Hws E.
  destruct ws as [|w ws]; [contradiction|]. cbn [app] in E. injection E as _ E.
  cbn [forallb] in Hws. apply andb_prop in Hws as [_ Hws].
  destruct (title_head Hk) as (t0 & t & Et & Ht0).
  destruct ws as [|w' ws].
  - cbn [app] in E. pose proof (@clash_startswith (title i) (title k) Z (titles_clash Hi Hk Hik)) as Hc.
    rewrite E, startswith_app in Hc. discriminate.
  - rewrite Et in E. cbn [app] in E. injection E as -> _.
    cbn [forallb] in Hws. apply andb_prop in Hws as [Hw _]. congruence.
Qed.

Lemma no_header_in_header (i j : nat) (h1 h2 X : str) :
  1 <= i <= 16 -> 1 <= j <= 16 -> i <> j ->
  header j = h1 ++ h2 -> h2 <> [] -> ~ starts_header i (h2 ++ X).
Proof.
  intros Hi Hj Hij E Hne (ws & tail & Es & Hws & Hsp).
  destruct (@num_digits i ltac:(lia)) as [Hni Hdi].
  destruct (@num_digits j ltac:(lia)) as [Hnj Hdj].
  unfold header in E. apply app_eq_app in E as [l [[E1 E2] | [E1 E2]]].
  - (* [h2] begins in the ordinal of the header *)
    subst h2. rewrite E1, forallb_app in Hdj. apply andb_prop in Hdj as [_ Hl].
    rewrite <- !app_assoc in Es.
    change (lit ". " ++ title j ++ X) with ("."%char :: " "%char :: title j ++ X) in Es.
    change (lit "." ++ ws ++ title i ++ tail)
      with ("."%char :: ws ++ title i ++ tail) in Es.
    destruct (@digit_run _ _ _ _ Hl Hdi Es) as [_ E3].
    exact (@header_then_title i j ws X tail Hi Hj Hij Hws Hsp E3).
  - (* [h2] begins after the ordinal *)
    pose proof (header_tail_no_digit Hj) as Hnd.
    rewrite E2, forallb_app in Hnd. apply andb_prop in Hnd as [_ Hnd].
    destruct h2 as [|x h2]; [contradiction|].
    cbn [forallb] in Hnd. apply andb_prop in Hnd as [Hx _].
    destruct (num i) as [|d ds]; [contradiction|].
    cbn [app] in Es. injection Es as -> _.
    cbn [forallb] in Hdi. apply andb_prop in Hdi as [Hd _].
    rewrite Hd in Hx. discriminate.
Qed.

Lemma no_header_in_clean (i k : nat) (u1 u2 Z : str) :
  1 <= i <= 16 -> 1 <= k <= 16 ->
  has_dds (u1 ++ u2) = false -> u2 <> [] ->
  ~ starts_header i (u2 ++ header k ++ Z).
Proof.
  intros Hi Hk Hclean Hne (ws & tail & Es & Hws & Hsp).
  destruct (@num_digits i ltac:(lia)) as [Hni Hdi].
  destruct (@num_digits k ltac:(lia)) as [Hnk Hdk].
  destruct ws as [|c ws']; [contradiction|].
  assert (Hc : is_space c = true)
    by (cbn [forallb] in Hsp; now apply andb_prop in Hsp as [Hc _]).
  unfold header in Es. rewrite <- !app_assoc in Es.
  change (lit ". " ++ title k ++ Z) with ("."%char :: " "%char :: title k ++ Z) in Es.
  change (lit "." ++ (c :: ws') ++ title i ++ tail)
    with ("."%char :: c :: ws' ++ title i ++ tail) in Es.
  destruct (@clean_cross u1 u2 (num i) (num k) _ _ c Hclean Hne Hni Hdi Hc Hnk Hdk Es)
    as [En Er].
  destruct (Nat.eq_dec i k) as [<-|Hik].
  - apply (f_equal (@length ascii)) in En. rewrite length_app in En.
    destruct u2; [contradiction|]. cbn [length] in En. lia.
  - apply (@header_then_title i k (c :: ws') Z tail Hi Hk Hik);
      [discriminate|exact Hsp|exact Er].
Qed.

(** *** Extraction from a well-formed document *)

Section WellFormed.

Variable p : str.
Variable body : nat -> str.

(** No stray marker in the preamble or in a body. *)
Hypothesis p_clean : has_dds p = false.
Hypothesis body_clean : forall j, 1 <= j <= 16 -> has_dds (body j) = false.

(** Every header ends its line. *)
Hypothesis body_line :
  forall j, 1 <= j <= 16 -> body j = [] \/ exists r, body j = NL :: r.

Variable i : nat.
Hypothesis i_range : 1 <= i <= 16.

Lemma sections_from_header (j n : nat) :
  sections_from body j (S n) = header j ++ body j ++ sections_from body (S j) n.
Proof. reflexivity. Qed.

(** The search for the strict pattern of [i] passes the sections before
    section [i]. *)
Lemma search_reaches_section (n j : nat) (b : str) :
  j + n = i -> 1 <= j ->
  exists b',
    search_from (strict_pattern i (title i)) b
                (sections_from body j (n + (17 - i)))
    = search_from (strict_pattern i (title i)) b'
                  (sections_from body i (17 - i)).
Proof.
  revert j b; induction n as [|n IH]; intros j b Hj H1.
  - replace j with i by lia. now exists b.
  - assert (Hjr : 1 <= j <= 16) by lia.
    destruct (IH (S j) (rev (body j) ++ rev (header j) ++ b)) as [b' Hb'];
      [lia|lia|].
    exists b'. rewrite <- Hb'.
    assert (Hq : exists q, n + (17 - i) = S q) by (exists (n + (16 - i)); lia).
    destruct Hq as [q Eq]. cbn [Nat.add]. rewrite Eq.
    rewrite (sections_from_header j (S q)).
    rewrite search_from_skip.
    + rewrite search_from_skip; [reflexivity|].
      intros u1 u2 E Hne. apply match_starts_header.
      rewrite sections_from_header.
      apply no_header_in_clean with (u1 := u1); auto; [lia|].
      rewrite <- E. now apply body_clean.
    + intros u1 u2 E Hne. apply match_starts_header.
      apply no_header_in_header with (j := j) (h1 := u1); auto. lia.
Qed.

(** The capture of section [i] and what follows it in the document. *)
Lemma section_capture :
  exists cap rest,
    sections_from body i (17 - i) = header i ++ cap ++ rest
    /\ (cap = [] \/ exists r, cap = NL :: r)
    /\ strip cap = strip (body i)
    /\ boundary i rest = true
    /\ (forall u v, cap = u ++ v -> v <> [] -> boundary i (v ++ rest) = false).
Proof.
  destruct (Nat.eq_dec i 16) as [E16|Hlt].
  - (* the last section *)
    destruct (last_split (body i)) as (cap & rest & Eb & Hrest & Hend & Hmin).
    exists cap, rest. replace (17 - i) with 1 by lia. cbn [sections_from].
    rewrite app_nil_r, Eb. splits; auto.
    + specialize (body_line i_range). rewrite Eb in body_line.
      destruct cap as [|c cap]; [now left|right].
      destruct body_line as [Hb|(r & Hb)]; [discriminate|].
      cbn [app] in Hb. injection Hb as -> _. now exists cap.
    + destruct Hrest as [->| ->]; [now rewrite app_nil_r|].
      now rewrite strip_app_NL.
    + unfold boundary. rewrite Hend. apply orb_true_r.
    + intros u v Ec Hv. unfold boundary. rewrite (Hmin u v Ec Hv), orb_false_r.
      destruct (marker_at (i + 1) (v ++ rest)) eqn:Em; [|reflexivity].
      exfalso. apply marker_at_inv in Em as (c & r & Em & Hc).
      destruct (@num_digits (i + 1) ltac:(lia)) as [Hn Hd].
      pose proof (body_clean i_range) as Hclean.
      rewrite Eb, Ec, <- app_assoc in Hclean. apply has_dds_suffix in Hclean.
      rewrite Em in Hclean.
      change (lit "." ++ c :: r) with ("."%char :: c :: r) in Hclean.
      pose proof (@marker_form_dds [] (num (i + 1)) r c Hn Hd Hc) as Hm.
      cbn [app] in Hm. rewrite Hm in Hclean. discriminate.
  - (* a section followed by the next header *)
    exists (body i), (sections_from body (S i) (16 - i)).
    replace (17 - i) with (S (16 - i)) by lia. rewrite sections_from_header.
    splits; auto.
    + replace (16 - i) with (S (15 - i)) by lia. rewrite sections_from_header.
      unfold boundary. replace (i + 1) with (S i) by lia.
      rewrite header_eq, <- !app_assoc. cbn [app].
      rewrite (@marker_at_intro (S i) " "%char); reflexivity.
    + intros u v Ec Hv. replace (16 - i) with (S (15 - i)) by lia.
      rewrite sections_from_header. unfold boundary. apply orb_false_intro.
      * destruct (marker_at _ _) eqn:Em; [|reflexivity].
        exfalso. apply marker_at_inv in Em as (c & r & Em & Hc).
        replace (i + 1) with (S i) in Em by lia.
        destruct (@num_digits (S i) ltac:(lia)) as [Hn Hd].
        pose proof (body_clean i_range) as Hclean. rewrite Ec in Hclean.
        unfold header in Em. rewrite <- !app_assoc in Em.
        change (lit ". " ++ title (S i) ++ body (S i) ++ sections_from body (S (S i)) (15 - i))
          with ("."%char :: " "%char :: title (S i) ++ body (S i)
                ++ sections_from body (S (S i)) (15 - i)) in Em.
        change (lit "." ++ c :: r) with ("."%char :: c :: r) in Em.
        destruct (@clean_cross u v (num (S i)) (num (S i)) _ _ c
                    Hclean Hv Hn Hd Hc Hn Hd Em) as [En _].
        apply (f_equal (@length ascii)) in En. rewrite length_app in En.
        destruct v; [contradiction|]. cbn [length] in En. lia.
      * destruct v as [|y v]; [contradiction|]. cbn [app text_end].
        destruct (@num_digits (S i) ltac:(lia)) as [Hn _].
        unfold header. destruct (num (S i)); [contradiction|].
        destruct v; reflexivity.
Qed.

(** The strict pattern of [i] matches in the document, and its capture is
    the one of [section_capture]. *)
Lemma strict_search_in_document :
  exists m cap,
    re_search (strict_pattern i (title i)) (document p body) = Some m
    /\ group 1 m = cap
    /\ (cap = [] \/ exists r, cap = NL :: r)
    /\ strip cap = strip (body i).
Proof.
  destruct section_capture as (cap & rest & Es & Hcap & Hstrip & Hb & Hmin).
  destruct (title_head i_range) as (t0 & t & Et & Ht0).
  unfold re_search, document.
  rewrite search_from_skip.
  - destruct (@search_reaches_section (i - 1) 1 (rev p ++ [])) as [b' Hs];
      [lia|lia|].
    replace (i - 1 + (17 - i)) with 16 in Hs by lia. rewrite Hs, Es.
    destruct (@strict_match_fwd i (title i) [" "%char] cap rest b')
      as (m & Hm & Hg); auto.
    + discriminate.
    + rewrite Et. exact Ht0.
    + exists m, cap. splits; auto.
      apply search_from_here. rewrite header_eq, <- !app_assoc. exact Hm.
  - intros u1 u2 E Hne. apply match_starts_header.
    change 16 with (S 15). rewrite sections_from_header.
    apply no_header_in_clean with (u1 := u1); auto; [lia|].
    now rewrite <- E.
Qed.

(** The stored text, the title and the body of section [i]. *)
Lemma section_of_document :
  dict_get (parse_sections (document p body)) (num i)
    = Some (section_text (document p body) i)
  /\ section_heading (num i) (section_text (document p body) i) = title i
  /\ section_body (section_text (document p body) i)
     = nonempty_opt (strip (body i)).
Proof.
  destruct strict_search_in_document as (m & cap & Hs & Hg & Hcap & Hstrip).
  assert (E : section_text (document p body) i = header i ++ cap).
  { unfold section_text. fold (num i) (title i). rewrite Hs, Hg.
    unfold header. now rewrite <- !app_assoc. }
  splits.
  - now apply parse_sections_get.
  - rewrite E. now apply heading_of_header.
  - rewrite E, <- Hstrip. destruct (body_of_header cap i_range) as [H0 H1].
    destruct Hcap as [->|(r & ->)].
    + now rewrite H0.
    + rewrite (H1 r eq_refl). now rewrite strip_cons_NL.
Qed.

End WellFormed.

(** C2, a text with the sixteen headers in order and no stray marker, in
    which the header of section 1 is followed by a word on its line: the
    title of section 1 is then the whole line, and the body is what follows
    the line, not all the text between the headers 1 and 2. *)
Lemma title_takes_the_rest_of_the_line :
  forallb (fun j => negb (has_dds (same_line_bodies j))) (range 1 17) = true
  /\ section_heading (num 1) (section_text (document [] same_line_bodies) 1)
     = lit "Introduction overview"
  /\ title 1 = lit "Introduction"
  /\ section_body (section_text (document [] same_line_bodies) 1)
     = Some (lit "Text")
  /\ strip (same_line_bodies 1) = lit "overview" ++ [NL] ++ lit "Text".
Proof. splits; vm_compute; reflexivity. Qed.

(** C2 (amended): in a text made of a preamble and the sixteen headers
    "1. Introduction" ... "16. Points Requiring Further Clarification" in
    order, each followed by its body, where neither the preamble nor a
    body holds a stray marker (a digit, a period and a whitespace
    character in a row) and every header ends its line (its body is empty
    or begins with a line break), extraction gives, for each ordinal i in
    1..16, the default title of i as the title and the trimmed body as the
    body (no body when it trims to nothing); for i = 16 the body is the
    text from the header to the end.  The blocks of the section are the
    heading, the formatted body and a spacer. *)
Theorem sections_of_well_formed_document (p : str) (body : nat -> str) (i : nat) :
  has_dds p = false ->
  (forall j, 1 <= j <= 16 -> has_dds (body j) = false) ->
  (forall j, 1 <= j <= 16 -> body j = [] \/ exists r, body j = NL :: r) ->
  1 <= i <= 16 ->
  dict_get (parse_sections (document p body)) (num i)
    = Some (section_text (document p body) i)
  /\ section_heading (num i) (section_text (document p body) i) = title i
  /\ section_body (section_text (document p body) i)
     = nonempty_opt (strip (body i))
  /\ section_blocks (document p body) i
     = Paragraph (header i) heading_style
       :: match nonempty_opt (strip (body i)) with
          | Some content_text => add_content_with_formatting content_text []
          | None => []
          end
       ++ [Spacer 1 2].
Proof.
  intros Hp Hclean Hline Hi.
  destruct (@section_of_document p body Hp Hclean Hline i Hi)
    as (Hget & Hhead & Hbody).
  splits; auto.
  unfold section_blocks. now rewrite Hhead, Hbody.
Qed.

(** C2 on a sample document, at section 4 and at the last section. *)
Lemma sections_of_well_formed_document_witness :
  (section_heading (num 4) (section_text (document sample_preamble sample_bodies) 4)
   = lit "Functional Requirements"
   /\ section_body (section_text (document sample_preamble sample_bodies) 4)
      = Some (lit "FR01|Login|High|None"))
  /\ (section_heading (num 16) (section_text (document sample_preamble sample_bodies) 16)
      = lit "Points Requiring Further Clarification"
      /\ section_body (section_text (document sample_preamble sample_bodies) 16)
         = Some (lit "Some text. More text.")).
Proof.
  assert (Hp : has_dds sample_preamble = false) by (vm_compute; reflexivity).
  assert (Hclean : forall j, 1 <= j <= 16 -> has_dds (sample_bodies j) = false).
  { intros j _. unfold sample_bodies. destruct (j =? 4); vm_compute; reflexivity. }
  assert (Hline : forall j, 1 <= j <= 16 ->
                    sample_bodies j = [] \/ exists r, sample_bodies j = NL :: r).
  { intros j _. right. unfold sample_bodies. destruct (j =? 4); eexists; reflexivity. }
  split.
  - destruct (@sections_of_well_formed_document sample_preamble sample_bodies 4
                Hp Hclean Hline ltac:(lia)) as (_ & Hh & Hb & _).
    split; [exact Hh|exact Hb].
  - destruct (@sections_of_well_formed_document sample_preamble sample_bodies 16
                Hp Hclean Hline ltac:(lia)) as (_ & Hh & Hb & _).
    split; [exact Hh|exact Hb].
Defined.

(** * Further properties of [PDFGenerator] *)

(** ** Matches lie in the subject *)

Lemma later_refl (c : cursor) : later c c.
Proof. now exists []. Qed.

Lemma later_trans (c1 c2 c3 : cursor) : later c1 c2 -> later c2 c3 -> later c1 c3.
Proof.
  intros (u & Ha & Hb) (v & Ha' & Hb'). exists (u ++ v).
  rewrite Ha, Ha', Hb', Hb, rev_app_distr, <- !app_assoc. now split.
Qed.

Lemma later_step (b a u : str) : later (Cur b (u ++ a)) (Cur (rev u ++ b) a).
Proof. now exists u. Qed.

(** A continuation is only ever called at or after the cursor. *)
Lemma exec_later (r : regex) (k : cont) (c : cursor) (g : groups) res :
  exec r k c g = Some res ->
  exists c' g', later c c' /\ k c' g' = Some res.
Proof.
  revert k c g; induction r as [|s|p|gr p|r1 IH1 r2 IH2|r1 IH1 r2 IH2|n r IH|r IH| | |];
    intros k c g H.
  - exists c, g. split; [apply later_refl|exact H].
  - destruct c as [b a]. apply exec_chars_inv in H as (a' & -> & H).
    eexists; eexists. split; [apply later_step|exact H].
  - destruct c as [b a]. cbn [exec before after] in H.
    destruct a as [|x a]; [discriminate|]. destruct (p x); [|discriminate].
    eexists; eexists. split; [exact (later_step b a [x])|exact H].
  - destruct c as [b a]. rewrite exec_star in H. destruct gr.
    + apply star_greedy_inv in H as (u & v & -> & _ & H).
      eexists; eexists. split; [apply later_step|exact H].
    + apply star_lazy_inv in H as (u & v & -> & _ & H & _).
      eexists; eexists. split; [apply later_step|exact H].
  - rewrite exec_seq in H. apply IH1 in H as (c1 & g1 & L1 & H).
    apply IH2 in H as (c2 & g2 & L2 & H).
    exists c2, g2. split; [exact (later_trans L1 L2)|exact H].
  - rewrite exec_alt in H. destruct (exec r1 k c g) as [res1|] eqn:E.
    + injection H as <-. now apply IH1 in E.
    + now apply IH2 in H.
  - rewrite exec_grp in H. apply IH in H as (c' & g' & L & H).
    eexists; eexists. split; [exact L|exact H].
  - rewrite exec_ahead in H. destruct (exec r accept c g) as [[e g']|]; [|discriminate].
    exists c, g'. split; [apply later_refl|exact H].
  - rewrite exec_bol in H. destruct (at_bol c); [|discriminate].
    exists c, g. split; [apply later_refl|exact H].
  - rewrite exec_eol in H. destruct (at_eol c); [|discriminate].
    exists c, g. split; [apply later_refl|exact H].
  - cbn [exec] in H. destruct (at_end c); [|discriminate].
    exists c, g. split; [apply later_refl|exact H].
Qed.

(** What [group(0)] is: the text from where the match begins to where it
    ends. *)
Lemma match_at_span (r : regex) (b a : str) m :
  match_at r (Cur b a) = Some m ->
  m_start m = Cur b a
  /\ a = group 0 m ++ after (m_end m)
  /\ before (m_end m) = rev (group 0 m) ++ b.
Proof.
  unfold match_at. destruct (exec r accept (Cur b a) []) as [[e g]|] eqn:E;
    [|discriminate].
  intros H; injection H as <-.
  apply exec_later in E as (c' & g' & (u & Ha & Hb) & E).
  unfold accept in E. injection E as -> ->. cbn [before after] in *.
  cbn [m_start m_end]. unfold group. cbn [m_start m_end].
  destruct e as [eb ea]. cbn [before after] in *. subst a eb.
  rewrite between_app. splits; reflexivity.
Qed.

(** A match found by [re.search] is a piece of the text. *)
Lemma search_span (r : regex) (s : str) m :
  re_search r s = Some m ->
  exists pre, s = pre ++ group 0 m ++ after (m_end m)
    /\ match_at r (Cur (rev pre) (group 0 m ++ after (m_end m))) = Some m.
Proof.
  intros H. unfold re_search in H.
  apply search_from_inv in H as (pre & a & -> & Hm & _).
  rewrite app_nil_r in Hm.
  destruct (match_at_span _ _ _ Hm) as (_ & Ea & _).
  exists pre. rewrite <- Ea. now split.
Qed.

(** ** Trimmed text *)

Lemma lstrip_idem (s : str) : lstrip (lstrip s) = lstrip s.
Proof.
  pose proof (lstrip_head s) as H. destruct (lstrip s) as [|c r]; [reflexivity|].
  now apply lstrip_nonspace.
Qed.

Lemma rstrip_idem (s : str) : rstrip (rstrip s) = rstrip s.
Proof. unfold rstrip. now rewrite rev_involutive, lstrip_idem. Qed.

Lemma lstrip_rstrip (y : str) :
  match y with [] => True | c :: _ => is_space c = false end ->
  lstrip (rstrip y) = rstrip y.
Proof.
  intros Hy. destruct (rstrip_spec y) as (ws & E & _).
  destruct (rstrip y) as [|c r]; [reflexivity|].
  rewrite E in Hy. cbn [app] in Hy. now apply lstrip_nonspace.
Qed.

Lemma strip_idem (s : str) : strip (strip s) = strip s.
Proof.
  unfold strip. rewrite lstrip_rstrip by apply lstrip_head. apply rstrip_idem.
Qed.

Lemma strip_forallb (f : ascii -> bool) (s : str) :
  forallb f s = true -> forallb f (strip s) = true.
Proof.
  intros H. destruct (strip_spec s) as (lead & trail & E & _).
  rewrite E, !forallb_app in H. apply andb_prop in H as [_ H].
  now apply andb_prop in H as [H _].
Qed.

Lemma lstrip_spaces (s : str) : forallb is_space s = true -> lstrip s = [].
Proof.
  induction s as [|c s IH]; [reflexivity|]. cbn [forallb lstrip]. intros H.
  apply andb_prop in H as [Hc H]. rewrite Hc. now apply IH.
Qed.

Lemma strip_spaces (s : str) : forallb is_space s = true -> strip s = [].
Proof. intros H. unfold strip. now rewrite lstrip_spaces. Qed.

(** ** Patterns without groups, and patterns that always match *)

(** A pattern without groups hands the groups on as they are. *)
Lemma exec_no_groups (r : regex) (k : cont) (c : cursor) (g : groups) res :
  no_groups r = true ->
  exec r k c g = Some res ->
  exists c', later c c' /\ k c' g = Some res.
Proof.
  revert k c g res;
    induction r as [|s|p|gr p|r1 IH1 r2 IH2|r1 IH1 r2 IH2|n r IH|r IH| | |];
    intros k c g res Hn H; cbn [no_groups] in Hn.
  - exists c. split; [apply later_refl|exact H].
  - destruct c as [b a]. apply exec_chars_inv in H as (a' & -> & H).
    eexists. split; [apply later_step|exact H].
  - destruct c as [b a]. cbn [exec before after] in H.
    destruct a as [|x a]; [discriminate|]. destruct (p x); [|discriminate].
    eexists. split; [exact (later_step b a [x])|exact H].
  - destruct c as [b a]. rewrite exec_star in H. destruct gr.
    + apply star_greedy_inv in H as (u & v & -> & _ & H).
      eexists. split; [apply later_step|exact H].
    + apply star_lazy_inv in H as (u & v & -> & _ & H & _).
      eexists. split; [apply later_step|exact H].
  - apply andb_prop in Hn as [Hn1 Hn2].
    rewrite exec_seq in H. apply IH1 in H as (c1 & L1 & H); [|exact Hn1].
    apply IH2 in H as (c2 & L2 & H); [|exact Hn2].
    exists c2. split; [exact (later_trans L1 L2)|exact H].
  - apply andb_prop in Hn as [Hn1 Hn2].
    rewrite exec_alt in H. destruct (exec r1 k c g) as [res1|] eqn:E.
    + injection H as <-. now apply IH1 in E.
    + now apply IH2 in H.
  - discriminate.
  - rewrite exec_ahead in H.
    destruct (exec r accept c g) as [[e g']|] eqn:E; [|discriminate].
    apply IH in E as (c1 & _ & E); [|exact Hn].
    unfold accept in E. injection E as _ <-.
    exists c. split; [apply later_refl|exact H].
  - rewrite exec_bol in H. destruct (at_bol c); [|discriminate].
    exists c. split; [apply later_refl|exact H].
  - rewrite exec_eol in H. destruct (at_eol c); [|discriminate].
    exists c. split; [apply later_refl|exact H].
  - cbn [exec] in H. destruct (at_end c); [|discriminate].
    exists c. split; [apply later_refl|exact H].
Qed.

(** A lookahead without groups changes neither the cursor nor the groups. *)
Lemma exec_ahead_plain (r : regex) (c : cursor) (g : groups) res :
  no_groups r = true ->
  exec (Ahead r) accept c g = Some res -> res = (c, g).
Proof.
  intros Hn H. rewrite exec_ahead in H.
  destruct (exec r accept c g) as [[e g']|] eqn:E; [|discriminate].
  apply exec_no_groups in E as (c1 & _ & E); [|exact Hn].
  unfold accept in E, H. injection E as _ <-. now injection H as <-.
Qed.

Lemma ends_line_eol : ends_line (Alt (Chars [NL]) Eol).
Proof.
  intros b a g. rewrite exec_ahead, exec_alt, exec_chars, exec_eol.
  cbn [before after]. unfold at_eol, line_end, is_chr. cbn [after].
  destruct a as [|x a]; [reflexivity|]. cbn [eat].
  destruct (Ascii.eqb NL x) eqn:E; [reflexivity|].
  destruct a; reflexivity.
Qed.

Lemma ends_line_endz : ends_line (Alt (Chars [NL]) EndZ).
Proof.
  intros b a g. rewrite exec_ahead, exec_alt, exec_chars.
  cbn [before after exec]. unfold at_end, line_end, is_chr. cbn [after].
  destruct a as [|x a]; [reflexivity|]. cbn [eat].
  destruct (Ascii.eqb NL x) eqn:E; reflexivity.
Qed.

(** A lazy run of characters other than the line break always finds the
    end of its line. *)
Lemma star_lazy_line (K : cont) (a b : str) (g : groups) :
  (forall b' a', line_end a' = true -> exists res, K (Cur b' a') g = Some res) ->
  exists res, star_lazy dot K b a g = Some res.
Proof.
  intros HK. revert b; induction a as [|x a IH]; intros b; cbn [star_lazy].
  - destruct (HK b [] eq_refl) as [res ->]. now exists res.
  - destruct (K (Cur b (x :: a)) g) as [res|] eqn:E; [now exists res|].
    destruct (dot x) eqn:Ex; [apply IH|].
    destruct (HK b (x :: a)) as [res E']; [|congruence].
    unfold dot in Ex. cbn [line_end]. now destruct (is_chr NL x).
Qed.

(** The title capture [(.*?)] before such a lookahead: it always succeeds,
    and takes the text up to the end of the line. *)
Lemma line_capture (X : regex) (b a : str) (g : groups) :
  ends_line X ->
  exists u v,
    a = u ++ v /\ forallb dot u = true /\ line_end v = true
    /\ exec (Seq (Grp 1 (Star false dot)) (Ahead X)) accept (Cur b a) g
       = Some (Cur (rev u ++ b) v, (1, u) :: g).
Proof.
  intros HX. rewrite exec_seq, exec_grp, exec_star.
  match goal with |- context [star_lazy dot ?K b a g] =>
    destruct (@star_lazy_line K a b g) as [res H]
  end.
  { intros b' a' Hend. rewrite HX, Hend. now eexists. }
  pose proof H as H'.
  apply star_lazy_inv in H' as (u & v & -> & Hu & Hk & _).
  rewrite HX in Hk. destruct (line_end v) eqn:Hv; [|discriminate].
  rewrite between_app in Hk.
  exists u, v. splits; auto. now rewrite H, <- Hk.
Qed.

Lemma line_capture_inv (X : regex) (b a : str) (g : groups) e g' :
  ends_line X ->
  exec (Seq (Grp 1 (Star false dot)) (Ahead X)) accept (Cur b a) g = Some (e, g') ->
  exists u, a = u ++ after e /\ forallb dot u = true /\ g' = (1, u) :: g.
Proof.
  intros HX H. destruct (@line_capture X b a g HX) as (u & v & Ea & Hu & _ & E).
  rewrite E in H. injection H as <- <-. now exists u.
Qed.

(** The first line of a text is determined. *)
Lemma dot_split_unique (u t v tail : str) :
  forallb dot u = true -> line_end v = true ->
  forallb dot t = true -> line_end tail = true ->
  u ++ v = t ++ tail -> u = t /\ v = tail.
Proof.
  revert t; induction u as [|x u IH]; intros [|y t] Hu Hv Ht Htail E;
    cbn [app forallb] in *.
  - now split.
  - subst v. apply andb_prop in Ht as [Hy _]. unfold dot in Hy.
    cbn [line_end] in Hv. rewrite Hv in Hy. discriminate.
  - subst tail. apply andb_prop in Hu as [Hx _]. unfold dot in Hx.
    cbn [line_end] in Htail. rewrite Htail in Hx. discriminate.
  - injection E as -> E. apply andb_prop in Hu as [_ Hu].
    apply andb_prop in Ht as [_ Ht].
    destruct (IH t Hu Hv Ht Htail E) as [-> ->]. now split.
Qed.

Lemma star_greedy_total (p : ascii -> bool) (K : cont) (a b : str) (g : groups) :
  (forall c, exists res, K c g = Some res) ->
  exists res, star_greedy p K b a g = Some res.
Proof.
  intros HK. revert b; induction a as [|x a IH]; intros b; cbn [star_greedy].
  - apply HK.
  - destruct (p x); [|apply HK].
    destruct (IH (x :: b)) as [res ->]. now exists res.
Qed.

(** *** The markers [\d+\.\s+] and [\d+\.\d+\s+] *)

Lemma dot_is_no_digit (x : ascii) (a : str) :
  is_digit x = true -> startswith (lit ".") (x :: a) = false.
Proof.
  intros H. change (lit ".") with ["."%char]. cbn [startswith].
  now rewrite (digit_not_dot _ H).
Qed.

(** ** The project name is one trimmed line *)

Lemma project_name_group (b a : str) m :
  match_at project_name_re (Cur b a) = Some m ->
  group 1 m <> [] /\ forallb not_nl (group 1 m) = true.
Proof.
  unfold match_at, project_name_re.
  destruct (exec _ accept (Cur b a) []) as [[e g]|] eqn:E; [|discriminate].
  intros H; injection H as <-.
  rewrite exec_seq in E. apply exec_chars_inv in E as (a1 & -> & E).
  rewrite exec_seq in E. apply exec_no_groups in E as (c1 & _ & E); [|reflexivity].
  rewrite exec_seq in E. apply exec_no_groups in E as ([b2 a2] & _ & E); [|reflexivity].
  rewrite exec_grp in E.
  apply exec_plus_greedy_inv in E as (u & v & -> & Hne & Hu & E).
  unfold accept in E. rewrite between_app in E. injection E as _ <-.
  unfold group. cbn [m_groups group_get Nat.eqb]. now split.
Qed.

(** X1: whatever the text, the project name that [extract_project_name]
    returns has no line break in it and no whitespace at either end. *)
Theorem extract_project_name_one_line (content : str) :
  strip (extract_project_name content) = extract_project_name content
  /\ forallb not_nl (extract_project_name content) = true.
Proof.
  unfold extract_project_name.
  destruct (re_search project_name_re content) as [m|] eqn:E.
  - apply search_span in E as (pre & _ & Hm).
    apply project_name_group in Hm as [_ Hnl].
    split; [apply strip_idem|now apply strip_forallb].
  - split; reflexivity.
Qed.

(** ** The title line of a stored section *)

(** In each of its three cases the first loop stores a text that begins
    with the ordinal, a period and a whitespace character. *)
Lemma section_text_marker (content : str) (i : nat) :
  exists w x, section_text content i = num i ++ lit "." ++ w :: x
              /\ is_space w = true.
Proof.
  unfold section_text. fold (num i) (title i).
  destruct (re_search (strict_pattern i (title i)) content) as [m|] eqn:Es.
  - exists " "%char. eexists. split; reflexivity.
  - destruct (re_search (simple_pattern i) content) as [m|] eqn:El.
    + unfold re_search in El. apply search_from_inv in El as (pre & a & _ & Hm & _).
      apply simple_match_inv in Hm as (ws & cap & rest & _ & Hne & Hws & _ & _ & Hg).
      destruct ws as [|w ws]; [contradiction|].
      cbn [forallb] in Hws. apply andb_prop in Hws as [Hw _].
      exists w, (ws ++ cap). split; [exact Hg|exact Hw].
    + exists " "%char. eexists. split; reflexivity.
Qed.

Lemma title_pattern_matches (n x : str) (w : ascii) :
  is_space w = true ->
  exists m, re_match (title_pattern n) (n ++ lit "." ++ w :: x) = Some m
            /\ forallb dot (group 1 m) = true.
Proof.
  intros Hw. unfold re_match, match_at, title_pattern.
  rewrite exec_seq, exec_chars_app, exec_seq, exec_chars_app, exec_seq, exec_plus.
  rewrite exec_cls_ok by exact Hw. rewrite exec_star.
  match goal with |- context [star_greedy is_space ?K ?b x []] =>
    destruct (@star_greedy_total is_space K x b []) as [[e g] H]
  end.
  { intros [b' a']. destruct (@line_capture _ b' a' [] ends_line_eol)
      as (u & v & _ & _ & _ & E). rewrite E. now eexists. }
  rewrite H. eexists. split; [reflexivity|].
  apply star_greedy_inv in H as (u & v & _ & _ & H).
  apply line_capture_inv in H as (t & _ & Ht & ->); [|exact ends_line_eol].
  exact Ht.
Qed.

(** X2: in the second loop of [parse_and_add_content] the title pattern
    always matches the stored text of a section, so the default title is
    never needed there; and the heading text it finds has no line break. *)
Theorem section_heading_is_matched (content : str) (i : nat) :
  exists m,
    re_match (title_pattern (num i)) (section_text content i) = Some m
    /\ section_heading (num i) (section_text content i) = group 1 m
    /\ forallb dot (group 1 m) = true.
Proof.
  destruct (section_text_marker content i) as (w & x & E & Hw).
  destruct (@title_pattern_matches (num i) x w Hw) as (m & Hm & Hd).
  exists m. unfold section_heading. rewrite E, Hm. splits; auto.
Qed.

(** ** What the formatter appends *)

Lemma runs_formatted (ls : list str) (bs : list flowable) :
  runs ls bs ->
  Forall (fun l => l <> [] /\ strip l = l) ls ->
  Forall formatted_block bs.
Proof.
  induction 1 as [|l ls bs Hl H IH|its ls bs Hne Hits Hls H IH]; intros Hall.
  - constructor.
  - inversion Hall as [|? ? [Hn Ht] Hall']; subst.
    constructor; [cbn; auto|now apply IH].
  - apply Forall_app in Hall as [Hall1 Hall2].
    constructor; [|now apply IH]. cbn. split.
    + destruct its; [contradiction|discriminate].
    + apply Forall_map. apply Forall_forall. intros l _. apply strip_idem.
Qed.

Lemma body_lines_trimmed (content : str) :
  Forall (fun l => l <> [] /\ strip l = l) (body_lines content).
Proof.
  unfold body_lines. apply Forall_forall. intros l Hl.
  apply filter_In in Hl as [Hin Hnb]. apply in_map_iff in Hin as (x & <- & _).
  split; [|apply strip_idem]. intros E. rewrite E in Hnb. discriminate.
Qed.

(** The paragraphs of a text without a bullet line. *)
Lemma paragraphs_formatted (content : str) :
  Forall formatted_block
    (map (fun p => Paragraph p normal_style)
         (filter nonblank (map strip (split [NL; NL] content)))).
Proof.
  apply Forall_map. apply Forall_forall. intros t Ht.
  apply filter_In in Ht as [Hin Hnb]. apply in_map_iff in Hin as (x & <- & _).
  cbn. splits; auto; [|apply strip_idem].
  intros E'. rewrite E' in Hnb. discriminate.
Qed.

(** What the formatter makes of the body of a stored section. *)
Lemma section_body_formatted (content : str) (i : nat) :
  Forall formatted_block
    match section_body (section_text content i) with
    | Some content_text => add_content_with_formatting content_text []
    | None => []
    end.
Proof.
  destruct (section_body (section_text content i)) as [t|]; [|constructor].
  destruct (re_search bullet_re t) as [mo|] eqn:E.
  - destruct (add_content_mixed t [] E) as (bs & -> & Hr).
    exact (runs_formatted Hr (body_lines_trimmed t)).
  - rewrite (add_content_plain t [] E). apply paragraphs_formatted.
Qed.

(** X3: the formatter only appends, and each block it appends is a
    paragraph in the normal style with a trimmed text that is not empty, or
    a list that is not empty with trimmed items: never an empty paragraph,
    an empty list, a heading, a spacer, a table or a page break. *)
Theorem add_content_blocks_shape (content : str) (st : story) :
  exists bs,
    add_content_with_formatting content st = st ++ bs
    /\ Forall formatted_block bs.
Proof.
  destruct (re_search bullet_re content) as [mo|] eqn:E.
  - destruct (add_content_mixed content st E) as (bs & Hbs & Hr).
    exists bs. split; [exact Hbs|].
    exact (runs_formatted Hr (body_lines_trimmed content)).
  - rewrite (add_content_plain content st E). eexists. split; [reflexivity|].
    apply paragraphs_formatted.
Qed.

Lemma split_from_forallb (f : ascii -> bool) (sep s cur : str) (skip : nat) :
  forallb f cur = true -> forallb f s = true ->
  Forall (fun piece => forallb f piece = true) (split_from sep skip cur s).
Proof.
  revert skip cur; induction s as [|c s IH]; intros skip cur Hcur Hs.
  - cbn. constructor; [now apply forallb_rev|constructor].
  - cbn [forallb] in Hs. apply andb_prop in Hs as [Hc Hs]. cbn [split_from].
    destruct skip as [|k]; [|now apply IH].
    destruct (startswith sep (c :: s)).
    + constructor; [now apply forallb_rev|now apply IH].
    + apply IH; [|exact Hs]. cbn. now rewrite Hc, Hcur.
Qed.

Lemma blank_no_bullet (content : str) :
  forallb is_space content = true -> re_search bullet_re content = None.
Proof.
  intros H. unfold re_search. apply search_from_none. intros u v ->.
  destruct (match_at bullet_re (Cur (rev u ++ []) v)) as [mo|] eqn:E; [|reflexivity].
  exfalso. apply bullet_re_inv in E as (_ & ws & m & c & v' & -> & _ & Hm & _).
  rewrite !forallb_app in H. apply andb_prop in H as [_ H].
  apply andb_prop in H as [_ H]. cbn [forallb] in H.
  apply andb_prop in H as [Hsp _].
  rewrite (is_marker_not_space _ Hm) in Hsp. discriminate.
Qed.

(** X4: on a text that is empty or all whitespace the formatter appends
    nothing. *)
Theorem add_content_blank (content : str) (st : story) :
  forallb is_space content = true ->
  add_content_with_formatting content st = st.
Proof.
  intros H. rewrite add_content_plain by now apply blank_no_bullet.
  assert (Hall : Forall (fun piece => forallb is_space piece = true)
                        (split [NL; NL] content))
    by (apply split_from_forallb; [reflexivity|exact H]).
  induction Hall as [|p ps Hp _ IH]; cbn [map filter].
  - apply app_nil_r.
  - rewrite (strip_spaces _ Hp). exact IH.
Qed.

Lemma add_content_blank_witness :
  add_content_with_formatting (lit "  " ++ [NL; NL] ++ lit " ") [PageBreak]
  = [PageBreak].
Proof. apply add_content_blank. vm_compute. reflexivity. Defined.

(** ** The headings of a build *)

Lemma formatted_no_heading (bs : list flowable) :
  Forall formatted_block bs ->
  filter is_heading bs = [] /\ filter is_page_break bs = [].
Proof.
  induction 1 as [|b bs Hb _ [IH1 IH2]]; [now split|].
  destruct b as [t s| | | |]; cbn in Hb; try contradiction.
  - destruct Hb as [-> _]. cbn. now split.
  - cbn. now split.
Qed.

Lemma section_blocks_heading (content : str) (i : nat) :
  filter is_heading (section_blocks content i)
  = [Paragraph (num i ++ lit ". " ++ section_heading (num i) (section_text content i))
               heading_style]
  /\ filter is_page_break (section_blocks content i) = [].
Proof.
  unfold section_blocks. cbn [filter is_heading is_page_break].
  rewrite !filter_app. cbn [filter is_heading is_page_break].
  pose proof (section_body_formatted content i) as H.
  apply formatted_no_heading in H as [-> ->]. now split.
Qed.

(** X5: whatever the text, the story of a build holds exactly sixteen
    headings, for the ordinals 1 to 16 in order, each made of the ordinal,
    a period, a space and the section's title; and exactly one page break,
    which is the block at index 23, after the cover and the table of
    contents. *)
Theorem generate_headings (date_str content : str) :
  filter is_heading (generate date_str content)
  = map (fun i => Paragraph (num i ++ lit ". "
                             ++ section_heading (num i) (section_text content i))
                            heading_style)
        (range 1 17)
  /\ filter is_page_break (generate date_str content) = [PageBreak]
  /\ nth_error (generate date_str content) 23 = Some PageBreak.
Proof.
  rewrite generate_blocks.
  assert (H : forall l,
             filter is_heading (concat (map (section_blocks content) l))
             = map (fun i => Paragraph (num i ++ lit ". "
                                ++ section_heading (num i) (section_text content i))
                               heading_style) l
             /\ filter is_page_break (concat (map (section_blocks content) l)) = []).
  { induction l as [|i l [IH1 IH2]]; [now split|].
    cbn [map concat]. rewrite !filter_app, IH1, IH2.
    destruct (section_blocks_heading content i) as [-> ->]. now split. }
  destruct (H (range 1 17)) as [H1 H2]. splits.
  - rewrite !filter_app, H1. reflexivity.
  - rewrite !filter_app, H2. reflexivity.
  - reflexivity.
Qed.

(** ** The requirements table is rectangular *)

Lemma Forall_take {A} (P : A -> Prop) (n : nat) (l : list A) :
  Forall P l -> Forall P (firstn n l).
Proof.
  intros H; revert n; induction H as [|x l Hx _ IH]; intros [|n]; cbn;
    constructor; auto.
Qed.

(** X6: the table of [add_functional_requirements_table] always has the
    header row and at least one more row, every row has exactly four
    cells, and every cell is trimmed. *)
Theorem table_rows_rectangular (content : str) :
  2 <= length (table_rows content)
  /\ Forall (fun row => length row = 4 /\ Forall (fun c => strip c = c) row)
            (table_rows content).
Proof.
  assert (Hdata : Forall (fun row => length row = 4
                                     /\ Forall (fun c => strip c = c) row)
                         (data_rows content)).
  { unfold data_rows. apply Forall_map. apply Forall_forall. intros l Hl.
    apply filter_In in Hl as [_ Hrow]. unfold is_data_row in Hrow.
    apply andb_prop in Hrow as [_ Hlen]. apply Nat.leb_le in Hlen. split.
    - rewrite length_firstn. lia.
    - apply Forall_take. unfold cells. apply Forall_map.
      apply Forall_forall. intros c _. apply strip_idem. }
  assert (Hfixed : forall row, row = header_row \/ row = placeholder_row ->
                     length row = 4 /\ Forall (fun c => strip c = c) row).
  { intros row [-> | ->]; split; try reflexivity;
      repeat constructor. }
  unfold table_rows. rewrite table_fold_spec. fold (data_rows content).
  destruct (data_rows content) as [|r rs]; cbn [app length Nat.eqb].
  - split; [cbn; lia|]. repeat constructor; apply Hfixed; auto.
  - split; [cbn; lia|]. constructor; [apply Hfixed; auto|exact Hdata].
Qed.

(** ** Ordinals as strings *)

Lemma to_uint_nonnil (n : nat) : Nat.to_uint n <> Decimal.Nil.
Proof.
  intros H. pose proof (Unsigned.of_to n) as E. rewrite H in E. cbn in E.
  subst n. discriminate H.
Qed.

Lemma num_inj (n m : nat) : num n = num m -> n = m.
Proof.
  unfold num, str_of_nat, lit. intros H.
  apply (f_equal string_of_list_ascii) in H.
  rewrite !string_of_list_ascii_of_string in H.
  apply (f_equal NilZero.uint_of_string) in H.
  rewrite !NilZero.usu in H by apply to_uint_nonnil.
  injection H as H. apply (f_equal Nat.of_uint) in H.
  now rewrite !Unsigned.of_to in H.
Qed.

Lemma titles_table : titles = map (fun i => (num i, title i)) (range 1 17).
Proof. vm_compute. reflexivity. Qed.

Lemma num_eqb_false (i n : nat) : i <> n -> str_eqb (num i) (num n) = false.
Proof. intros H. apply str_eqb_neq. intros E. apply H. now apply num_inj. Qed.

(** X7: [get_default_section_title] on the string of an ordinal: for 1 to
    16 the title is the entry of that rank in the table of contents, and
    for any other ordinal (0, 17, 18, ...) it is "Section " followed by the
    ordinal. *)
Theorem default_title_of_ordinal (n : nat) :
  (1 <= n <= 16 ->
   nth_error toc_entries (n - 1) = Some (get_default_section_title (num n)))
  /\ (n = 0 \/ 17 <= n ->
      get_default_section_title (num n) = lit "Section " ++ num n).
Proof.
  split.
  - revert n. sixteen.
  - intros Hn. unfold get_default_section_title.
    assert (H : forall l, (forall i, In i l -> i <> n) ->
                  dict_get (map (fun i => (num i, title i)) l) (num n) = None).
    { induction l as [|i l IH]; intros Hl; [reflexivity|].
      cbn [map dict_get]. rewrite num_eqb_false by (apply Hl; now left).
      apply IH. intros j Hj. apply Hl. now right. }
    rewrite titles_table, H; [reflexivity|].
    intros i Hi. apply in_range_1_17 in Hi. lia.
Qed.

Lemma default_title_of_ordinal_witness :
  nth_error toc_entries 3 = Some (get_default_section_title (lit "4"))
  /\ get_default_section_title (lit "17") = lit "Section 17".
Proof.
  split.
  - apply (proj1 (default_title_of_ordinal 4)). lia.
  - apply (proj2 (default_title_of_ordinal 17)). right. lia.
Defined.

(** ** [extract_sections] *)

Lemma dict_set_new {V} (d : dict V) (k : str) (v : V) :
  ~ In k (dict_keys d) -> dict_set d k v = d ++ [(k, v)].
Proof.
  induction d as [|[k0 v0] d IH]; cbn [dict_set dict_keys map fst app In];
    [reflexivity|].
  intros H. destruct (str_eqb k0 k) eqn:E.
  - apply str_eqb_eq in E. tauto.
  - rewrite IH; tauto.
Qed.

(** Assigning distinct new keys in turn appends the entries. *)
Lemma dict_assign_distinct {V} (kvs : list (str * V)) (d : dict V) :
  NoDup (dict_keys d ++ map fst kvs) -> dict_assign d kvs = d ++ kvs.
Proof.
  revert d; induction kvs as [|[k v] kvs IH]; intros d H.
  - cbn. now rewrite app_nil_r.
  - cbn [dict_assign fold_left fst snd].
    change (fold_left _ kvs ?d0) with (dict_assign d0 kvs).
    cbn [map fst] in H.
    assert (Hk : ~ In k (dict_keys d)).
    { apply NoDup_remove_2 in H. intros Hin. apply H. apply in_or_app. now left. }
    rewrite dict_set_new by exact Hk. rewrite IH.
    + now rewrite <- app_assoc.
    + unfold dict_keys. rewrite map_app. cbn [map fst].
      rewrite <- app_assoc. exact H.
Qed.

Lemma NoDup_nums (l : list nat) : NoDup l -> NoDup (map num l).
Proof.
  induction 1 as [|i l Hi _ IH]; cbn; constructor; [|exact IH].
  intros Hin. apply in_map_iff in Hin as (j & E & Hj).
  apply num_inj in E. now subst j.
Qed.

Lemma extract_sections_entries (content : str) :
  extract_sections content = map (extracted_section content) section_patterns.
Proof.
  unfold extract_sections.
  assert (H : forall l d,
             fold_left
               (fun sections ps =>
                  let '(pattern, section_num) := ps in
                  match re_search pattern content with
                  | Some m => dict_set sections section_num (group 0 m)
                  | None =>
                      dict_set sections section_num
                        (section_num ++ lit ". " ++ get_default_section_title section_num)
                  end) l d
             = dict_assign d (map (extracted_section content) l)).
  { induction l as [|[pat k] l IH]; intros d; [reflexivity|].
    cbn [fold_left map]. rewrite IH. unfold dict_assign. cbn [fold_left].
    f_equal. unfold extracted_section. cbn [fst snd].
    now destruct (re_search pat content). }
  rewrite H, dict_assign_distinct; [reflexivity|].
  cbn [dict_keys map app]. rewrite map_map. cbn [extracted_section fst].
  change (map (fun x => snd x) section_patterns) with (map num (range 1 17)).
  apply NoDup_nums. apply seq_NoDup.
Qed.

(** A match of a pattern that begins with a section head. *)
Lemma sec_head_match_inv (n t : string) (r : regex) (b a : str) m :
  match_at (Seq (sec_head n t) r) (Cur b a) = Some m ->
  exists ws u,
    group 0 m = lit n ++ lit "." ++ ws ++ lit t ++ u
    /\ ws <> [] /\ forallb is_space ws = true.
Proof.
  intros H. destruct (match_at_span _ _ _ H) as (_ & Ea & _).
  unfold match_at in H.
  destruct (exec _ accept (Cur b a) []) as [[e g]|] eqn:E; [|discriminate].
  injection H as <-. cbn [m_end] in Ea. unfold sec_head in E.
  rewrite !exec_seq in E. apply exec_chars_inv in E as (a1 & -> & E).
  apply exec_chars_inv in E as (a2 & -> & E).
  apply exec_plus_greedy_inv in E as (ws & a3 & -> & Hne & Hws & E).
  apply exec_chars_inv in E as (a4 & -> & E).
  apply exec_later in E as (c' & g' & (u & Hu & _) & E).
  unfold accept in E. injection E as -> ->. cbn [after] in Hu. subst a4.
  exists ws, u. splits; auto.
  remember (group 0 _) as g0 eqn:Eg. clear Eg.
  replace (lit n ++ lit "." ++ ws ++ lit t ++ u ++ after e)
    with ((lit n ++ lit "." ++ ws ++ lit t ++ u) ++ after e) in Ea
    by now rewrite <- !app_assoc.
  apply app_inv_tail in Ea. now symmetry.
Qed.

Lemma section_patterns_heads :
  Forall (fun ps => exists i n t r,
            1 <= i <= 16 /\ snd ps = num i /\ lit n = num i
            /\ fst ps = Seq (sec_head n t) r)
         section_patterns.
Proof.
  unfold section_patterns.
  repeat (apply Forall_cons;
          [match goal with
           | |- exists i n t r, _ /\ snd (Seq (sec_head ?n0 ?t0) ?r0, lit ?k) = _ /\ _ /\ _ =>
               exists (int_of_str (lit k)), n0, t0, r0;
               split; [vm_compute; split; repeat constructor|];
               split; [reflexivity|split; reflexivity]
           end|]).
  apply Forall_nil.
Qed.

(** The text under a key of [extract_sections]. *)
Lemma extract_sections_entry (content k v : str) :
  In (k, v) (extract_sections content) ->
  (exists i, 1 <= i <= 16 /\ k = num i)
  /\ (exists ws x, v = k ++ lit "." ++ ws ++ x
                   /\ ws <> [] /\ forallb is_space ws = true)
  /\ ((exists pre post, content = pre ++ v ++ post)
      \/ v = k ++ lit ". " ++ get_default_section_title k).
Proof.
  rewrite extract_sections_entries.
  intros Hin. apply in_map_iff in Hin as ([pat k0] & E & Hin).
  unfold extracted_section in E. cbn [fst snd] in E.
  injection E as -> Ev.
  pose proof section_patterns_heads as Hh. rewrite Forall_forall in Hh.
  destruct (Hh _ Hin) as (i & n & t & r & Hi & Hk & Hn & Hpat).
  cbn [fst snd] in Hk, Hpat. subst pat.
  split; [now exists i|].
  destruct (re_search _ content) as [m|] eqn:Es.
  - subst v. apply search_span in Es as (pre & Ec & Hm).
    apply sec_head_match_inv in Hm as (ws & u & Eg & Hne & Hws).
    change (between (m_start m) (m_end m)) with (group 0 m). split.
    + exists ws, (lit t ++ u). now rewrite Eg, Hn, Hk.
    + left. now exists pre, (after (m_end m)).
  - subst v. split; [|now right].
    exists (lit " "), (get_default_section_title k).
    splits; [reflexivity|discriminate|reflexivity].
Qed.


(** ** Titles and bodies at a marker *)

Lemma lstrip_split (y : str) :
  exists sp, y = sp ++ lstrip y /\ forallb is_space sp = true
    /\ match lstrip y with [] => True | x :: _ => is_space x = false end.
Proof.
  induction y as [|c y (sp & E & Hsp & Hx)]; [now exists []|].
  cbn [lstrip]. destruct (is_space c) eqn:Ec.
  - exists (c :: sp). cbn [app forallb]. rewrite Ec, Hsp. now rewrite <- E.
  - exists []. now splits.
Qed.

Lemma first_line_split (x : str) :
  exists v, x = first_line x ++ v /\ forallb dot (first_line x) = true
    /\ line_end v = true.
Proof.
  induction x as [|c x (v & E & Hd & Hv)]; [now exists []|].
  cbn [first_line]. destruct (Ascii.eqb NL c) eqn:Ec.
  - exists (c :: x). now splits.
  - exists v. cbn [app forallb]. unfold dot at 1, is_chr. rewrite Ec, Hd.
    now rewrite <- E.
Qed.

(** The marker [\d+\.\s+] passes the digits, the period and all the
    whitespace after it when what follows can be matched there. *)
Lemma section_marker_exact (K : cont) (ds y b : str) (w : ascii) (g : groups) :
  ds <> [] -> forallb is_digit ds = true -> is_space w = true ->
  (forall bb, exists res, K (Cur bb (lstrip y)) g = Some res) ->
  exists bb,
    exec section_marker K (Cur b (ds ++ "."%char :: w :: y)) g
    = K (Cur bb (lstrip y)) g.
Proof.
  intros Hne Hds Hw HK. unfold section_marker.
  destruct ds as [|d ds]; [contradiction|].
  cbn [forallb] in Hds. apply andb_prop in Hds as [Hd Hds].
  destruct (lstrip_split y) as (sp & Ey & Hsp & Hx).
  remember (lstrip y) as x eqn:Ex. clear Ex. subst y.
  rewrite exec_seq, exec_plus. cbn [app]. rewrite exec_cls_ok by exact Hd.
  rewrite exec_star, star_greedy_stop; [|exact Hds|reflexivity|].
  - rewrite exec_seq. change ("."%char :: w :: sp ++ x) with (lit "." ++ w :: sp ++ x).
    rewrite exec_chars_app, exec_plus, exec_cls_ok by exact Hw.
    eexists. rewrite exec_star.
    match goal with |- star_greedy _ _ ?b0 _ _ = _ =>
      destruct (HK (rev sp ++ b0)) as [res Hres]
    end.
    rewrite (@star_greedy_run _ _ _ _ _ _ _ Hsp Hres Hx). symmetry. exact Hres.
  - intros b' c a' g' Hy. rewrite exec_seq. apply exec_chars_fail.
    now apply dot_is_no_digit.
Qed.

(** The same for [\d+\.\d+\s+]. *)
Lemma subsection_marker_exact (K : cont) (ds ks y b : str) (w : ascii) (g : groups) :
  ds <> [] -> forallb is_digit ds = true ->
  ks <> [] -> forallb is_digit ks = true -> is_space w = true ->
  (forall bb, exists res, K (Cur bb (lstrip y)) g = Some res) ->
  exists bb,
    exec subsection_marker K (Cur b (ds ++ "."%char :: ks ++ w :: y)) g
    = K (Cur bb (lstrip y)) g.
Proof.
  intros Hne Hds Hnk Hks Hw HK. unfold subsection_marker.
  destruct ds as [|d ds]; [contradiction|].
  cbn [forallb] in Hds. apply andb_prop in Hds as [Hd Hds].
  destruct ks as [|k ks]; [contradiction|].
  cbn [forallb] in Hks. apply andb_prop in Hks as [Hk Hks].
  destruct (lstrip_split y) as (sp & Ey & Hsp & Hx).
  remember (lstrip y) as x eqn:Ex. clear Ex. subst y.
  rewrite exec_seq, exec_plus. cbn [app]. rewrite exec_cls_ok by exact Hd.
  rewrite exec_star, star_greedy_stop; [|exact Hds|reflexivity|].
  - rewrite exec_seq. change ("."%char :: k :: ks ++ w :: sp ++ x)
      with (lit "." ++ k :: ks ++ w :: sp ++ x).
    rewrite exec_chars_app, exec_seq, exec_plus, exec_cls_ok by exact Hk.
    rewrite exec_star, star_greedy_stop; [|exact Hks| |].
    + rewrite exec_plus, exec_cls_ok by exact Hw.
      eexists. rewrite exec_star.
      match goal with |- star_greedy _ _ ?b0 _ _ = _ =>
        destruct (HK (rev sp ++ b0)) as [res Hres]
      end.
      rewrite (@star_greedy_run _ _ _ _ _ _ _ Hsp Hres Hx). symmetry. exact Hres.
    + destruct (is_digit w) eqn:E; [|reflexivity].
      apply digit_not_space in E. congruence.
    + intros b' c a' g' Hy. rewrite exec_plus. cbn [exec after].
      now rewrite (digit_not_space _ Hy).
  - intros b' c a' g' Hy. rewrite exec_seq. apply exec_chars_fail.
    now apply dot_is_no_digit.
Qed.

Section AtMarker.
Variable M : regex.
Variables content x : str.
Hypothesis marker_passes :
  forall (K : cont) (g : groups),
    (forall bb, exists res, K (Cur bb x) g = Some res) ->
    exists bb, exec M K (Cur [] content) g = K (Cur bb x) g.

(** A title pattern after the marker captures the first line of what the
    marker leaves. *)
Lemma title_at_marker :
  exists m, re_search (Seq M rest_of_line) content = Some m
            /\ group 1 m = first_line x.
Proof.
  destruct (marker_passes (exec rest_of_line accept) []) as [bb E].
  { intros bb. destruct (@line_capture _ bb x [] ends_line_endz)
      as (u & v & _ & _ & _ & H). eexists. exact H. }
  destruct (@line_capture _ bb x [] ends_line_endz) as (u & v & Ex & Hu & Hv & H).
  fold rest_of_line in H.
  destruct (first_line_split x) as (v' & Ex' & Hd & Hv').
  assert (Eu : u = first_line x).
  { rewrite Ex in Ex' at 1.
    now apply (@dot_split_unique _ _ _ _ Hu Hv Hd Hv') in Ex'. }
  eexists. split.
  - unfold re_search. apply search_from_here. unfold match_at.
    rewrite exec_seq, E, H. reflexivity.
  - cbn [group m_groups group_get Nat.eqb]. exact Eu.
Qed.

(** A cleaning pattern after the marker captures what follows the first
    line break of what the marker leaves. *)
Lemma body_at_marker (t rest : str) :
  x = t ++ NL :: rest -> forallb dot t = true ->
  exists m, re_search (Seq M after_first_line) content = Some m
            /\ group 1 m = rest.
Proof.
  intros Ex Ht.
  assert (H : forall bb,
             exec after_first_line accept (Cur bb x) []
             = Some (Cur (rev rest ++ rev [NL] ++ rev t ++ bb) [],
                     [(1, rest)])).
  { intros bb. unfold after_first_line. rewrite exec_seq, exec_star, Ex.
    apply star_lazy_first.
    - clear. now induction t.
    - rewrite exec_seq. change (NL :: rest) with ([NL] ++ rest).
      rewrite exec_chars_app, exec_grp, exec_star.
      rewrite <- (app_nil_r rest) at 1.
      erewrite star_greedy_run; [| |reflexivity|exact I].
      + unfold accept, between. cbn [after length].
        now rewrite Nat.sub_0_r, firstn_all.
      + clear. now induction rest.
    - intros u1 u2 -> Hne. rewrite exec_seq. apply exec_chars_fail.
      destruct u2 as [|c u2]; [contradiction|].
      rewrite forallb_app in Ht. apply andb_prop in Ht as [_ Ht].
      cbn [forallb] in Ht. apply andb_prop in Ht as [Hc _].
      unfold dot, is_chr in Hc. cbn [app startswith].
      destruct (Ascii.eqb NL c); [discriminate|reflexivity]. }
  destruct (marker_passes (exec after_first_line accept) []) as [bb E].
  { intros bb. eexists. apply H. }
  eexists. split.
  - unfold re_search. apply search_from_here. unfold match_at.
    rewrite exec_seq, E, H. reflexivity.
  - reflexivity.
Qed.
End AtMarker.

(** X9: on a text that begins with digits, a period and a blank,
    [get_section_title] skips all the whitespace after the period, line
    breaks included, and returns the rest of that line, trimmed; the
    [section_num] argument plays no part. *)
Theorem get_section_title_after_marker (section_num ds y : str) (w : ascii) :
  ds <> [] -> forallb is_digit ds = true -> is_space w = true ->
  get_section_title section_num (ds ++ lit "." ++ w :: y)
  = strip (first_line (lstrip y)).
Proof.
  intros Hne Hds Hw. unfold get_section_title, section_title_re.
  destruct (@title_at_marker section_marker (ds ++ lit "." ++ w :: y) (lstrip y))
    as (m & -> & ->); [|reflexivity].
  intros K g HK. now apply section_marker_exact.
Qed.

Lemma get_section_title_after_marker_witness :
  get_section_title (lit "9") (lit "3. " ++ NL :: lit "  Goals " ++ NL :: lit "rest")
  = lit "Goals".
Proof.
  apply (@get_section_title_after_marker
           (lit "9") (lit "3") (NL :: lit "  Goals " ++ NL :: lit "rest") " "%char).
  - discriminate.
  - reflexivity.
  - reflexivity.
Defined.

(** X10: on a text that begins with digits, a period, digits and a blank,
    [get_subsection_title] skips all the whitespace after the marker and
    returns the rest of that line, trimmed. *)
Theorem get_subsection_title_after_marker
        (subsection_num ds ks y : str) (w : ascii) :
  ds <> [] -> forallb is_digit ds = true ->
  ks <> [] -> forallb is_digit ks = true -> is_space w = true ->
  get_subsection_title subsection_num (ds ++ lit "." ++ ks ++ w :: y)
  = strip (first_line (lstrip y)).
Proof.
  intros Hne Hds Hnk Hks Hw. unfold get_subsection_title, subsection_title_re.
  destruct (@title_at_marker subsection_marker
              (ds ++ lit "." ++ ks ++ w :: y) (lstrip y))
    as (m & -> & ->); [|reflexivity].
  intros K g HK. now apply subsection_marker_exact.
Qed.

Lemma get_subsection_title_after_marker_witness :
  get_subsection_title (lit "2") (lit "1.2 Scope of work" ++ NL :: lit "Text")
  = lit "Scope of work".
Proof.
  apply (@get_subsection_title_after_marker
           (lit "2") (lit "1") (lit "2") (lit "Scope of work" ++ NL :: lit "Text")
           " "%char).
  - discriminate.
  - reflexivity.
  - discriminate.
  - reflexivity.
  - reflexivity.
Defined.

(** X11: on a text that begins with digits, a period and a blank, and whose
    first line after the whitespace that follows is ended by a line break,
    [clean_section_content] returns what comes after that line break,
    trimmed. *)
Theorem clean_section_content_after_marker (ds y t rest : str) (w : ascii) :
  ds <> [] -> forallb is_digit ds = true -> is_space w = true ->
  lstrip y = t ++ NL :: rest -> forallb dot t = true ->
  clean_section_content (ds ++ lit "." ++ w :: y) = strip rest.
Proof.
  intros Hne Hds Hw Ey Ht. unfold clean_section_content, section_clean_re.
  destruct (@body_at_marker section_marker (ds ++ lit "." ++ w :: y) (lstrip y))
    with (t := t) (rest := rest) as (m & -> & ->); auto.
  intros K g HK. now apply section_marker_exact.
Qed.

Lemma clean_section_content_after_marker_witness :
  clean_section_content (lit "3.  Goals" ++ NL :: lit " first" ++ NL :: lit "second ")
  = lit "first" ++ NL :: lit "second".
Proof.
  apply (@clean_section_content_after_marker
           (lit "3") (lit " Goals" ++ NL :: lit " first" ++ NL :: lit "second ")
           (lit "Goals") (lit " first" ++ NL :: lit "second ") " "%char).
  - discriminate.
  - reflexivity.
  - reflexivity.
  - reflexivity.
  - reflexivity.
Defined.

(** X12: the same for [clean_subsection_content] after digits, a period,
    digits and a blank. *)
Theorem clean_subsection_content_after_marker (ds ks y t rest : str) (w : ascii) :
  ds <> [] -> forallb is_digit ds = true ->
  ks <> [] -> forallb is_digit ks = true -> is_space w = true ->
  lstrip y = t ++ NL :: rest -> forallb dot t = true ->
  clean_subsection_content (ds ++ lit "." ++ ks ++ w :: y) = strip rest.
Proof.
  intros Hne Hds Hnk Hks Hw Ey Ht.
  unfold clean_subsection_content, subsection_clean_re.
  destruct (@body_at_marker subsection_marker
              (ds ++ lit "." ++ ks ++ w :: y) (lstrip y))
    with (t := t) (rest := rest) as (m & -> & ->); auto.
  intros K g HK. now apply subsection_marker_exact.
Qed.

Lemma clean_subsection_content_after_marker_witness :
  clean_subsection_content (lit "1.2 Scope" ++ NL :: lit "Text of 1.2 ")
  = lit "Text of 1.2".
Proof.
  apply (@clean_subsection_content_after_marker
           (lit "1") (lit "2") (lit "Scope" ++ NL :: lit "Text of 1.2 ")
           (lit "Scope") (lit "Text of 1.2 ") " "%char).
  - discriminate.
  - reflexivity.
  - discriminate.
  - reflexivity.
  - reflexivity.
  - reflexivity.
  - reflexivity.
Defined.

(** ** The title helpers on what the extractors return *)

(** X13: [get_section_title] never falls back on the default title for a
    text stored by [extract_sections]: the text is its key, a period and a
    remainder, and the title returned is the first line of that remainder
    after its leading whitespace, trimmed. *)
Theorem get_section_title_of_extracted (content k v : str) :
  In (k, v) (extract_sections content) ->
  exists y, v = k ++ lit "." ++ y
            /\ get_section_title k v = strip (first_line (lstrip y)).
Proof.
  intros Hin.
  apply extract_sections_entry in Hin
    as ((i & Hi & ->) & (ws & x & -> & Hne & Hws) & _).
  destruct ws as [|w ws]; [contradiction|].
  cbn [forallb] in Hws. apply andb_prop in Hws as [Hw Hws].
  exists ((w :: ws) ++ x). split; [reflexivity|].
  destruct (@num_digits i ltac:(lia)) as [Hn Hd].
  unfold get_section_title, section_title_re.
  destruct (@title_at_marker section_marker
              (num i ++ lit "." ++ (w :: ws) ++ x) (lstrip (ws ++ x)))
    as (m & -> & ->).
  - intros K g HK. now apply section_marker_exact.
  - cbn [app lstrip]. now rewrite Hw.
Qed.

Lemma get_section_title_of_extracted_witness :
  exists y, lit "2. Goals and Objectives" = lit "2" ++ lit "." ++ y
            /\ get_section_title (lit "2") (lit "2. Goals and Objectives")
               = strip (first_line (lstrip y)).
Proof.
  apply (@get_section_title_of_extracted [] (lit "2") (lit "2. Goals and Objectives")).
  vm_compute. right. left. reflexivity.
Defined.

(** ** Texts without a digit, texts without a line break *)

Lemma digit_first_plus : digit_first (Plus true is_digit).
Proof.
  intros K b a g Ha. rewrite exec_plus. cbn [exec after].
  destruct a as [|c a]; [reflexivity|]. now rewrite Ha.
Qed.

Lemma digit_first_seq (r1 r2 : regex) : digit_first r1 -> digit_first (Seq r1 r2).
Proof. intros H K b a g Ha. rewrite exec_seq. now apply H. Qed.

Lemma digit_first_grp (n : nat) (r : regex) : digit_first r -> digit_first (Grp n r).
Proof. intros H K b a g Ha. rewrite exec_grp. now apply H. Qed.

Lemma no_digit_tail (u v : str) :
  forallb (fun c => negb (is_digit c)) (u ++ v) = true ->
  match v with [] => True | c :: _ => is_digit c = false end.
Proof.
  rewrite forallb_app. intros H. apply andb_prop in H as [_ H].
  destruct v as [|c v]; [exact I|]. cbn [forallb] in H.
  apply andb_prop in H as [H _]. now destruct (is_digit c).
Qed.

Lemma search_no_digit (r : regex) (s : str) :
  digit_first r ->
  forallb (fun c => negb (is_digit c)) s = true ->
  re_search r s = None.
Proof.
  intros Hr Hs. unfold re_search. apply search_from_none.
  intros u v -> . unfold match_at. rewrite Hr; [reflexivity|].
  exact (no_digit_tail _ _ Hs).
Qed.

Lemma finditer_no_digit (r : regex) (a : str) :
  digit_first r ->
  forallb (fun c => negb (is_digit c)) a = true ->
  forall skip b, finditer_from r skip b a = [].
Proof.
  intros Hr. induction a as [|c a IH]; intros Ha skip b; cbn [finditer_from].
  - destruct skip; [|reflexivity]. unfold match_at. now rewrite Hr.
  - pose proof Ha as Ha'. cbn [forallb] in Ha'. apply andb_prop in Ha' as [Hc Ha'].
    destruct skip; [|now apply IH].
    unfold match_at. rewrite Hr; [now apply IH|]. now destruct (is_digit c).
Qed.

(** X14: on a text without a decimal digit the title helpers take their
    fallback, [get_default_section_title] of the ordinal or "Subsection "
    and the ordinal, and [extract_subsections] finds nothing. *)
Theorem no_digit_fallbacks (num_arg content : str) :
  forallb (fun c => negb (is_digit c)) content = true ->
  get_section_title num_arg content = get_default_section_title num_arg
  /\ get_subsection_title num_arg content = lit "Subsection " ++ num_arg
  /\ extract_subsections content = [].
Proof.
  intros H. splits.
  - unfold get_section_title. rewrite search_no_digit; [reflexivity| |exact H].
    apply digit_first_seq, digit_first_seq, digit_first_plus.
  - unfold get_subsection_title. rewrite search_no_digit; [reflexivity| |exact H].
    apply digit_first_seq, digit_first_seq, digit_first_plus.
  - unfold extract_subsections, re_finditer.
    rewrite finditer_no_digit; [reflexivity| |exact H].
    apply digit_first_seq, digit_first_grp, digit_first_plus.
Qed.

Lemma no_digit_fallbacks_witness :
  get_section_title (lit "4") (lit "Overview. No marker here")
  = lit "Functional Requirements"
  /\ get_subsection_title (lit "4") (lit "Overview. No marker here")
     = lit "Subsection 4"
  /\ extract_subsections (lit "Overview. No marker here") = [].
Proof.
  apply (@no_digit_fallbacks (lit "4") (lit "Overview. No marker here")).
  reflexivity.
Defined.

Lemma after_first_line_inv (K : cont) (c : cursor) (g : groups) res :
  exec after_first_line K c g = Some res -> In NL (after c).
Proof.
  destruct c as [b a]. unfold after_first_line.
  rewrite exec_seq, exec_star. intros H.
  apply star_lazy_inv in H as (u & v & -> & _ & H & _).
  rewrite exec_seq in H. apply exec_chars_inv in H as (a' & -> & _).
  cbn [after]. apply in_or_app. right. now left.
Qed.

Lemma clean_pattern_needs_line_break (M : regex) (s : str) :
  forallb dot s = true -> re_search (Seq M after_first_line) s = None.
Proof.
  intros Hs. destruct (re_search _ s) as [m|] eqn:E; [exfalso|reflexivity].
  apply search_span in E as (pre & Es & Hm).
  unfold match_at in Hm.
  destruct (exec _ accept _ []) as [[e g]|] eqn:Ex; [|discriminate].
  rewrite exec_seq in Ex. apply exec_later in Ex as (c' & g' & (u & Eu & _) & Ex).
  apply after_first_line_inv in Ex. cbn [after] in Eu.
  assert (Hin : In NL s).
  { rewrite Es, Eu. apply in_or_app. right. apply in_or_app. now right. }
  rewrite forallb_forall in Hs. apply Hs in Hin. discriminate.
Qed.

Lemma split1_no_sep (s cur : str) :
  forallb dot s = true -> split1_from [NL] cur s = [rev cur ++ s].
Proof.
  revert cur; induction s as [|c s IH]; intros cur H; cbn [split1_from].
  - now rewrite app_nil_r.
  - cbn [forallb] in H. apply andb_prop in H as [Hc H].
    unfold dot, is_chr in Hc. cbn [startswith].
    destruct (Ascii.eqb NL c); [discriminate|]. cbn [andb].
    rewrite IH by exact H. cbn [rev]. now rewrite <- app_assoc.
Qed.

(** X15: a text without a line break has no body: [clean_section_content]
    and [clean_subsection_content] return the empty string, whatever the
    text holds. *)
Theorem clean_one_line (content : str) :
  forallb dot content = true ->
  clean_section_content content = [] /\ clean_subsection_content content = [].
Proof.
  intros H. unfold clean_section_content, clean_subsection_content,
    section_clean_re, subsection_clean_re, after_first_newline, split1.
  rewrite !clean_pattern_needs_line_break by exact H.
  now rewrite split1_no_sep.
Qed.

Lemma clean_one_line_witness :
  clean_section_content (lit "4. Functional Requirements") = []
  /\ clean_subsection_content (lit "4. Functional Requirements") = [].
Proof. apply (@clean_one_line (lit "4. Functional Requirements")). reflexivity. Defined.

(** ** The entries of [extract_subsections] *)

Lemma dict_set_In {V} (d : dict V) (k0 : str) (v0 : V) (k : str) (v : V) :
  In (k, v) (dict_set d k0 v0) -> (k = k0 /\ v = v0) \/ In (k, v) d.
Proof.
  induction d as [|[k' v'] d IH]; cbn [dict_set In].
  - intros [E|[]]. left. now injection E as -> ->.
  - destruct (str_eqb k' k0) eqn:Ek; cbn [In].
    + apply str_eqb_eq in Ek. subst k'. intros [E|H]; [|now right; right].
      left. now injection E as -> ->.
    + intros [E|H]; [now right; left|]. destruct (IH H) as [?|?]; auto.
Qed.

Lemma dict_assign_In {V} (kvs : list (str * V)) (d : dict V) (k : str) (v : V) :
  In (k, v) (dict_assign d kvs) -> In (k, v) d \/ In (k, v) kvs.
Proof.
  revert d; induction kvs as [|[k0 v0] kvs IH]; intros d; cbn [dict_assign fold_left].
  - now left.
  - change (fold_left _ kvs ?d0) with (dict_assign d0 kvs).
    cbn [fst snd]. intros H. apply IH in H as [H|H]; [|now right; right].
    apply dict_set_In in H as [[-> ->]|H]; [right; now left|now left].
Qed.

(** Every match of [re.finditer] is a match of the pattern at a position
    of the text. *)
Lemma finditer_In (r : regex) (a : str) m :
  forall skip b,
    In m (finditer_from r skip b a) ->
    exists u v, a = u ++ v /\ match_at r (Cur (rev u ++ b) v) = Some m.
Proof.
  induction a as [|c a IH]; intros skip b; cbn [finditer_from].
  - destruct skip; [|intros []].
    destruct (match_at r (Cur b [])) as [m'|] eqn:E; [|intros []].
    intros [->|[]]. now exists [], [].
  - assert (Hrec : forall skip', In m (finditer_from r skip' (c :: b) a) ->
                     exists u v, c :: a = u ++ v
                                 /\ match_at r (Cur (rev u ++ b) v) = Some m).
    { intros skip' H. apply IH in H as (u & v & -> & H).
      exists (c :: u), v. split; [reflexivity|].
      cbn [rev]. now rewrite <- app_assoc. }
    destruct skip; [|apply Hrec].
    destruct (match_at r (Cur b (c :: a))) as [m'|] eqn:E; [|apply Hrec].
    intros [->|H]; [|now apply Hrec in H].
    now exists [], (c :: a).
Qed.

(** The lookahead of [subsection_pattern] at a digit, a period and a digit. *)
Lemma subsection_ahead_at_marker (b a : str) (c d : ascii) (g : groups) :
  is_digit c = true -> is_digit d = true ->
  exists res,
    exec (Ahead (Alt (Seq (Plus true is_digit)
                          (Seq (Chars (lit ".")) (Plus true is_digit)))
                     EndZ))
         accept (Cur b (c :: "."%char :: d :: a)) g = Some res.
Proof.
  intros Hc Hd. rewrite exec_ahead, exec_alt.
  assert (H : exists res,
             exec (Seq (Plus true is_digit)
                       (Seq (Chars (lit ".")) (Plus true is_digit)))
                  accept (Cur b (c :: "."%char :: d :: a)) g = Some res).
  { rewrite exec_seq, exec_plus, exec_cls_ok by exact Hc.
    rewrite exec_star.
    change ("."%char :: d :: a) with ([] ++ lit "." ++ d :: a).
    rewrite star_greedy_stop; [|reflexivity|reflexivity|].
    - rewrite exec_seq, exec_chars_app, exec_plus, exec_cls_ok by exact Hd.
      rewrite exec_star. apply star_greedy_total.
      intros c0. unfold accept. now eexists.
    - intros b' x a' g' Hx. rewrite exec_seq. apply exec_chars_fail.
      now apply dot_is_no_digit. }
  destruct H as [[e g'] ->]. unfold accept. now eexists.
Qed.

(** A match of [subsection_pattern]: its text is group 1, a period, group 2,
    whitespace and group 3, and no marker begins inside group 3. *)
Lemma subsection_match_inv (b a : str) m :
  match_at subsection_pattern (Cur b a) = Some m ->
  exists ws,
    group 0 m = group 1 m ++ lit "." ++ group 2 m ++ ws ++ group 3 m
    /\ group 1 m <> [] /\ forallb is_digit (group 1 m) = true
    /\ group 2 m <> [] /\ forallb is_digit (group 2 m) = true
    /\ ws <> [] /\ forallb is_space ws = true
    /\ (forall x1 x2 c d,
          group 3 m = x1 ++ c :: "."%char :: d :: x2 ->
          is_digit c = true -> is_digit d = true -> False).
Proof.
  intros H. unfold match_at in H.
  destruct (exec _ accept (Cur b a) []) as [[e g]|] eqn:E; [|discriminate].
  injection H as <-. unfold subsection_pattern in E.
  rewrite exec_seq, exec_grp in E.
  apply exec_plus_greedy_inv in E as (n & a1 & -> & Hn & Hdn & E).
  cbn beta in E. rewrite between_app in E.
  rewrite exec_seq in E. apply exec_chars_inv in E as (a2 & -> & E).
  rewrite exec_seq, exec_grp in E.
  apply exec_plus_greedy_inv in E as (k & a3 & -> & Hk & Hdk & E).
  cbn beta in E. rewrite between_app in E.
  rewrite exec_seq in E.
  apply exec_plus_greedy_inv in E as (ws & a4 & -> & Hw & Hsw & E).
  rewrite exec_seq, exec_grp, exec_star in E.
  apply star_lazy_inv in E as (x & v & -> & _ & E & Hmin).
  cbn beta in E, Hmin. rewrite between_app in E.
  apply exec_ahead_plain in E; [|reflexivity]. injection E as -> ->.
  exists ws. cbn [group m_groups group_get Nat.eqb].
  splits; auto.
  - cbn [m_start m_end].
    replace (n ++ lit "." ++ k ++ ws ++ x ++ v)
      with ((n ++ lit "." ++ k ++ ws ++ x) ++ v)
      by now rewrite <- !app_assoc.
    apply between_app.
  - intros x1 x2 c d Ex Hc Hd.
    specialize (Hmin x1 (c :: "."%char :: d :: x2) Ex ltac:(discriminate)).
    cbn [app] in Hmin.
    match type of Hmin with
    | exec _ _ (Cur ?b0 _) ?g0 = None =>
        destruct (@subsection_ahead_at_marker b0 (x2 ++ v) c d g0 Hc Hd) as [res Hres]
    end.
    rewrite Hres in Hmin. discriminate.
Qed.

(** An entry of [extract_subsections] comes from a match in the text. *)
Lemma extract_subsections_entry (section_content k v : str) :
  In (k, v) (extract_subsections section_content) ->
  exists m pre,
    k = group 2 m /\ v = group 0 m
    /\ section_content = pre ++ v ++ after (m_end m)
    /\ match_at subsection_pattern (Cur (rev pre) (v ++ after (m_end m)))
       = Some m.
Proof.
  rewrite extract_subsections_assign. intros H.
  apply dict_assign_In in H as [[]|H].
  apply in_map_iff in H as (m & E & H). injection E as <- <-.
  apply finditer_In in H as (u & a & -> & H). rewrite app_nil_r in H.
  destruct (match_at_span _ _ _ H) as (_ & Ea & _).
  exists m, u. change (between (m_start m) (m_end m)) with (group 0 m).
  rewrite <- Ea. now splits.
Qed.

(** X16: every entry of [extract_subsections] is a contiguous piece of the
    section text made of a run of digits, a period, the key (a run of digits
    too), whitespace and a remainder in which no digit is followed by a
    period and a digit. *)
Theorem extract_subsections_shape (section_content k v : str) :
  In (k, v) (extract_subsections section_content) ->
  exists n ws x,
    v = n ++ lit "." ++ k ++ ws ++ x
    /\ n <> [] /\ forallb is_digit n = true
    /\ k <> [] /\ forallb is_digit k = true
    /\ ws <> [] /\ forallb is_space ws = true
    /\ (forall x1 x2 c d,
          x = x1 ++ c :: "."%char :: d :: x2 ->
          is_digit c = true -> is_digit d = true -> False)
    /\ exists pre post, section_content = pre ++ v ++ post.
Proof.
  intros Hin.
  apply extract_subsections_entry in Hin as (m & pre & -> & -> & Ec & Hm).
  apply subsection_match_inv in Hm
    as (ws & E0 & Hn & Hdn & Hk & Hdk & Hw & Hsw & Hx).
  exists (group 1 m), ws, (group 3 m). splits; auto.
  now exists pre, (after (m_end m)).
Qed.

Lemma extract_subsections_shape_witness :
  exists n ws x,
    lit "2.1 Other" = n ++ lit "." ++ lit "1" ++ ws ++ x
    /\ n <> [] /\ forallb is_digit n = true
    /\ lit "1" <> [] /\ forallb is_digit (lit "1") = true
    /\ ws <> [] /\ forallb is_space ws = true
    /\ (forall x1 x2 c d,
          x = x1 ++ c :: "."%char :: d :: x2 ->
          is_digit c = true -> is_digit d = true -> False)
    /\ exists pre post, two_minor_ones = pre ++ lit "2.1 Other" ++ post.
Proof.
  apply (@extract_subsections_shape two_minor_ones (lit "1") (lit "2.1 Other")).
  vm_compute. left. reflexivity.
Defined.

(** X17: [get_subsection_title] never falls back on "Subsection n" for a
    text stored by [extract_subsections]: the text is a run of digits, a
    period, its key and a remainder, and the title returned is the first
    line of that remainder after its leading whitespace, trimmed. *)
Theorem get_subsection_title_of_extracted (section_content k v : str) :
  In (k, v) (extract_subsections section_content) ->
  exists n y, v = n ++ lit "." ++ k ++ y
              /\ get_subsection_title k v = strip (first_line (lstrip y)).
Proof.
  intros Hin.
  apply extract_subsections_entry in Hin as (m & pre & -> & -> & _ & Hm).
  apply subsection_match_inv in Hm
    as (ws & -> & Hn & Hdn & Hk & Hdk & Hw & Hsw & _).
  destruct ws as [|w ws]; [contradiction|].
  cbn [forallb] in Hsw. apply andb_prop in Hsw as [Hw1 Hsw].
  exists (group 1 m), ((w :: ws) ++ group 3 m). split; [reflexivity|].
  unfold get_subsection_title, subsection_title_re.
  destruct (@title_at_marker subsection_marker
              (group 1 m ++ lit "." ++ group 2 m ++ (w :: ws) ++ group 3 m)
              (lstrip (ws ++ group 3 m)))
    as (m' & -> & ->).
  - intros K g HK. now apply subsection_marker_exact.
  - cbn [app lstrip]. now rewrite Hw1.
Qed.

Lemma get_subsection_title_of_extracted_witness :
  exists n y, lit "2.1 Other" = n ++ lit "." ++ lit "1" ++ y
              /\ get_subsection_title (lit "1") (lit "2.1 Other")
                 = strip (first_line (lstrip y)).
Proof.
  apply (@get_subsection_title_of_extracted two_minor_ones (lit "1") (lit "2.1 Other")).
  vm_compute. left. reflexivity.
Defined.

(** ** The table of contents of a build *)

Lemma formatted_no_toc_line (bs : list flowable) :
  Forall formatted_block bs -> filter is_toc_line bs = [].
Proof.
  induction 1 as [|b bs Hb _ IH]; [reflexivity|].
  destruct b as [t s| | | |]; cbn in Hb; try contradiction.
  - destruct Hb as [-> _]. exact IH.
  - exact IH.
Qed.

Lemma section_blocks_no_toc_line (content : str) (i : nat) :
  filter is_toc_line (section_blocks content i) = [].
Proof.
  unfold section_blocks. cbn [filter is_toc_line].
  rewrite !filter_app. cbn [filter is_toc_line]. rewrite app_nil_r.
  apply formatted_no_toc_line, section_body_formatted.
Qed.

(** X18: the table of contents of a build does not follow the text: its
    lines are always the sixteen default titles, numbered from 1, whatever
    headings the sections of the text carry. *)
Theorem generate_toc_is_fixed (date_str content : str) :
  filter is_toc_line (generate date_str content)
  = map (fun ie => Paragraph (str_of_nat (fst ie) ++ lit ". " ++ snd ie) toc_style)
        (enumerate toc_entries 1).
Proof.
  rewrite generate_blocks, !filter_app.
  assert (H : forall l,
             filter is_toc_line (concat (map (section_blocks content) l)) = []).
  { induction l as [|i l IH]; [reflexivity|].
    cbn [map concat]. now rewrite filter_app, IH, section_blocks_no_toc_line. }
  rewrite H. reflexivity.
Qed.
